(** * FT-DMRG driver (ftdmrg.py): a shallow embedding and its properties

    The driver sequences calls into the block2 tensor-network library.  The
    embedding keeps the driver's own control flow, assertions, index
    arithmetic and attribute updates; every call into block2 is recorded, in
    order and with its arguments, in a call log, and a call that carries
    values supplied by the caller of the method may be refused by the
    library.  NumPy arrays of doubles are lists of binary64 floats, Python
    integers are [Z].  Console output and timers are left out. *)

From Stdlib Require Import ZArith Floats Lia.
From stdpp Require Import base option list strings gmap.

Local Open Scope Z_scope.

(** ** Python exceptions and results *)

Inductive exn :=
| AssertionError
| AttributeError
| IndexError
| ValueError
| OverflowError
| FormatError
| RuntimeError
| TypeError.

Inductive result (A : Type) :=
| Ok (a : A)
| Raise (e : exn).
Arguments Ok {A} a.
Arguments Raise {A} e.

Definition is_ok {A} (r : result A) : bool :=
  match r with Ok _ => true | Raise _ => false end.

Definition result_bind {A B} (r : result A) (k : A → result B) : result B :=
  match r with Ok a => k a | Raise e => Raise e end.

(** ** Doubles *)

(** The literals of the source, as the binary64 values Python reads them to. *)
Definition f_0_1 : float := 0x1.999999999999ap-4%float.
Definition f_0_9 : float := 0x1.ccccccccccccdp-1%float.
Definition f_1em13 : float := 0x1.c25c268497682p-44%float.
Definition f_1e9 : float := 1000000000%float.

(** Python's [int(x)] on a float: truncation toward zero; [ValueError] on a
    NaN and [OverflowError] on an infinity. *)
Definition py_int (x : float) : result Z :=
  match Prim2SF x with
  | S754_zero _ => Ok 0
  | S754_finite s m e =>
      let v := Z.shiftl (Z.pos m) e in Ok (if s then - v else v)
  | S754_infinity _ => Raise OverflowError
  | S754_nan => Raise ValueError
  end.

(** [abs(x) < tol], the test both the symmetry assertion and the masks use. *)
Definition abs_lt (x tol : float) : bool := PrimFloat.ltb (PrimFloat.abs x) tol.

(** [abs(x) >= tol] as IEEE evaluates it: false when either side is a NaN. *)
Definition abs_ge (x tol : float) : bool := PrimFloat.leb tol (PrimFloat.abs x).

(** [a[np.abs(a) < tol] = 0.0] *)
Definition zero_below (tol : float) (a : list float) : list float :=
  map (λ x, if abs_lt x tol then 0%float else x) a.

(** ** NumPy indexing *)

Definition matrix (A : Type) := list (list A).

(** [range(0, n)] *)
Definition py_range (n : Z) : list Z := map Z.of_nat (seq 0 (Z.to_nat n)).

(** An index into an axis of length [len]: negative indices count from the
    end, anything outside [-len, len) is an [IndexError]. *)
Definition np_index (len : nat) (i : Z) : result nat :=
  if (0 <=? i) && (i <? Z.of_nat len) then Ok (Z.to_nat i)
  else if (- Z.of_nat len <=? i) && (i <? 0) then Ok (Z.to_nat (i + Z.of_nat len))
  else Raise IndexError.

Definition np_get {A} (a : list A) (i : Z) : result A :=
  result_bind (np_index (length a) i)
    (λ k, match a !! k with Some x => Ok x | None => Raise IndexError end).

(** [h[i, j]] *)
Definition mat_get {A} (h : matrix A) (i j : Z) : result A :=
  result_bind (np_get h i) (λ row, np_get row j).

(** [a[k] = v] *)
Definition np_set {A} (a : list A) (k : Z) (v : A) : result (list A) :=
  result_bind (np_index (length a) k) (λ k', Ok (<[k' := v]> a)).

(** [np.zeros(size)] *)
Definition np_zeros (size : Z) : list float := replicate (Z.to_nat size) 0%float.

(** A [for] loop whose body may raise: the state is threaded through the
    iterations, the first exception ends the loop. *)
Fixpoint for_each {A S} (xs : list A) (body : A → S → result S) (s : S) : result S :=
  match xs with
  | [] => Ok s
  | x :: xs' => result_bind (body x s) (for_each xs' body)
  end.

(** ** The packed one-electron array (ftdmrg.py lines 78-84 and 94-103) *)

(** One pass of the inner loop body: read [h1e[i, j]] and [h1e[j, i]], assert
    their difference is below [tol], store the entry at [k] and advance [k]. *)
Definition pack_step (h1e : matrix float) (tol : float) (i j : Z)
    (s : Z * list float) : result (Z * list float) :=
  let '(k, mh1e) := s in
  result_bind (mat_get h1e i j) (λ a,
  result_bind (mat_get h1e j i) (λ b,
  if abs_lt (a - b) tol
  then result_bind (np_set mh1e k a) (λ mh1e', Ok (k + 1, mh1e'))
  else Raise AssertionError)).

Definition pack_h1e (n_sites : Z) (h1e : matrix float) (tol : float)
    : result (list float) :=
  let mh1e := np_zeros ((n_sites * (n_sites + 1)) `div` 2) in
  result_bind
    (for_each (py_range n_sites)
       (λ i, for_each (py_range (i + 1)) (pack_step h1e tol i))
       (0, mh1e))
    (λ s, Ok s.2).

(** What the statements about the packed array speak of: a square array of
    side [n], its entry at [i, j], the place [i * (i + 1) // 2 + j] of a
    lower-triangular position, and the symmetry test over that triangle. *)
Definition square {A} (n : Z) (h : matrix A) : Prop :=
  Z.of_nat (length h) = n ∧ Forall (λ row, Z.of_nat (length row) = n) h.

Definition entry (h : matrix float) (i j : Z) : float :=
  match mat_get h i j with Ok a => a | Raise _ => 0%float end.

Definition tri (i : Z) : Z := (i * (i + 1)) `div` 2.

Definition sym_at (h : matrix float) (tol : float) (i j : Z) : bool :=
  abs_lt (entry h i j - entry h j i) tol.

Definition symmetric_within (n : Z) (h : matrix float) (tol : float) : bool :=
  forallb (λ i, forallb (sym_at h tol i) (py_range (i + 1))) (py_range n).

(** Some pair [i, j] of the square has [abs(h[i, j] - h[j, i]) >= tol]. *)
Definition asymmetric_pair (n : Z) (h : matrix float) (tol : float) : bool :=
  existsb (λ i, existsb (λ j, abs_ge (entry h i j - entry h j i) tol) (py_range n))
    (py_range n).

(** ** The 1-RDM reorder step (line 255): [dm[:, :] = dm[ridx, :][:, ridx]] *)

(** An array built entry by entry, each of which may raise. *)
Fixpoint collect {A B} (f : A → result B) (xs : list A) : result (list B) :=
  match xs with
  | [] => Ok []
  | x :: xs' =>
      result_bind (f x) (λ y, result_bind (collect f xs') (λ ys, Ok (y :: ys)))
  end.

(** [dm[ridx, :]]: the rows picked by [ridx]. *)
Definition take_rows {A} (dm : matrix A) (ridx : list Z) : result (matrix A) :=
  collect (np_get dm) ridx.

(** [x[:, ridx]]: in every row, the columns picked by [ridx]. *)
Definition take_cols {A} (x : matrix A) (ridx : list Z) : result (matrix A) :=
  collect (λ row, collect (np_get row) ridx) x.

(** Second axis length of a two-dimensional array held as a list of rows. *)
Definition shape1 {A} (dm : matrix A) : nat :=
  match dm with [] => 0%nat | r :: _ => length r end.

(** [dm[:, :] = src]: [src] must have the shape of [dm], or length 1 on an
    axis, which is then broadcast; otherwise NumPy raises [ValueError]. *)
Definition assign_broadcast {A} (dm src : matrix A) : result (matrix A) :=
  let n := length dm in
  let m := shape1 dm in
  let a := length src in
  let b := shape1 src in
  if (bool_decide (a = n) || bool_decide (a = 1%nat))
     && (bool_decide (b = m) || bool_decide (b = 1%nat))
  then
    collect (λ i,
      collect (λ j,
        match src !! (if bool_decide (a = n) then i else 0%nat)
              ≫= (.!! (if bool_decide (b = m) then j else 0%nat)) with
        | Some v => Ok v
        | None => Raise ValueError
        end) (seq 0 m)) (seq 0 n)
  else Raise ValueError.

Definition reorder {A} (dm : matrix A) (ridx : list Z) : result (matrix A) :=
  result_bind (take_rows dm ridx) (λ rows,
  result_bind (take_cols rows ridx) (λ src,
  assign_broadcast dm src)).

(** The inverse of a permutation, as [np.argsort] returns it (line 336):
    position [i] holds the place of [i] in [ridx]. *)
Fixpoint index_of (x : Z) (l : list Z) : Z :=
  match l with
  | [] => 0
  | y :: l' => if bool_decide (y = x) then 0 else 1 + index_of x l'
  end.

Definition argsort_perm (ridx : list Z) : list Z :=
  map (λ i, index_of i ridx) (py_range (Z.of_nat (length ridx))).

(** ** block2 objects, as far as the driver sees them *)

Inductive spin_kind := SU2 | SZ.

(** [SpinLabel(n, twos, pg)], a quantum-number label. *)
Record label := Label { l_n : Z; l_twos : Z; l_pg : Z }.

(** Modelled from the spec: the one-argument [SpinLabel(0)] of lines 62 and
    112 is the vacuum, which the data model gives as (0,0,0). *)
Definition vacuum_label : label := Label 0 0 0.

Inductive SeqTypes := Simple.
Inductive TETypes := TangentSpace | RK4.
Inductive QCTypes := Conventional.

(** What an [FCIDUMP] object holds: nothing after [FCIDUMP()], a file after
    [read], the arguments of [initialize_su2] or [initialize_sz] after those. *)
Inductive FCIDUMP :=
| Fd_empty
| Fd_file (filename : string)
| Fd_su2 (n_sites n_elec twos isym : Z) (e_core : float) (mh1e mg2e : list float)
| Fd_sz (n_sites n_elec twos isym : Z) (e_core : float)
        (mh1e mg2e : list (list float)).

(** The attributes of a read [FCIDUMP] that line 58-66 use. *)
Record fcidump_header := FcidumpHeader {
  fh_n_sites : Z;
  fh_twos : Z;
  fh_isym : Z;
  fh_orb_sym : list Z }.

(** [HamiltonianQC(vaccum, target, n_sites, orb_sym, fcidump)] with the two
    attributes the driver assigns afterwards; [None] is the value the
    constructor left. *)
Record HamiltonianQC := Hamiltonian {
  h_vaccum : label;
  h_target : label;
  h_n_sites : Z;
  h_orb_sym : list Z;
  h_fcidump : FCIDUMP;
  h_mu : option float;
  h_seq_mode : option SeqTypes }.

Definition set_mu (mu : float) (h : HamiltonianQC) : HamiltonianQC :=
  Hamiltonian (h_vaccum h) (h_target h) (h_n_sites h) (h_orb_sym h)
    (h_fcidump h) (Some mu) (h_seq_mode h).

Definition set_seq_mode (m : SeqTypes) (h : HamiltonianQC) : HamiltonianQC :=
  Hamiltonian (h_vaccum h) (h_target h) (h_n_sites h) (h_orb_sym h)
    (h_fcidump h) (h_mu h) (Some m).

(** ** The call log *)

(** Every call into block2 that the driver makes, with the arguments the
    driver passes.  Calls on an MPS or its info carry the tag the info object
    has at that moment.  [VectorUInt8_new] and [VectorUInt16_new] carry the
    Python integers handed to the conversion (for the first, the orbital
    symmetries as they were given, before [swap_d2h]).  [SpinLabel_new] is
    the target label [SpinLabel(n_elec, twos, PointGroup.swap_d2h(isym))] of
    lines 63 and 113, with the irrep as it was given; the vacuum
    [SpinLabel(0)] carries no value and is not logged. *)
Inductive call :=
| Random_rand_seed (seed : Z)
| init_memory (isize dsize : Z) (save_dir : string)
| set_mkl_num_threads (n : Z)
| release_memory
| FCIDUMP_new
| FCIDUMP_read (filename : string)
| FCIDUMP_initialize_su2 (n_sites n_elec twos isym : Z) (e_core : float)
    (mh1e mg2e : list float)
| FCIDUMP_initialize_sz (n_sites n_elec twos isym : Z) (e_core : float)
    (mh1e mg2e : list (list float))
| FCIDUMP_deallocate
| VectorUInt8_new (xs : list Z)
| VectorUInt16_new (xs : list Z)
| SpinLabel_new (n twos isym : Z)
| HamiltonianQC_new (vaccum target : label) (n_sites : Z) (orb_sym : list Z)
    (fd : FCIDUMP)
| Hamiltonian_set_seq_mode (m : SeqTypes)
| Hamiltonian_set_mu (mu : float)
| Hamiltonian_deallocate
| AncillaMPSInfo_new (n_sites : Z) (h : HamiltonianQC)
| MPSInfo_set_thermal_limit
| MPSInfo_save_mutable (tag : string)
| MPSInfo_load_mutable (tag : string)
| MPSInfo_deallocate_mutable
| MPSInfo_deallocate
| MPS_new (n_sites center dot : Z)
| MPS_of_info (tag : string)
| MPS_initialize (tag : string)
| MPS_fill_thermal_limit
| MPS_canonicalize
| MPS_save_mutable (tag : string)
| MPS_load_mutable (tag : string)
| MPS_save_data (tag : string)
| MPS_load_data (tag : string)
| MPS_deallocate
| MPOQC_new (h : HamiltonianQC) (t : QCTypes)
| PDM1MPOQC_new (h : HamiltonianQC)
| AncillaMPO_new (npdm : bool)
| SimplifiedMPO_new (qc_rule : bool)
| MPO_deallocate
| MovingEnvironment_new (tag : string) (name : string)
| init_environments (iprint : bool)
| ImaginaryTE_new (bond_dims : list Z) (method : TETypes) (n_sub_sweeps : Z)
| ImaginaryTE_set_iprint (v : Z)
| ImaginaryTE_solve (n_steps : Z) (beta_step : float) (forward : bool)
| Expect_new (bra_bond_dim ket_bond_dim : Z)
| Expect_set_iprint (v : Z)
| Expect_solve (propagate forward : bool)
| Expect_get_1pdm_spatial (n : Z)
| Expect_get_1pdm (n : Z)
| PDM1_deallocate.

(** The parts of block2 whose results the driver reads back.  Their code is
    outside the driver; the development holds for every such library. *)
Class Block2 := {
  (** What the library makes of a call that carries values supplied by the
      caller: [None] when it accepts them, the exception it raises otherwise
      (an integer that does not fit the C++ type of the parameter, for
      one). *)
  lib_rejects : call → option exn;
  (** [Random.rand_seed(i)]: the generator state it leaves, given the seed
      and the state of the machine (the clock), which the library is free to
      read. *)
  rand_seeded : Z → Z → Z;
  (** [PointGroup.swap_d2h] *)
  swap_d2h : Z → Z;
  (** Modelled from the spec: [FCIDUMP.read], which parses an integral file
      and fails with a format error on malformed input. *)
  fcidump_read : string → option fcidump_header;
  (** A matrix-product state as it is kept under a tag in the scratch
      directory. *)
  mps_state : Type;
  (** [mps.center] *)
  mps_center : mps_state → Z;
  (** [MPS(n_sites, center, dot)] initialised on a thermal-limit
      [AncillaMPSInfo], filled and canonicalised (lines 130-149). *)
  thermal_mps : HamiltonianQC → Z → Z → Z → Z → mps_state;
  (** [ImaginaryTE(me, bond_dims, method, n_sub_sweeps).solve(n_steps,
      beta_step, forward)] on the environment of a simplified ancilla MPO of
      the Hamiltonian (lines 192-205). *)
  te_solve : HamiltonianQC → list Z → TETypes → Z → Z → float → bool →
             mps_state → mps_state;
  (** [Expect(pme, bond_dim, bond_dim).solve(True, forward)] followed by
      [get_1pdm_spatial(n)] (SU2) or [get_1pdm(n)] (SZ) (lines 234-249). *)
  expect_1pdm : spin_kind → HamiltonianQC → mps_state → Z → bool → Z →
                matrix float }.

(** The two shapes of the [h1e] and [g2e] arguments: an array, or a tuple of
    arrays.  A [g2e] array is held as its row-major sequence, which is what
    [flatten] returns. *)
Inductive h1e_arg := H1e_array (h : matrix float) | H1e_tuple (hs : list (matrix float)).
Inductive g2e_arg := G2e_array (g : list float) | G2e_tuple (gs : list (list float)).

#[global] Instance spin_kind_eq_dec : EqDecision spin_kind.
Proof. solve_decision. Defined.

(** [x is None] *)
Definition is_none {A} (o : option A) : bool :=
  match o with None => true | Some _ => false end.

(** ** The driver *)

Section Driver.

(** Line 21: [SpinLabel = SU2], the module-level switch a user edits. *)
Variable SpinLabel : spin_kind.
Context {lib : Block2}.

(** The attributes of an [FTDMRG] instance.  [None] is Python's [None] for
    [fcidump] and [hamil], and "not assigned yet" for the others.
    [attrs_set] tells whether lines 50-52 have run: before that the object
    has no attribute at all, and reading one raises [AttributeError].  Only
    [__del__] ever runs on such an object (a constructor that raises hands
    out no reference), so the other methods are given for objects whose
    attributes exist. *)
Record FTDMRG := Instance {
  fcidump : option FCIDUMP;
  hamil : option HamiltonianQC;
  verbose : Z;
  orb_sym : option (list Z);
  n_physical_sites : option Z;
  n_sites : option Z;
  bond_dim : option Z;
  attrs_set : bool }.

(** The process: the instance, block2's process-wide state and the call log.
    Modelled from the spec: [memory] is the scratch pool that [init_memory]
    allocates with its index and data sizes and [release_memory] frees.
    [rand_state] is the generator state, which only [Random.rand_seed]
    sets, to what the library makes of the seed and of [ambient], the state
    of the machine the library can read (the clock).  The scratch directory
    holds three kinds of files per tag: the data of a state ([disk], written
    by [save_data]) and the mutable parts of an MPSInfo ([info_files]) and of
    an MPS ([mps_files]), written by their [save_mutable]. *)
Record World := MkWorld {
  self : FTDMRG;
  memory : option (Z * Z * string);
  rand_state : Z;
  disk : gmap string mps_state;
  calls : list call;
  ambient : Z;
  info_files : gset string;
  mps_files : gset string }.

Definition M (A : Type) : Type := World → World * result A.

#[local] Instance M_ret : MRet M := λ A a w, (w, Ok a).
#[local] Instance M_bind : MBind M := λ A B k m w,
  match m w with
  | (w', Ok a) => k a w'
  | (w', Raise e) => (w', Raise e)
  end.

Definition raise {A} (e : exn) : M A := λ w, (w, Raise e).
Definition lift {A} (r : result A) : M A := λ w, (w, r).
Definition assert_ (b : bool) : M unit :=
  if b then mret () else raise AssertionError.
Definition get_self : M FTDMRG := λ w, (w, Ok (self w)).
Definition get_disk : M (gmap string mps_state) := λ w, (w, Ok (disk w)).
Definition get_ambient : M Z := λ w, (w, Ok (ambient w)).
Definition get_info_files : M (gset string) := λ w, (w, Ok (info_files w)).
Definition get_mps_files : M (gset string) := λ w, (w, Ok (mps_files w)).

Definition set_self (f : FTDMRG → FTDMRG) : M unit := λ w,
  (MkWorld (f (self w)) (memory w) (rand_state w) (disk w) (calls w)
     (ambient w) (info_files w) (mps_files w), Ok ()).
Definition set_memory (m : option (Z * Z * string)) : M unit := λ w,
  (MkWorld (self w) m (rand_state w) (disk w) (calls w)
     (ambient w) (info_files w) (mps_files w), Ok ()).
Definition set_rand_state (s : Z) : M unit := λ w,
  (MkWorld (self w) (memory w) s (disk w) (calls w)
     (ambient w) (info_files w) (mps_files w), Ok ()).
Definition set_disk (d : gmap string mps_state) : M unit := λ w,
  (MkWorld (self w) (memory w) (rand_state w) d (calls w)
     (ambient w) (info_files w) (mps_files w), Ok ()).
Definition set_info_files (fs : gset string) : M unit := λ w,
  (MkWorld (self w) (memory w) (rand_state w) (disk w) (calls w)
     (ambient w) fs (mps_files w), Ok ()).
Definition set_mps_files (fs : gset string) : M unit := λ w,
  (MkWorld (self w) (memory w) (rand_state w) (disk w) (calls w)
     (ambient w) (info_files w) fs, Ok ()).

(** A call into block2: appended to the log. *)
Definition emit (c : call) : M unit := λ w,
  (MkWorld (self w) (memory w) (rand_state w) (disk w) (calls w ++ [c])
     (ambient w) (info_files w) (mps_files w), Ok ()).

(** A call into block2 that carries values supplied by the caller: it is
    made, and the library may refuse it. *)
Definition invoke (c : call) : M unit :=
  emit c;;
  match lib_rejects c with Some e => raise e | None => mret () end.

(** Reading an attribute that may be [None] or unassigned. *)
Definition attr {A} (o : option A) : M A :=
  match o with Some a => mret a | None => raise AttributeError end.

Definition with_fcidump (v : option FCIDUMP) (s : FTDMRG) : FTDMRG :=
  Instance v (hamil s) (verbose s) (orb_sym s) (n_physical_sites s)
    (n_sites s) (bond_dim s) (attrs_set s).
Definition with_hamil (v : option HamiltonianQC) (s : FTDMRG) : FTDMRG :=
  Instance (fcidump s) v (verbose s) (orb_sym s) (n_physical_sites s)
    (n_sites s) (bond_dim s) (attrs_set s).
Definition with_orb_sym (v : list Z) (s : FTDMRG) : FTDMRG :=
  Instance (fcidump s) (hamil s) (verbose s) (Some v) (n_physical_sites s)
    (n_sites s) (bond_dim s) (attrs_set s).
Definition with_n_physical_sites (v : Z) (s : FTDMRG) : FTDMRG :=
  Instance (fcidump s) (hamil s) (verbose s) (orb_sym s) (Some v)
    (n_sites s) (bond_dim s) (attrs_set s).
Definition with_n_sites (v : Z) (s : FTDMRG) : FTDMRG :=
  Instance (fcidump s) (hamil s) (verbose s) (orb_sym s) (n_physical_sites s)
    (Some v) (bond_dim s) (attrs_set s).
Definition with_bond_dim (v : Z) (s : FTDMRG) : FTDMRG :=
  Instance (fcidump s) (hamil s) (verbose s) (orb_sym s) (n_physical_sites s)
    (n_sites s) (Some v) (attrs_set s).

(** [save_mutable()] and [load_mutable()] of an MPSInfo and of an MPS under
    a tag; loading what was never saved is a failure inside block2. *)
Definition info_save_mutable (tag : string) : M unit :=
  emit (MPSInfo_save_mutable tag);;
  fs ← get_info_files;
  set_info_files ({[tag]} ∪ fs).
Definition info_load_mutable (tag : string) : M unit :=
  emit (MPSInfo_load_mutable tag);;
  fs ← get_info_files;
  if bool_decide (tag ∈ fs) then mret () else raise RuntimeError.
Definition mps_save_mutable (tag : string) : M unit :=
  emit (MPS_save_mutable tag);;
  fs ← get_mps_files;
  set_mps_files ({[tag]} ∪ fs).
Definition mps_load_mutable (tag : string) : M unit :=
  emit (MPS_load_mutable tag);;
  fs ← get_mps_files;
  if bool_decide (tag ∈ fs) then mret () else raise RuntimeError.

(** *** [__init__] (lines 43-52) *)

Definition __init__ (su2 : bool) (scratch : string) (memory_ : float)
    (omp_threads : Z) (verbose_ : Z) : M unit :=
  assert_ su2;;
  emit (Random_rand_seed 0);;
  a ← get_ambient;
  set_rand_state (rand_seeded 0 a);;
  isize ← lift (py_int (memory_ * f_0_1));
  dsize ← lift (py_int (memory_ * f_0_9));
  invoke (init_memory isize dsize scratch);;
  set_memory (Some (isize, dsize, scratch));;
  invoke (set_mkl_num_threads omp_threads);;
  set_self (λ _, Instance None None verbose_ None None None None true).

(** *** [__del__] (lines 270-275) *)

Definition __del__ : M unit :=
  s ← get_self;
  (if attrs_set s then mret () else raise AttributeError);;
  (if hamil s is Some _ then emit Hamiltonian_deallocate else mret ());;
  s ← get_self;
  (if fcidump s is Some _ then emit FCIDUMP_deallocate else mret ());;
  emit release_memory;;
  set_memory None.

(** [pg in ["d2h", "c1"]] *)
Definition supported_pg (pg : string) : bool :=
  bool_decide (pg = "d2h"%string) || bool_decide (pg = "c1"%string).

(** *** [init_hamiltonian_fcidump] (lines 54-71) *)

Definition init_hamiltonian_fcidump (pg : string) (filename : string) : M unit :=
  s ← get_self;
  assert_ (is_none (fcidump s));;
  emit FCIDUMP_new;;
  set_self (with_fcidump (Some Fd_empty));;
  emit (FCIDUMP_read filename);;
  hd ← (if fcidump_read filename is Some hd then mret hd else raise FormatError);
  set_self (with_fcidump (Some (Fd_file filename)));;
  emit (VectorUInt8_new (fh_orb_sym hd));;
  set_self (with_orb_sym (map swap_d2h (fh_orb_sym hd)));;
  let n_elec := fh_n_sites hd * 2 in
  let vaccum := vacuum_label in
  emit (SpinLabel_new n_elec (fh_twos hd) (fh_isym hd));;
  let target := Label n_elec (fh_twos hd) (swap_d2h (fh_isym hd)) in
  set_self (with_n_physical_sites (fh_n_sites hd));;
  set_self (with_n_sites (fh_n_sites hd * 2));;
  s ← get_self;
  n ← attr (n_physical_sites s);
  os ← attr (orb_sym s);
  fd ← attr (fcidump s);
  emit (HamiltonianQC_new vaccum target n os fd);;
  set_self (with_hamil (Some (Hamiltonian vaccum target n os fd None None)));;
  emit (Hamiltonian_set_seq_mode Simple);;
  set_self (λ s, with_hamil (set_seq_mode Simple <$> hamil s) s);;
  assert_ (supported_pg pg).

(** *** [init_hamiltonian] (lines 73-121) *)

Definition init_hamiltonian (pg : string) (n_sites_ twos isym : Z)
    (orb_sym_ : list Z) (e_core : float) (h1e : h1e_arg) (g2e : g2e_arg)
    (tol : float) : M unit :=
  s ← get_self;
  assert_ (is_none (fcidump s));;
  emit FCIDUMP_new;;
  set_self (with_fcidump (Some Fd_empty));;
  let n_elec := n_sites_ * 2 in
  match h1e with
  | H1e_array h =>
      mh1e ← lift (pack_h1e n_sites_ h tol);
      mg2e ← (match g2e with
               | G2e_array g => mret g
               | G2e_tuple _ => raise AttributeError
               end);
      let mh1e := zero_below tol mh1e in
      let mg2e := zero_below tol mg2e in
      invoke (FCIDUMP_initialize_su2 n_sites_ n_elec twos isym e_core mh1e mg2e);;
      set_self (with_fcidump (Some (Fd_su2 n_sites_ n_elec twos isym e_core mh1e mg2e)))
  | H1e_tuple hs =>
      assert_ (bool_decide (SpinLabel = SZ));;
      assert_ (bool_decide (length hs = 2%nat));;
      gs ← (match g2e with
            | G2e_tuple gs => assert_ (bool_decide (length gs = 3%nat));; mret gs
            | G2e_array _ => raise AssertionError
            end);
      mh1e ← lift (for_each hs (λ xh1e acc,
                 result_bind (pack_h1e n_sites_ xh1e tol)
                   (λ xmh1e, Ok (acc ++ [zero_below tol xmh1e]))) []);
      let mg2e := map (zero_below tol) gs in
      invoke (FCIDUMP_initialize_sz n_sites_ n_elec twos isym e_core mh1e mg2e);;
      set_self (with_fcidump (Some (Fd_sz n_sites_ n_elec twos isym e_core mh1e mg2e)))
  end;;
  invoke (VectorUInt8_new orb_sym_);;
  set_self (with_orb_sym (map swap_d2h orb_sym_));;
  let vaccum := vacuum_label in
  invoke (SpinLabel_new n_elec twos isym);;
  let target := Label n_elec twos (swap_d2h isym) in
  set_self (with_n_physical_sites n_sites_);;
  set_self (with_n_sites (n_sites_ * 2));;
  s ← get_self;
  n ← attr (n_physical_sites s);
  os ← attr (orb_sym s);
  fd ← attr (fcidump s);
  invoke (HamiltonianQC_new vaccum target n os fd);;
  set_self (with_hamil (Some (Hamiltonian vaccum target n os fd None None)));;
  emit (Hamiltonian_set_seq_mode Simple);;
  set_self (λ s, with_hamil (set_seq_mode Simple <$> hamil s) s);;
  assert_ (supported_pg pg).

(** The store and the Hamiltonian object that a completed in-memory
    initialisation in the one-array form leaves (lines 85-89 and 110-119). *)
Definition su2_store (n twos isym : Z) (e : float) (mh g : list float) (tol : float)
    : FCIDUMP :=
  Fd_su2 n (n * 2) twos isym e (zero_below tol mh) (zero_below tol g).

Definition built_hamil (n twos isym : Z) (os : list Z) (fd : FCIDUMP) : HamiltonianQC :=
  Hamiltonian vacuum_label (Label (n * 2) twos (swap_d2h isym)) n
    (map swap_d2h os) fd None (Some Simple).

(** *** [generate_initial_mps] (lines 123-160) *)

Definition generate_initial_mps (bond_dim_ : Z) : M unit :=
  s ← get_self;
  assert_ (negb (is_none (hamil s)));;
  h ← attr (hamil s);
  n ← attr (n_physical_sites s);
  emit (AncillaMPSInfo_new n h);;
  emit MPSInfo_set_thermal_limit;;
  let tag := "INIT"%string in
  info_save_mutable tag;;
  emit MPSInfo_deallocate_mutable;;
  ns ← attr (n_sites s);
  emit (MPS_new ns (ns - 2) 2);;
  info_load_mutable tag;;
  emit (MPS_initialize tag);;
  emit MPS_fill_thermal_limit;;
  emit MPS_canonicalize;;
  let mps_thermal := thermal_mps h n ns (ns - 2) 2 in
  mps_save_mutable tag;;
  emit MPS_deallocate;;
  emit MPSInfo_deallocate_mutable;;
  emit (MPS_save_data tag);;
  d ← get_disk;
  set_disk (<[tag := mps_thermal]> d);;
  emit MPSInfo_deallocate.

(** [mps.load_data()] under a tag: the state kept on disk under it; a
    missing state is a failure inside block2. *)
Definition load_data (tag : string) : M mps_state :=
  emit (MPS_load_data tag);;
  d ← get_disk;
  if d !! tag is Some st then mret st else raise RuntimeError.

(** [mps.save_data()] under a tag. *)
Definition save_data (tag : string) (st : mps_state) : M unit :=
  emit (MPS_save_data tag);;
  d ← get_disk;
  set_disk (<[tag := st]> d).

(** [bond_dims[-1]] *)
Definition py_last (l : list Z) : result Z := np_get l (-1).

(** *** [imaginary_time_evolution] (lines 162-214) *)

Definition imaginary_time_evolution (n_steps : Z) (beta_step mu : float)
    (bond_dims : list Z) (method : TETypes) (n_sub_sweeps : Z) (cont : bool)
    : M unit :=
  s ← get_self;
  h ← attr (hamil s);
  emit (Hamiltonian_set_mu mu);;
  set_self (with_hamil (Some (set_mu mu h)));;
  s ← get_self;
  h ← attr (hamil s);
  n ← attr (n_physical_sites s);
  emit (AncillaMPSInfo_new n h);;
  let tag := (if negb cont then "INIT" else "FINAL")%string in
  info_load_mutable tag;;
  emit (MPS_of_info tag);;
  mps ← load_data tag;
  mps_load_mutable tag;;
  tag ← (if negb cont
         then let tag := "FINAL"%string in
              info_save_mutable tag;;
              mps_save_mutable tag;;
              mret tag
         else mret tag);
  emit MPS_deallocate;;
  emit MPSInfo_deallocate_mutable;;
  emit (MPOQC_new h Conventional);;
  emit (AncillaMPO_new false);;
  emit (SimplifiedMPO_new true);;
  emit (MovingEnvironment_new tag "TE");;
  emit (init_environments (3 <=? verbose s));;
  invoke (VectorUInt16_new bond_dims);;
  invoke (ImaginaryTE_new bond_dims method n_sub_sweeps);;
  emit (ImaginaryTE_set_iprint (verbose s));;
  let forward := mps_center mps =? 0 in
  invoke (ImaginaryTE_solve n_steps beta_step forward);;
  let mps := te_solve h bond_dims method n_sub_sweeps n_steps beta_step forward mps in
  bd ← lift (py_last bond_dims);
  set_self (with_bond_dim bd);;
  save_data tag mps;;
  emit MPO_deallocate;;
  emit MPSInfo_deallocate.

(** *** [get_one_pdm] (lines 216-268) *)

(** [dm.reshape((n, 2, n, 2))] followed by [np.transpose(dm, (0, 2, 1, 3))]:
    entry [i][j] is the 2x2 spin block of orbitals [i] and [j]. *)
Definition reshape_sz (raw : matrix float) (n : Z) : result (matrix (matrix float)) :=
  let flat := concat raw in
  if (0 <=? n) && (Z.of_nat (length flat) =? n * 2 * n * 2)
  then Ok (map (λ i, map (λ j, map (λ s, map (λ t,
         default 0%float (flat !! Z.to_nat (((i * 2 + s) * n + j) * 2 + t)))
         [0; 1]) [0; 1]) (py_range n)) (py_range n))
  else Raise ValueError.

(** [dm[:, :, a, a]] *)
Definition spin_channel (a : nat) (dm : matrix (matrix float)) : matrix float :=
  map (map (λ blk, default 0%float (blk !! a ≫= (.!! a)))) dm.

(** [if ridx is not None: dm[:, :] = dm[ridx, :][:, ridx]] *)
Definition reorder_opt {A} (dm : matrix A) (ridx : option (list Z)) : result (matrix A) :=
  match ridx with Some r => reorder dm r | None => Ok dm end.

Definition get_one_pdm (ridx : option (list Z)) : M (list (matrix float)) :=
  s ← get_self;
  h ← attr (hamil s);
  emit (Hamiltonian_set_mu 0);;
  set_self (with_hamil (Some (set_mu 0 h)));;
  s ← get_self;
  h ← attr (hamil s);
  n ← attr (n_physical_sites s);
  emit (AncillaMPSInfo_new n h);;
  let tag := "FINAL"%string in
  emit (MPS_of_info tag);;
  mps ← load_data tag;
  emit (PDM1MPOQC_new h);;
  emit (AncillaMPO_new true);;
  emit (SimplifiedMPO_new false);;
  emit (MovingEnvironment_new tag "1PDM");;
  emit (init_environments (3 <=? verbose s));;
  bd ← attr (bond_dim s);
  emit (Expect_new bd bd);;
  emit (Expect_set_iprint (verbose s));;
  let forward := mps_center mps =? 0 in
  emit (Expect_solve true forward);;
  match SpinLabel with
  | SU2 =>
      emit (Expect_get_1pdm_spatial n);;
      let dm := expect_1pdm SU2 h mps bd forward n in
      dm ← lift (reorder_opt dm ridx);
      emit PDM1_deallocate;;
      emit MPO_deallocate;;
      emit MPSInfo_deallocate;;
      let half := map (map (λ x, x / 2)%float) dm in
      mret [half; half]
  | SZ =>
      emit (Expect_get_1pdm n);;
      dm ← lift (reshape_sz (expect_1pdm SZ h mps bd forward n) n);
      dm ← lift (reorder_opt dm ridx);
      emit PDM1_deallocate;;
      emit MPO_deallocate;;
      emit MPSInfo_deallocate;;
      mret [spin_channel 0 dm; spin_channel 1 dm]
  end.

(** The process with another chemical potential left on the Hamiltonian, as
    an earlier [imaginary_time_evolution] with that [mu] leaves it (line
    168); a process without a Hamiltonian is unchanged. *)
Definition with_mu (mu : float) (w : World) : World :=
  MkWorld (with_hamil (set_mu mu <$> hamil (self w)) (self w))
    (memory w) (rand_state w) (disk w) (calls w)
    (ambient w) (info_files w) (mps_files w).

(** What [get_one_pdm] returns from the array [dm] the library hands back
    (lines 244-255 and 265-268). *)
Definition one_pdm_result (dm : matrix float) (n : Z) (ridx : option (list Z))
    : result (list (matrix float)) :=
  match SpinLabel with
  | SU2 =>
      result_bind (reorder_opt dm ridx) (λ dm,
        let half := map (map (λ x, x / 2)%float) dm in Ok [half; half])
  | SZ =>
      result_bind (reshape_sz dm n) (λ dm,
      result_bind (reorder_opt dm ridx) (λ dm,
        Ok [spin_channel 0 dm; spin_channel 1 dm]))
  end.

(** *** Sequences of method calls on one instance *)

Inductive op :=
| Op_init_hamiltonian_fcidump (pg filename : string)
| Op_init_hamiltonian (pg : string) (n_sites_ twos isym : Z) (orb_sym_ : list Z)
    (e_core : float) (h1e : h1e_arg) (g2e : g2e_arg) (tol : float)
| Op_generate_initial_mps (bond_dim_ : Z)
| Op_imaginary_time_evolution (n_steps : Z) (beta_step mu : float)
    (bond_dims : list Z) (method : TETypes) (n_sub_sweeps : Z) (cont : bool)
| Op_get_one_pdm (ridx : option (list Z)).

Definition run_op (o : op) : M unit :=
  match o with
  | Op_init_hamiltonian_fcidump pg f => init_hamiltonian_fcidump pg f
  | Op_init_hamiltonian pg n twos isym os e h g tol =>
      init_hamiltonian pg n twos isym os e h g tol
  | Op_generate_initial_mps bd => generate_initial_mps bd
  | Op_imaginary_time_evolution n b mu bds me nss cont =>
      imaginary_time_evolution n b mu bds me nss cont
  | Op_get_one_pdm ridx => get_one_pdm ridx;; mret ()
  end.

Definition is_init_op (o : op) : bool :=
  match o with
  | Op_init_hamiltonian_fcidump _ _ | Op_init_hamiltonian _ _ _ _ _ _ _ _ _ => true
  | _ => false
  end.

(** The methods are called one after the other; a caller that catches an
    exception goes on with the next call.  The outcome of each is kept. *)
Fixpoint run_ops (os : list op) (w : World) : World * list (op * bool) :=
  match os with
  | [] => (w, [])
  | o :: os' =>
      let '(w', r) := run_op o w in
      let '(w'', t) := run_ops os' w' in
      (w'', (o, is_ok r) :: t)
  end.

(** The calls a step added to the log. *)
Definition emitted (w w' : World) : list call := drop (length (calls w)) (calls w').

End Driver.

Arguments World {lib}.
Arguments M {lib} A.
#[global] Existing Instances M_ret M_bind.

(** ** A small library instance, to run the driver on concrete inputs *)

(** A stand-in for block2: irreps are renumbered from 1-based to 0-based, one
    integral file exists, and a stored state is its centre and the number of
    evolution steps applied to it.  It refuses, with [TypeError], an integer
    outside the range of the parameter's type (sizes are 64-bit unsigned,
    site and electron counts, spins, irreps and bond dimensions 16-bit
    unsigned, orbital symmetries and the irrep of a label 8-bit unsigned,
    counts 32-bit signed) and a Hamiltonian whose orbital symmetries are not
    one per site, and it takes the seed 0 to mean a seed read from the
    clock.  The theorems
    below hold for every instance; this one only serves the closed
    examples. *)
Definition fits (lo hi : Z) (x : Z) : bool := (lo <=? x) && (x <? hi).

Definition demo_rejects (c : call) : option exn :=
  let check (b : bool) := if b then None else Some TypeError in
  match c with
  | init_memory isize dsize _ =>
      check (fits 0 (2 ^ 64) isize && fits 0 (2 ^ 64) dsize)
  | set_mkl_num_threads n => check (fits (- 2 ^ 31) (2 ^ 31) n)
  | FCIDUMP_initialize_su2 n ne twos isym _ _ _
  | FCIDUMP_initialize_sz n ne twos isym _ _ _ =>
      check (forallb (fits 0 (2 ^ 16)) [n; ne; twos; isym])
  | VectorUInt8_new xs => check (forallb (fits 0 (2 ^ 8)) xs)
  | VectorUInt16_new xs => check (forallb (fits 0 (2 ^ 16)) xs)
  | SpinLabel_new n twos isym =>
      check (fits (- 2 ^ 31) (2 ^ 31) n && fits (- 2 ^ 31) (2 ^ 31) twos
             && fits 0 (2 ^ 8) isym)
  | HamiltonianQC_new _ _ n os _ => check (Z.of_nat (length os) =? n)
  | ImaginaryTE_new _ _ n_sub_sweeps => check (fits (- 2 ^ 31) (2 ^ 31) n_sub_sweeps)
  | ImaginaryTE_solve n_steps _ _ => check (fits (- 2 ^ 31) (2 ^ 31) n_steps)
  | _ => None
  end.

Definition demo_1pdm (n : Z) : matrix float :=
  map (λ i, map (λ j, PrimFloat.of_uint63 (Uint63.of_Z (i * n + j + 1))) (py_range n))
      (py_range n).

#[local] Instance demo_block2 : Block2 := {|
  lib_rejects := demo_rejects;
  rand_seeded := λ seed clock, if seed =? 0 then clock else seed;
  swap_d2h := λ i, i - 1;
  fcidump_read := λ f,
    if bool_decide (f = "FCIDUMP"%string)
    then Some (FcidumpHeader 2 0 1 [1; 1]) else None;
  mps_state := Z * Z;
  mps_center := fst;
  thermal_mps := λ _ _ _ center _, (center, 0);
  te_solve := λ _ _ _ _ n_steps _ forward st,
    ((if forward then 0 else fst st), snd st + n_steps);
  expect_1pdm := λ _ _ _ _ _ n, demo_1pdm n |}.

(** A process in which nothing has been set up yet: an object without
    attributes, no pool, an empty scratch directory, a clock. *)
Definition fresh_world `{Block2} : World :=
  MkWorld (Instance None None 0 None None None None false) None 12345 ∅ []
    1700000000 ∅ ∅.

(** The same process started a minute later. *)
Definition fresh_world_later `{Block2} : World :=
  MkWorld (Instance None None 0 None None None None false) None 12345 ∅ []
    1700000060 ∅ ∅.

(** The symmetric 2x2 one-electron matrix and the two-electron array of the
    examples. *)
Definition demo_h1e : matrix float :=
  [[1%float; 0.5%float]; [0.5%float; 2%float]].
Definition demo_g2e : list float := [0.25%float; 0x1p-60%float; 1%float].

(** An asymmetric one-electron matrix, and one holding a NaN. *)
Definition demo_h1e_asym : matrix float :=
  [[1%float; 0.5%float]; [0.25%float; 2%float]].
Definition demo_h1e_nan : matrix float := [[nan]].

(** The stages of a run on the stand-in library: construction with a budget
    of 1e9 bytes, in-memory initialisation, the initial state, one
    evolution. *)
Definition demo_constructed : World :=
  (__init__ true "/tmp/ftdmrg" f_1e9 4 0 fresh_world).1.
Definition demo_initialised : World :=
  (init_hamiltonian SU2 "c1" 2 0 1 [1; 1] 0%float (H1e_array demo_h1e)
     (G2e_array demo_g2e) f_1em13 demo_constructed).1.
Definition demo_prepared : World := (generate_initial_mps 500 demo_initialised).1.
Definition demo_evolved : World :=
  (imaginary_time_evolution 10 0.0625%float 0.5%float [250; 500] RK4 4 false
     demo_prepared).1.

(** The Hamiltonian object that the in-memory initialisation of the example
    builds. *)
Definition demo_hamil : HamiltonianQC :=
  built_hamil 2 0 1 [1; 1]
    (su2_store 2 0 1 0%float [1%float; 0.5%float; 2%float] demo_g2e f_1em13).

(** * Properties *)

(** ** Running the monad *)

Section Frame.
Context {lib : Block2}.

Lemma run_bind {A B} (m : M A) (k : A → M B) w :
  (m ≫= k) w =
  match m w with (w', Ok a) => k a w' | (w', Raise e) => (w', Raise e) end.
Proof. reflexivity. Qed.

(** A relation between the world before and after a step that every step of
    a computation respects. *)
Variable R : World → World → Prop.
Hypothesis R_refl : ∀ w, R w w.
Hypothesis R_trans : ∀ a b c, R a b → R b c → R a c.

Definition keeps {A} (m : M A) : Prop := ∀ w, R w (m w).1.

Lemma keeps_ret {A} (a : A) : keeps (mret a).
Proof. intros w. apply R_refl. Qed.

Lemma keeps_raise {A} e : keeps (raise (A:=A) e).
Proof. intros w. apply R_refl. Qed.

Lemma keeps_lift {A} (r : result A) : keeps (lift r).
Proof. intros w. apply R_refl. Qed.

Lemma keeps_attr {A} (o : option A) : keeps (attr o).
Proof. destruct o; [apply keeps_ret | apply keeps_raise]. Qed.

Lemma keeps_assert b : keeps (assert_ b).
Proof. destruct b; [apply keeps_ret | apply keeps_raise]. Qed.

Lemma keeps_get_self : keeps get_self.
Proof. intros w. apply R_refl. Qed.

Lemma keeps_get_disk : keeps get_disk.
Proof. intros w. apply R_refl. Qed.

Lemma keeps_bind {A B} (m : M A) (k : A → M B) :
  keeps m → (∀ a, keeps (k a)) → keeps (m ≫= k).
Proof.
  intros Hm Hk w. rewrite run_bind.
  specialize (Hm w). destruct (m w) as [w' [a|e]]; simpl in *; [|done].
  eapply R_trans; [exact Hm | apply Hk].
Qed.

End Frame.

(** Symbolic execution of a method body on a world given by its fields: the
    monad and its primitive steps are unfolded, nothing else is. *)
Ltac exec :=
  cbv beta iota zeta delta
    [mbind M_bind mret M_ret lift raise attr assert_ emit invoke load_data
     save_data info_save_mutable info_load_mutable mps_save_mutable
     mps_load_mutable get_self get_disk get_ambient get_info_files
     get_mps_files set_self set_disk set_memory set_rand_state set_info_files
     set_mps_files self memory rand_state disk calls ambient info_files
     mps_files fst snd negb is_none
     fcidump hamil verbose orb_sym n_physical_sites n_sites bond_dim attrs_set
     with_fcidump with_hamil with_orb_sym with_n_physical_sites with_n_sites
     with_bond_dim].

(** Symbolic execution with a case split at every test the body makes, the
    innermost first. *)
Ltac run_cases :=
  exec;
  repeat (match goal with
          | |- context [match ?x with _ => _ end] =>
              lazymatch x with
              | context [match _ with _ => _ end] => fail
              | _ => destruct x eqn:?; exec
              end
          end).

(** ** What no method between construction and teardown does *)

(** The calls that act on the process as a whole: seeding the generator,
    allocating the pool and releasing it. *)
Definition global_call (c : call) : bool :=
  match c with
  | Random_rand_seed _ | init_memory _ _ _ | release_memory => true
  | _ => false
  end.

Section Quiet.
Context {lib : Block2}.
Variable SpinLabel : spin_kind.

(** A step is quiet when it leaves the memory pool and the generator state
    alone, only appends calls other than the global ones to the log, does
    not turn an [fcidump] attribute that holds an object back into [None],
    and neither creates nor removes the attributes of the instance. *)
Definition quiet (w w' : World) : Prop :=
  memory w' = memory w ∧
  rand_state w' = rand_state w ∧
  (∃ l, calls w' = calls w ++ l ∧ Forall (λ c, global_call c = false) l) ∧
  (is_none (fcidump (self w)) = false → is_none (fcidump (self w')) = false) ∧
  attrs_set (self w') = attrs_set (self w).

Lemma quiet_intro w w' l :
  memory w' = memory w → rand_state w' = rand_state w →
  calls w' = calls w ++ l → Forall (λ c, global_call c = false) l →
  (is_none (fcidump (self w)) = false → is_none (fcidump (self w')) = false) →
  attrs_set (self w') = attrs_set (self w) →
  quiet w w'.
Proof. intros Hm Hr Hc Hl Hf Ha. unfold quiet. eauto 10. Qed.

Lemma quiet_refl w : quiet w w.
Proof. apply (quiet_intro w w []); auto using app_nil_r. Qed.

Lemma quiet_trans a b c : quiet a b → quiet b c → quiet a c.
Proof.
  intros (Hm1 & Hr1 & (l1 & Hl1 & Hn1) & Hf1 & Ha1)
         (Hm2 & Hr2 & (l2 & Hl2 & Hn2) & Hf2 & Ha2).
  apply (quiet_intro a c (l1 ++ l2)); [congruence | congruence | | | auto | congruence].
  - by rewrite Hl2, Hl1, app_assoc.
  - by apply Forall_app.
Qed.

Lemma quiet_emit c : global_call c = false → keeps quiet (emit c).
Proof. intros Hc w. apply (quiet_intro _ _ [c]); auto. Qed.

Lemma quiet_field (f : World → World) :
  (∀ w, self (f w) = self w ∧ memory (f w) = memory w ∧
        rand_state (f w) = rand_state w ∧ calls (f w) = calls w) →
  keeps quiet (λ w, (f w, Ok ())).
Proof.
  intros Hf w. destruct (Hf w) as (Hs & Hm & Hr & Hc). cbn [fst].
  apply (quiet_intro _ _ []); auto.
  - by rewrite app_nil_r.
  - by rewrite Hs.
  - by rewrite Hs.
Qed.

Lemma quiet_read {A} (f : World → A) : keeps quiet (λ w, (w, Ok (f w))).
Proof. intros w. apply quiet_refl. Qed.

Lemma quiet_set_self f :
  (∀ s, (is_none (fcidump s) = false → is_none (fcidump (f s)) = false) ∧
        attrs_set (f s) = attrs_set s) →
  keeps quiet (set_self f).
Proof.
  intros Hf w. apply (quiet_intro _ _ []); auto.
  - simpl. by rewrite app_nil_r.
  - apply Hf.
  - apply Hf.
Qed.

Ltac quiet_step :=
  first
    [ apply (keeps_bind quiet quiet_trans); [ | intros ? ]
    | apply (keeps_ret quiet quiet_refl)
    | apply (keeps_raise quiet quiet_refl)
    | apply (keeps_lift quiet quiet_refl)
    | apply (keeps_attr quiet quiet_refl)
    | apply (keeps_assert quiet quiet_refl)
    | apply (quiet_read self)
    | apply (quiet_read disk)
    | apply (quiet_read info_files)
    | apply (quiet_read mps_files)
    | apply quiet_emit; reflexivity
    | apply quiet_field; intros ?; done
    | apply quiet_set_self; intros []; done
    | match goal with
      | |- keeps _ (match ?x with _ => _ end) => destruct x
      end ].

Ltac quiet_unfold :=
  unfold invoke, load_data, save_data, info_save_mutable, info_load_mutable,
    mps_save_mutable, mps_load_mutable.

Lemma quiet_init_hamiltonian_fcidump pg filename :
  keeps quiet (init_hamiltonian_fcidump pg filename).
Proof. unfold init_hamiltonian_fcidump. quiet_unfold. repeat quiet_step. Qed.

Lemma quiet_init_hamiltonian pg n twos isym os e h g tol :
  keeps quiet (init_hamiltonian SpinLabel pg n twos isym os e h g tol).
Proof. unfold init_hamiltonian. quiet_unfold. repeat quiet_step. Qed.

Lemma quiet_generate_initial_mps bd : keeps quiet (generate_initial_mps bd).
Proof. unfold generate_initial_mps. quiet_unfold. repeat quiet_step. Qed.

Lemma quiet_imaginary_time_evolution n b mu bds me nss cont :
  keeps quiet (imaginary_time_evolution n b mu bds me nss cont).
Proof.
  unfold imaginary_time_evolution. quiet_unfold. repeat quiet_step.
Qed.

Lemma quiet_get_one_pdm ridx : keeps quiet (get_one_pdm SpinLabel ridx).
Proof. unfold get_one_pdm. quiet_unfold. repeat quiet_step. Qed.

(** Once an initialiser has run, whatever its outcome, the instance holds a
    store object. *)
Lemma init_hamiltonian_sets_fcidump pg n twos isym os e h g tol w :
  is_none (fcidump (self (init_hamiltonian SpinLabel pg n twos isym os e h g tol w).1))
  = false.
Proof.
  unfold init_hamiltonian. rewrite run_bind. simpl. rewrite run_bind.
  destruct (fcidump (self w)) eqn:Hfd; simpl; [by rewrite Hfd|].
  rewrite run_bind. simpl. rewrite run_bind. simpl.
  match goal with
  | |- is_none (fcidump (self (?m ?w2).1)) = false =>
      assert (keeps quiet m) as Hk by (quiet_unfold; repeat quiet_step);
      destruct (Hk w2) as (_ & _ & _ & Hf & _); by apply Hf
  end.
Qed.

Lemma init_hamiltonian_fcidump_sets_fcidump pg filename w :
  is_none (fcidump (self (init_hamiltonian_fcidump pg filename w).1)) = false.
Proof.
  unfold init_hamiltonian_fcidump. rewrite run_bind. simpl. rewrite run_bind.
  destruct (fcidump (self w)) eqn:Hfd; simpl; [by rewrite Hfd|].
  rewrite run_bind. simpl. rewrite run_bind. simpl.
  match goal with
  | |- is_none (fcidump (self (?m ?w2).1)) = false =>
      assert (keeps quiet m) as Hk by (quiet_unfold; repeat quiet_step);
      destruct (Hk w2) as (_ & _ & _ & Hf & _); by apply Hf
  end.
Qed.

Lemma quiet_run_op o : keeps quiet (run_op SpinLabel o).
Proof.
  destruct o; simpl.
  - apply quiet_init_hamiltonian_fcidump.
  - apply quiet_init_hamiltonian.
  - apply quiet_generate_initial_mps.
  - apply quiet_imaginary_time_evolution.
  - apply (keeps_bind quiet quiet_trans); [apply quiet_get_one_pdm|].
    intros ?. apply (keeps_ret quiet quiet_refl).
Qed.

End Quiet.

(** ** Doubles: two facts of IEEE arithmetic the statements rely on *)

Lemma SFabs_binary_round p e m ex :
  SFabs (binary_round p e true m ex) = SFabs (binary_round p e false m ex).
Proof.
  unfold binary_round. destruct (shl_align _ _ _) as [mz ez].
  unfold binary_round_aux. destruct (shr_fexp _ _ _ _ _) as [mrs' e'].
  destruct (shr_fexp _ _ _ _ _) as [mrs'' e''].
  destruct (shr_m mrs''); try reflexivity.
  destruct (_ <=? _)%Z; reflexivity.
Qed.

Lemma SFabs_binary_normalize p e m ex :
  SFabs (binary_normalize p e (- m) ex false)
  = SFabs (binary_normalize p e m ex false).
Proof. destruct m; simpl; auto using SFabs_binary_round, eq_sym. Qed.

Lemma SFabs_SFsub_comm p e x y : SFabs (SFsub p e x y) = SFabs (SFsub p e y x).
Proof.
  destruct x as [sx|sx| |sx mx ex], y as [sy|sy| |sy my ey]; simpl;
    try (destruct sx, sy; reflexivity); try reflexivity.
  rewrite (Z.min_comm ey ex).
  rewrite <- SFabs_binary_normalize. f_equal. f_equal. lia.
Qed.

(** [abs(a - b)] and [abs(b - a)] are the same double. *)
Lemma float_abs_sub_comm (a b : float) :
  PrimFloat.abs (a - b) = PrimFloat.abs (b - a).
Proof.
  apply Prim2SF_inj. rewrite !abs_spec, !sub_spec. apply SFabs_SFsub_comm.
Qed.

Lemma SFcompare_swap x y : SFcompare y x = option_map CompOpp (SFcompare x y).
Proof.
  destruct x as [sx|sx| |sx mx ex], y as [sy|sy| |sy my ey]; simpl;
    try (destruct sx; reflexivity); try (destruct sy; reflexivity);
    try (destruct sx, sy; reflexivity); try reflexivity.
  destruct sx, sy; simpl; try reflexivity.
  - rewrite (Z.compare_antisym ex ey). destruct (ex ?= ey)%Z; simpl; try reflexivity.
    f_equal. f_equal. apply (Pos.compare_antisym mx my).
  - rewrite (Z.compare_antisym ex ey). destruct (ex ?= ey)%Z; simpl; try reflexivity.
    f_equal. apply (Pos.compare_antisym mx my).
Qed.

(** [x >= tol] excludes [x < tol]. *)
Lemma abs_ge_not_lt (x tol : float) : abs_ge x tol = true → abs_lt x tol = false.
Proof.
  unfold abs_ge, abs_lt. rewrite leb_spec, ltb_spec. unfold SFleb, SFltb.
  rewrite (SFcompare_swap (Prim2SF tol) (Prim2SF (PrimFloat.abs x))).
  destruct (SFcompare (Prim2SF tol) (Prim2SF (PrimFloat.abs x))) as [[]|];
    simpl; congruence.
Qed.

Lemma abs_ge_swap (a b tol : float) : abs_ge (a - b) tol = abs_ge (b - a) tol.
Proof. unfold abs_ge. by rewrite float_abs_sub_comm. Qed.

(** ** The packing loop *)

Lemma result_bind_Ok {A} (r : result A) : result_bind r Ok = r.
Proof. by destruct r. Qed.

Lemma for_each_app {A S} (xs ys : list A) (body : A → S → result S) s :
  for_each (xs ++ ys) body s = result_bind (for_each xs body s) (for_each ys body).
Proof.
  revert s. induction xs as [|x xs IH]; intros s; simpl; [done|].
  destruct (body x s); simpl; auto.
Qed.

Lemma py_range_snoc (c : nat) :
  py_range (Z.of_nat (S c)) = py_range (Z.of_nat c) ++ [Z.of_nat c].
Proof.
  unfold py_range. rewrite !Nat2Z.id, seq_S, map_app. reflexivity.
Qed.

Lemma elem_of_py_range n i : i ∈ py_range n ↔ 0 ≤ i < n.
Proof.
  unfold py_range. rewrite list_elem_of_fmap. split.
  - intros (k & -> & Hk). apply elem_of_seq in Hk. lia.
  - intros Hi. exists (Z.to_nat i). split; [lia|]. apply elem_of_seq. lia.
Qed.

Lemma np_index_nonneg len i :
  0 ≤ i < Z.of_nat len → np_index len i = Ok (Z.to_nat i).
Proof.
  intros Hi. unfold np_index.
  destruct (Z.leb_spec 0 i); [|lia]. destruct (Z.ltb_spec i (Z.of_nat len)); [|lia].
  reflexivity.
Qed.

Lemma np_get_nonneg {A} (a : list A) i :
  0 ≤ i < Z.of_nat (length a) → ∃ x, a !! Z.to_nat i = Some x ∧ np_get a i = Ok x.
Proof.
  intros Hi. unfold np_get. rewrite np_index_nonneg by done. simpl.
  destruct (lookup_lt_is_Some_2 a (Z.to_nat i)) as [x Hx]; [lia|].
  exists x. by rewrite Hx.
Qed.

Lemma mat_get_square n (h : matrix float) i j :
  square n h → 0 ≤ i < n → 0 ≤ j < n → mat_get h i j = Ok (entry h i j).
Proof.
  intros [Hlen Hrows] Hi Hj. unfold entry.
  assert (∃ a, mat_get h i j = Ok a) as [a Ha]; [|by rewrite Ha].
  unfold mat_get.
  destruct (np_get_nonneg h i) as (row & Hrow & ->); [lia|]. simpl.
  rewrite Forall_forall in Hrows.
  assert (Z.of_nat (length row) = n) as Hr.
  { apply Hrows. eapply list_elem_of_lookup_2. exact Hrow. }
  destruct (np_get_nonneg row j) as (x & _ & ->); [lia|]. eauto.
Qed.

Lemma tri_succ i : tri (i + 1) = tri i + i + 1.
Proof.
  unfold tri. replace ((i + 1) * (i + 1 + 1)) with (i * (i + 1) + (i + 1) * 2) by lia.
  rewrite Z.div_add by lia. lia.
Qed.

Lemma tri_nonneg i : 0 ≤ i → 0 ≤ tri i.
Proof. intros Hi. unfold tri. apply Z.div_pos; nia. Qed.

Lemma tri_mono i j : 0 ≤ i ≤ j → tri i ≤ tri j.
Proof. intros Hij. unfold tri. apply Z.div_le_mono; nia. Qed.

(** One row of the triangle: either every pair of the row passes the
    assertion and the row is stored from [k0] on, or the assertion fails. *)
Lemma pack_row_spec (h : matrix float) tol n i k0 mh0 (c : nat) :
  square n h → 0 ≤ i < n → Z.of_nat c ≤ i + 1 →
  0 ≤ k0 → k0 + Z.of_nat c ≤ Z.of_nat (length mh0) →
  match for_each (py_range (Z.of_nat c)) (pack_step h tol i) (k0, mh0) with
  | Ok (k, mh) =>
      forallb (sym_at h tol i) (py_range (Z.of_nat c)) = true ∧
      k = k0 + Z.of_nat c ∧ length mh = length mh0 ∧
      (∀ j, 0 ≤ j < Z.of_nat c → mh !! Z.to_nat (k0 + j) = Some (entry h i j)) ∧
      (∀ p, (p < Z.to_nat k0)%nat → mh !! p = mh0 !! p)
  | Raise e =>
      e = AssertionError ∧ forallb (sym_at h tol i) (py_range (Z.of_nat c)) = false
  end.
Proof.
  intros Hsq Hi Hc Hk0 Hlen. induction c as [|c IH].
  - simpl. repeat split; auto; [lia | intros; lia].
  - rewrite py_range_snoc, for_each_app, forallb_app.
    specialize (IH ltac:(lia) ltac:(lia)).
    destruct (for_each _ _ _) as [[k mh]|e]; simpl.
    + destruct IH as (Hall & -> & Hl & Hrow & Hold). rewrite Hall. simpl.
      rewrite (mat_get_square n), (mat_get_square n) by (done || lia). simpl.
      unfold sym_at. destruct (abs_lt _ tol) eqn:Hlt; simpl; [|done].
      unfold np_set. rewrite np_index_nonneg by lia. simpl.
      repeat split; auto.
      * lia.
      * by rewrite length_insert.
      * intros j Hj. destruct (decide (j = Z.of_nat c)) as [->|Hne].
        -- apply list_lookup_insert_eq. lia.
        -- rewrite list_lookup_insert_ne by lia. apply Hrow. lia.
      * intros p Hp. rewrite list_lookup_insert_ne by lia. by apply Hold.
    + destruct IH as [-> Hall]. by rewrite Hall.
Qed.

Lemma pack_rows_spec (h : matrix float) tol n mh0 (r : nat) :
  square n h → Z.of_nat r ≤ n → Z.of_nat (length mh0) = tri n →
  match for_each (py_range (Z.of_nat r))
          (λ i, for_each (py_range (i + 1)) (pack_step h tol i)) (0, mh0) with
  | Ok (k, mh) =>
      symmetric_within (Z.of_nat r) h tol = true ∧
      k = tri (Z.of_nat r) ∧ length mh = length mh0 ∧
      (∀ i j, 0 ≤ j ≤ i → i < Z.of_nat r →
              mh !! Z.to_nat (tri i + j) = Some (entry h i j))
  | Raise e =>
      e = AssertionError ∧ symmetric_within (Z.of_nat r) h tol = false
  end.
Proof.
  intros Hsq Hr Hlen. unfold symmetric_within. induction r as [|r IH].
  - simpl. repeat split; auto. intros; lia.
  - rewrite py_range_snoc, for_each_app, forallb_app.
    specialize (IH ltac:(lia)).
    destruct (for_each _ _ _) as [[k mh]|e]; simpl.
    + destruct IH as (Hall & -> & Hl & Hprev). rewrite Hall. simpl.
      replace (Z.of_nat r + 1) with (Z.of_nat (S r)) by lia.
      pose proof (tri_succ (Z.of_nat r)) as Hts.
      pose proof (tri_mono (Z.of_nat r + 1) n ltac:(lia)) as Htm.
      pose proof (tri_nonneg (Z.of_nat r) ltac:(lia)) as Htn.
      pose proof (pack_row_spec h tol n (Z.of_nat r) (tri (Z.of_nat r)) mh (S r)
                    Hsq ltac:(lia) ltac:(lia) Htn ltac:(lia)) as Hrow.
      destruct (for_each _ _ _) as [[k' mh']|e']; simpl.
      * destruct Hrow as (Hall' & -> & Hl' & Hnew & Hold). rewrite Hall'.
        repeat split; auto.
        -- replace (Z.of_nat (S r)) with (Z.of_nat r + 1) by lia. lia.
        -- congruence.
        -- intros i j Hj Hi. destruct (decide (i = Z.of_nat r)) as [->|Hne].
           ++ apply Hnew. lia.
           ++ rewrite Hold; [apply Hprev; lia|].
              pose proof (tri_succ i). pose proof (tri_mono (i + 1) (Z.of_nat r) ltac:(lia)).
              pose proof (tri_nonneg i ltac:(lia)). lia.
      * destruct Hrow as [-> Hall']. by rewrite Hall'.
    + destruct IH as [-> Hall]. by rewrite Hall.
Qed.

(** [pack_h1e] on a square array: the packed lower triangle when every pair
    of the triangle is within tolerance, an [AssertionError] otherwise. *)
Lemma pack_h1e_spec (h : matrix float) tol n :
  square n h →
  match pack_h1e n h tol with
  | Ok mh =>
      symmetric_within n h tol = true ∧
      Z.of_nat (length mh) = tri n ∧
      (∀ i j, 0 ≤ j ≤ i → i < n →
              mh !! Z.to_nat (tri i + j) = Some (entry h i j))
  | Raise e => e = AssertionError ∧ symmetric_within n h tol = false
  end.
Proof.
  intros Hsq. assert (0 ≤ n) as Hn by (destruct Hsq; lia).
  unfold pack_h1e.
  assert (Z.of_nat (length (np_zeros (tri n))) = tri n) as Hz.
  { unfold np_zeros. rewrite length_replicate. pose proof (tri_nonneg n Hn). lia. }
  pose proof (pack_rows_spec h tol n (np_zeros (tri n)) (Z.to_nat n) Hsq
                ltac:(lia) Hz) as H.
  rewrite Z2Nat.id in H by lia. fold (tri n).
  destruct (for_each _ _ _) as [[k mh]|e]; simpl; [|done].
  destruct H as (Hall & _ & Hl & Hentries). repeat split; auto. congruence.
Qed.

(** ** Running the initialisers *)

Lemma emitted_app `{Block2} (w w' : World) l :
  calls w' = calls w ++ l → emitted w w' = l.
Proof. intros Hc. unfold emitted. rewrite Hc. by rewrite drop_app_length. Qed.

Lemma emitted_same `{Block2} (w : World) : emitted w w = [].
Proof. apply emitted_app. by rewrite app_nil_r. Qed.

Ltac log_eq := apply emitted_app; cbn [calls app]; rewrite <- ?app_assoc; reflexivity.

Section Init.
Context {lib : Block2}.
Variable SpinLabel : spin_kind.

(** The in-memory initialisation in the one-array form, when the packing
    succeeds and the library accepts the integrals, the orbital symmetries,
    the target label and the Hamiltonian. *)
Lemma init_hamiltonian_array_run pg n twos isym os e h g tol w mh :
  fcidump (self w) = None → pack_h1e n h tol = Ok mh →
  lib_rejects (FCIDUMP_initialize_su2 n (n * 2) twos isym e
                 (zero_below tol mh) (zero_below tol g)) = None →
  lib_rejects (VectorUInt8_new os) = None →
  lib_rejects (SpinLabel_new (n * 2) twos isym) = None →
  lib_rejects (HamiltonianQC_new vacuum_label (Label (n * 2) twos (swap_d2h isym)) n
                 (map swap_d2h os) (su2_store n twos isym e mh g tol)) = None →
  init_hamiltonian SpinLabel pg n twos isym os e (H1e_array h) (G2e_array g) tol w =
  let fd := su2_store n twos isym e mh g tol in
  let hm := built_hamil n twos isym os fd in
  (MkWorld
     (Instance (Some fd) (Some hm) (verbose (self w)) (Some (map swap_d2h os))
        (Some n) (Some (n * 2)) (bond_dim (self w)) (attrs_set (self w)))
     (memory w) (rand_state w) (disk w)
     (calls w ++ [FCIDUMP_new;
                  FCIDUMP_initialize_su2 n (n * 2) twos isym e
                    (zero_below tol mh) (zero_below tol g);
                  VectorUInt8_new os; SpinLabel_new (n * 2) twos isym;
                  HamiltonianQC_new vacuum_label
                    (Label (n * 2) twos (swap_d2h isym)) n (map swap_d2h os) fd;
                  Hamiltonian_set_seq_mode Simple])
     (ambient w) (info_files w) (mps_files w),
   if supported_pg pg then Ok () else Raise AssertionError).
Proof.
  intros Hnone Hpack Hinit Hvec Hlab Hham.
  destruct w as [[fd hm v os' np ns bdim at_] m r d c amb inf mpf].
  simpl in Hnone. subst fd. unfold su2_store in Hham.
  unfold init_hamiltonian. exec. rewrite Hpack. exec. rewrite Hinit. exec.
  rewrite Hvec. exec. rewrite Hlab. exec. rewrite Hham. exec. unfold su2_store, built_hamil, set_seq_mode. cbn [fmap option_fmap option_map h_vaccum h_target h_n_sites h_orb_sym h_fcidump h_mu].
  rewrite <- !app_assoc. cbn [app].
  destruct (supported_pg pg); reflexivity.
Qed.

(** An array whose packing fails leaves a fresh, empty store behind, whatever
    the two-electron argument is. *)
Lemma init_hamiltonian_array_reject pg n twos isym os e h g2e tol w ex :
  fcidump (self w) = None → pack_h1e n h tol = Raise ex →
  init_hamiltonian SpinLabel pg n twos isym os e (H1e_array h) g2e tol w =
  (MkWorld (with_fcidump (Some Fd_empty) (self w)) (memory w) (rand_state w)
     (disk w) (calls w ++ [FCIDUMP_new]) (ambient w) (info_files w) (mps_files w),
   Raise ex).
Proof.
  intros Hnone Hpack.
  destruct w as [[fd hm v os' np ns bdim at_] m r d c amb inf mpf].
  simpl in Hnone. subst fd.
  unfold init_hamiltonian. exec. rewrite Hpack. reflexivity.
Qed.

(** Whatever the library makes of the later calls, the store holds the
    packed and zeroed arrays as soon as [initialize_su2] has accepted them,
    and holds nothing before. *)
Lemma init_hamiltonian_array_store pg n twos isym os e h g tol w :
  fcidump (self w) = None →
  let r := init_hamiltonian SpinLabel pg n twos isym os e (H1e_array h) (G2e_array g)
             tol w in
  match pack_h1e n h tol with
  | Raise ex => fcidump (self r.1) = Some Fd_empty
  | Ok mh =>
      let c := FCIDUMP_initialize_su2 n (n * 2) twos isym e
                 (zero_below tol mh) (zero_below tol g) in
      match lib_rejects c with
      | Some ex => fcidump (self r.1) = Some Fd_empty
      | None => fcidump (self r.1) = Some (su2_store n twos isym e mh g tol) ∧
                c ∈ emitted w r.1
      end
  end.
Proof.
  intros Hnone. cbv zeta.
  destruct w as [[fd hm v os' np ns bdim at_] m r d c amb inf mpf].
  simpl in Hnone. subst fd.
  unfold init_hamiltonian. exec.
  destruct (pack_h1e n h tol) as [mh|ex]; exec; [|done].
  destruct (lib_rejects (FCIDUMP_initialize_su2 _ _ _ _ _ _ _)); exec; [done|].
  run_cases; (split; [done|]);
    (erewrite emitted_app by (cbn [calls]; by rewrite <- !app_assoc));
    rewrite ?elem_of_app, ?elem_of_cons; auto 10.
Qed.

Lemma init_hamiltonian_fcidump_run pg filename hd w :
  fcidump (self w) = None → fcidump_read filename = Some hd →
  init_hamiltonian_fcidump pg filename w =
  let n := fh_n_sites hd in
  let os := map swap_d2h (fh_orb_sym hd) in
  let target := Label (n * 2) (fh_twos hd) (swap_d2h (fh_isym hd)) in
  let hm := Hamiltonian vacuum_label target n os (Fd_file filename) None (Some Simple) in
  (MkWorld
     (Instance (Some (Fd_file filename)) (Some hm) (verbose (self w)) (Some os)
        (Some n) (Some (n * 2)) (bond_dim (self w)) (attrs_set (self w)))
     (memory w) (rand_state w) (disk w)
     (calls w ++ [FCIDUMP_new; FCIDUMP_read filename;
                  VectorUInt8_new (fh_orb_sym hd);
                  SpinLabel_new (n * 2) (fh_twos hd) (fh_isym hd);
                  HamiltonianQC_new vacuum_label target n os (Fd_file filename);
                  Hamiltonian_set_seq_mode Simple])
     (ambient w) (info_files w) (mps_files w),
   if supported_pg pg then Ok () else Raise AssertionError).
Proof.
  intros Hnone Hread.
  destruct w as [[fd hm v os' np ns bdim at_] m r d c amb inf mpf].
  simpl in Hnone. subst fd.
  unfold init_hamiltonian_fcidump. exec. rewrite Hread. exec.
  unfold set_seq_mode. cbn [fmap option_fmap option_map h_vaccum h_target h_n_sites h_orb_sym h_fcidump h_mu].
  rewrite <- !app_assoc. cbn [app].
  destruct (supported_pg pg); reflexivity.
Qed.

(** A second initialisation stops at its first assertion and changes
    nothing. *)
Lemma init_hamiltonian_again pg n twos isym os e h g tol w :
  is_none (fcidump (self w)) = false →
  init_hamiltonian SpinLabel pg n twos isym os e h g tol w = (w, Raise AssertionError).
Proof.
  intros Hsome. unfold init_hamiltonian. rewrite run_bind. simpl.
  rewrite run_bind. by rewrite Hsome.
Qed.

Lemma init_hamiltonian_fcidump_again pg filename w :
  is_none (fcidump (self w)) = false →
  init_hamiltonian_fcidump pg filename w = (w, Raise AssertionError).
Proof.
  intros Hsome. unfold init_hamiltonian_fcidump. rewrite run_bind. simpl.
  rewrite run_bind. by rewrite Hsome.
Qed.

(** Computations that never return normally. *)
Definition fails {A} (m : M A) : Prop := ∀ w, is_ok (m w).2 = false.

Lemma fails_bind_r {A B} (m : M A) (k : A → M B) :
  (∀ a, fails (k a)) → fails (m ≫= k).
Proof.
  intros Hk w. rewrite run_bind. destruct (m w) as [w' [a|e]]; [apply Hk | done].
Qed.

Lemma fails_assert_false : fails (assert_ false).
Proof. by intros w. Qed.

Lemma init_hamiltonian_unsupported pg n twos isym os e h g tol :
  supported_pg pg = false →
  fails (init_hamiltonian SpinLabel pg n twos isym os e h g tol).
Proof.
  intros Hpg. unfold init_hamiltonian. rewrite Hpg.
  repeat (apply fails_bind_r; intros ?). apply fails_assert_false.
Qed.

Lemma init_hamiltonian_fcidump_unsupported pg filename :
  supported_pg pg = false → fails (init_hamiltonian_fcidump pg filename).
Proof.
  intros Hpg. unfold init_hamiltonian_fcidump. rewrite Hpg.
  repeat (apply fails_bind_r; intros ?). apply fails_assert_false.
Qed.

End Init.

(** ** Symmetry of the one-electron array *)

Lemma asymmetric_pair_spec n h tol :
  asymmetric_pair n h tol = true ↔
  ∃ i j, 0 ≤ i < n ∧ 0 ≤ j < n ∧ abs_ge (entry h i j - entry h j i) tol = true.
Proof.
  unfold asymmetric_pair. rewrite existsb_exists. split.
  - intros (i & Hi & Hex). apply existsb_exists in Hex as (j & Hj & Hge).
    apply list_elem_of_In, elem_of_py_range in Hi, Hj. eauto.
  - intros (i & j & Hi & Hj & Hge). exists i. split.
    + by apply list_elem_of_In, elem_of_py_range.
    + apply existsb_exists. exists j. split; [|done].
      by apply list_elem_of_In, elem_of_py_range.
Qed.

Lemma symmetric_within_spec n h tol :
  symmetric_within n h tol = true ↔
  ∀ i j, 0 ≤ j ≤ i → i < n → abs_lt (entry h i j - entry h j i) tol = true.
Proof.
  unfold symmetric_within. rewrite forallb_forall. split.
  - intros Hall i j Hj Hi.
    specialize (Hall i ltac:(apply list_elem_of_In, elem_of_py_range; lia)).
    rewrite forallb_forall in Hall. apply Hall.
    apply list_elem_of_In, elem_of_py_range. lia.
  - intros Hall i Hi. apply list_elem_of_In, elem_of_py_range in Hi.
    apply forallb_forall. intros j Hj. apply list_elem_of_In, elem_of_py_range in Hj.
    apply Hall; lia.
Qed.

(** A pair beyond tolerance anywhere in the square shows up in the lower
    triangle, which is the part the loop visits. *)
Lemma asymmetric_not_symmetric n h tol :
  asymmetric_pair n h tol = true → symmetric_within n h tol = false.
Proof.
  rewrite asymmetric_pair_spec. intros (i & j & Hi & Hj & Hge).
  apply not_true_is_false. rewrite symmetric_within_spec. intros Hall.
  destruct (Z.le_ge_cases j i) as [Hle|Hle].
  - apply abs_ge_not_lt in Hge. rewrite Hall in Hge by lia. done.
  - rewrite abs_ge_swap in Hge. apply abs_ge_not_lt in Hge.
    rewrite Hall in Hge by lia. done.
Qed.

(** ** The claims about Hamiltonian initialisation *)

Section InitClaims.
Context {lib : Block2}.
Variable SpinLabel : spin_kind.

Lemma supported_pg_spec pg :
  supported_pg pg = true ↔ pg = "d2h"%string ∨ pg = "c1"%string.
Proof.
  unfold supported_pg. rewrite orb_true_iff, !bool_decide_eq_true. tauto.
Qed.

(** C1 (amended).  [init_hamiltonian] on a square one-electron array [h] of
    side [n_sites], passed as an array: if some pair [i, j] has
    [abs(h[i, j] - h[j, i]) >= tol], the call raises (an [AssertionError])
    and the only call it has made by then is the construction of the empty
    [FCIDUMP] object, so the store is not populated; if every pair of the
    lower triangle has [abs(h[i, j] - h[j, i]) < tol], the point group is
    "d2h" or "c1", the instance has not been initialised before and the
    library accepts the four calls that carry the caller's values
    ([initialize_su2] with the packed arrays, the conversion of the orbital
    symmetries, the target label and the Hamiltonian), the call returns
    normally. *)
Theorem init_hamiltonian_symmetry_gate pg n twos isym os e h g2e g tol w :
  square n h →
  (asymmetric_pair n h tol = true →
   let r := init_hamiltonian SpinLabel pg n twos isym os e (H1e_array h) g2e tol w in
   r.2 = Raise AssertionError ∧
   (emitted w r.1 = [] ∨ emitted w r.1 = [FCIDUMP_new]) ∧
   (fcidump (self r.1) = fcidump (self w) ∨ fcidump (self r.1) = Some Fd_empty)) ∧
  (symmetric_within n h tol = true → supported_pg pg = true →
   fcidump (self w) = None →
   (∀ mh, pack_h1e n h tol = Ok mh →
      lib_rejects (FCIDUMP_initialize_su2 n (n * 2) twos isym e
                     (zero_below tol mh) (zero_below tol g)) = None ∧
      lib_rejects (HamiltonianQC_new vacuum_label
                     (Label (n * 2) twos (swap_d2h isym)) n (map swap_d2h os)
                     (su2_store n twos isym e mh g tol)) = None) →
   lib_rejects (VectorUInt8_new os) = None →
   lib_rejects (SpinLabel_new (n * 2) twos isym) = None →
   (init_hamiltonian SpinLabel pg n twos isym os e (H1e_array h) (G2e_array g) tol w).2
   = Ok ()).
Proof.
  intros Hsq. pose proof (pack_h1e_spec h tol n Hsq) as Hpack. split.
  - intros Hasym. apply asymmetric_not_symmetric in Hasym. simpl.
    destruct (fcidump (self w)) as [fd|] eqn:Hfd.
    + rewrite init_hamiltonian_again by (by rewrite Hfd). simpl.
      rewrite emitted_same, Hfd. auto.
    + destruct (pack_h1e n h tol) as [mh|ex] eqn:Hp.
      { destruct Hpack as [Hs _]. congruence. }
      destruct Hpack as [-> _].
      rewrite (init_hamiltonian_array_reject _ _ _ _ _ _ _ _ _ _ _ _ Hfd Hp). simpl.
      rewrite (emitted_app w _ [FCIDUMP_new]) by done. auto.
  - intros Hsym Hpg Hfd Hinit Hvec Hlab.
    destruct (pack_h1e n h tol) as [mh|ex] eqn:Hp.
    + destruct (Hinit mh eq_refl) as [Hi Hh].
      rewrite (init_hamiltonian_array_run _ _ _ _ _ _ _ _ _ _ _ mh) by auto.
      simpl. by rewrite Hpg.
    + destruct Hpack as [_ Hs]. congruence.
Qed.

(** C2.  When [init_hamiltonian] accepts a square array [h] and populates the
    store, the packed array it passes holds, at place [i * (i + 1) // 2 + j]
    of each lower-triangular position, [h[i, j]] if [abs(h[i, j]) >= tol] and
    0.0 if [abs(h[i, j]) < tol]; the flattened two-electron array is passed
    with every entry below [tol] in absolute value set to 0.0 and the others
    as they were. *)
Theorem init_hamiltonian_packs_and_zeroes pg n twos isym os e h g tol w
    n' ne tw isy e' mh1e mg2e :
  square n h → fcidump (self w) = None →
  fcidump (self (init_hamiltonian SpinLabel pg n twos isym os e
                   (H1e_array h) (G2e_array g) tol w).1)
  = Some (Fd_su2 n' ne tw isy e' mh1e mg2e) →
  FCIDUMP_initialize_su2 n' ne tw isy e' mh1e mg2e
    ∈ emitted w (init_hamiltonian SpinLabel pg n twos isym os e
                   (H1e_array h) (G2e_array g) tol w).1 ∧
  Z.of_nat (length mh1e) = tri n ∧
  (∀ i j, 0 ≤ j ≤ i → i < n → abs_ge (entry h i j) tol = true →
          mh1e !! Z.to_nat (tri i + j) = Some (entry h i j)) ∧
  (∀ i j, 0 ≤ j ≤ i → i < n → abs_lt (entry h i j) tol = true →
          mh1e !! Z.to_nat (tri i + j) = Some 0%float) ∧
  length mg2e = length g ∧
  (∀ p x, g !! p = Some x → abs_lt x tol = true → mg2e !! p = Some 0%float) ∧
  (∀ p x, g !! p = Some x → abs_lt x tol = false → mg2e !! p = Some x).
Proof.
  intros Hsq Hfd. pose proof (pack_h1e_spec h tol n Hsq) as Hpack.
  pose proof (init_hamiltonian_array_store SpinLabel pg n twos isym os e h g tol w Hfd)
    as Hstore. cbv zeta in Hstore.
  destruct (pack_h1e n h tol) as [mh|ex]; [|rewrite Hstore; discriminate].
  destruct (lib_rejects (FCIDUMP_initialize_su2 _ _ _ _ _ _ _));
    [rewrite Hstore; discriminate|].
  destruct Hstore as [-> Hin]. destruct Hpack as (_ & Hlen & Hent). unfold su2_store.
  intros [= <- <- <- <- <- <- <-].
  assert (∀ i j, 0 ≤ j ≤ i → i < n →
            zero_below tol mh !! Z.to_nat (tri i + j)
            = Some (if abs_lt (entry h i j) tol then 0%float else entry h i j)) as Hz.
  { intros i j Hj Hi. unfold zero_below. by rewrite list_lookup_fmap, Hent. }
  split; [|split; [|split; [|split; [|split; [|split]]]]].
  - exact Hin.
  - unfold zero_below. by rewrite length_map.
  - intros i j Hj Hi Hge. rewrite Hz by done. by rewrite (abs_ge_not_lt _ _ Hge).
  - intros i j Hj Hi Hlt. rewrite Hz by done. by rewrite Hlt.
  - unfold zero_below. by rewrite length_map.
  - intros p x Hp Hlt. unfold zero_below. by rewrite list_lookup_fmap, Hp; simpl; rewrite Hlt.
  - intros p x Hp Hlt. unfold zero_below. by rewrite list_lookup_fmap, Hp; simpl; rewrite Hlt.
Qed.

(** C3 (amended).  For every point group other than "d2h" and "c1" both
    initialisers raise; the test is their last statement, so on an instance
    not initialised before, with otherwise valid input that the library
    accepts, the rejection (an [AssertionError]) comes after the Hamiltonian
    object has been constructed and stored on the instance.  For "d2h" and
    "c1" the test raises nothing. *)
Theorem point_group_checked_last pg :
  (supported_pg pg = true ↔ pg = "d2h"%string ∨ pg = "c1"%string) ∧
  (∀ n twos isym os e h1e g2e tol filename w,
     supported_pg pg = false →
     is_ok (init_hamiltonian SpinLabel pg n twos isym os e h1e g2e tol w).2 = false ∧
     is_ok (init_hamiltonian_fcidump pg filename w).2 = false) ∧
  (∀ n twos isym os e h g tol w mh,
     pack_h1e n h tol = Ok mh → fcidump (self w) = None →
     lib_rejects (FCIDUMP_initialize_su2 n (n * 2) twos isym e
                    (zero_below tol mh) (zero_below tol g)) = None →
     lib_rejects (VectorUInt8_new os) = None →
     lib_rejects (SpinLabel_new (n * 2) twos isym) = None →
     lib_rejects (HamiltonianQC_new vacuum_label
                    (Label (n * 2) twos (swap_d2h isym)) n (map swap_d2h os)
                    (su2_store n twos isym e mh g tol)) = None →
     let r := init_hamiltonian SpinLabel pg n twos isym os e
                (H1e_array h) (G2e_array g) tol w in
     r.2 = (if supported_pg pg then Ok () else Raise AssertionError) ∧
     is_none (hamil (self r.1)) = false ∧
     last (emitted w r.1) = Some (Hamiltonian_set_seq_mode Simple)) ∧
  (∀ filename hd w,
     fcidump_read filename = Some hd → fcidump (self w) = None →
     let r := init_hamiltonian_fcidump pg filename w in
     r.2 = (if supported_pg pg then Ok () else Raise AssertionError) ∧
     is_none (hamil (self r.1)) = false ∧
     last (emitted w r.1) = Some (Hamiltonian_set_seq_mode Simple)).
Proof.
  split; [apply supported_pg_spec|]. split; [|split].
  - intros n twos isym os e h1e g2e tol filename w Hpg. split.
    + by apply init_hamiltonian_unsupported.
    + by apply init_hamiltonian_fcidump_unsupported.
  - intros n twos isym os e h g tol w mh Hp Hfd Hinit Hvec Hlab Hham. simpl.
    rewrite (init_hamiltonian_array_run _ _ _ _ _ _ _ _ _ _ _ mh) by done.
    simpl. erewrite emitted_app by done. done.
  - intros filename hd w Hread Hfd. simpl.
    rewrite (init_hamiltonian_fcidump_run _ _ hd) by done. simpl.
    erewrite emitted_app by done. done.
Qed.

(** C4 (amended).  [init_hamiltonian] takes no electron count from its
    caller: it sets [n_elec = n_sites * 2], and whenever it returns normally
    the Hamiltonian it has built has the target quantum number
    [(n_sites * 2, twos, swap_d2h(isym))] and the vacuum (0,0,0). *)
Theorem init_hamiltonian_target pg n twos isym os e h1e g2e tol w :
  (init_hamiltonian SpinLabel pg n twos isym os e h1e g2e tol w).2 = Ok () →
  ∃ hm,
    hamil (self (init_hamiltonian SpinLabel pg n twos isym os e h1e g2e tol w).1)
    = Some hm ∧
    h_target hm = Label (n * 2) twos (swap_d2h isym) ∧
    h_vaccum hm = vacuum_label.
Proof.
  destruct w as [[fd hm v os' np ns bdim at_] m r d c amb inf mpf].
  unfold init_hamiltonian. run_cases; intros Hok; first [discriminate Hok | eauto].
Qed.

End InitClaims.

(** ** Construction, teardown and what lies between them *)

Section Lifecycle.
Context {lib : Block2}.
Variable SpinLabel : spin_kind.

Lemma quiet_run_ops os w : quiet w (run_ops SpinLabel os w).1.
Proof.
  revert w. induction os as [|o os IH]; intros w; simpl; [apply quiet_refl|].
  pose proof (quiet_run_op SpinLabel o w) as Ho.
  destruct (run_op SpinLabel o w) as [w' r]. simpl in Ho.
  specialize (IH w'). destruct (run_ops SpinLabel os w') as [w'' t]. simpl in *.
  eapply quiet_trans; eauto.
Qed.

Lemma quiet_emitted w w' :
  quiet w w' → memory w' = memory w ∧ rand_state w' = rand_state w ∧
               Forall (λ c, global_call c = false) (emitted w w') ∧
               attrs_set (self w') = attrs_set (self w).
Proof.
  intros (Hm & Hr & (l & Hl & Hn) & _ & Ha). by rewrite (emitted_app w w' l).
Qed.

Lemma not_global_in (l : list call) (c : call) :
  Forall (λ c, global_call c = false) l → global_call c = true → c ∉ l.
Proof.
  intros Hl Hc Hin. rewrite Forall_forall in Hl. specialize (Hl c Hin). congruence.
Qed.

Lemma construction_run scratch m threads v (w : World) isize dsize :
  py_int (m * f_0_1) = Ok isize → py_int (m * f_0_9) = Ok dsize →
  lib_rejects (init_memory isize dsize scratch) = None →
  lib_rejects (set_mkl_num_threads threads) = None →
  __init__ true scratch m threads v w =
  (MkWorld (Instance None None v None None None None true)
     (Some (isize, dsize, scratch)) (rand_seeded 0 (ambient w)) (disk w)
     (calls w ++ [Random_rand_seed 0; init_memory isize dsize scratch;
                  set_mkl_num_threads threads])
     (ambient w) (info_files w) (mps_files w), Ok ()).
Proof.
  intros Hi Hd Hmem Hthr. destruct w as [s mm rs d c amb inf mpf].
  unfold __init__. exec. rewrite Hi. exec. rewrite Hd. exec. rewrite Hmem. exec.
  rewrite Hthr. exec. by rewrite <- !app_assoc.
Qed.

(** Teardown of an instance whose attributes exist: it returns, and its last
    call releases the pool. *)
Lemma teardown_run (w : World) :
  attrs_set (self w) = true →
  (__del__ w).2 = Ok () ∧ memory (__del__ w).1 = None ∧
  last (emitted w (__del__ w).1) = Some release_memory.
Proof.
  destruct w as [[fd hm v os np ns bdim at_] mm rs d c amb inf mpf].
  cbn [self attrs_set]. intros ->. unfold __del__.
  destruct hm, fd; exec; (split; [done|]); (split; [done|]);
    erewrite emitted_app by (cbn [calls]; rewrite <- ?app_assoc; reflexivity); done.
Qed.

(** C7.  Construction with a memory budget [m] that [int()] can convert and
    whose sizes the library accepts allocates the pool once, with index size
    [int(m * 0.1)] and data size [int(m * 0.9)]; no sequence of the other
    methods releases it or changes it; [__del__] on the instance, in whatever
    state the methods have left it, releases it, as its last call. *)
Theorem memory_pool_lifecycle scratch m threads v (w : World) isize dsize :
  py_int (m * f_0_1) = Ok isize → py_int (m * f_0_9) = Ok dsize →
  lib_rejects (init_memory isize dsize scratch) = None →
  lib_rejects (set_mkl_num_threads threads) = None →
  let w1 := (__init__ true scratch m threads v w).1 in
  (__init__ true scratch m threads v w).2 = Ok () ∧
  memory w1 = Some (isize, dsize, scratch) ∧
  emitted w w1 = [Random_rand_seed 0; init_memory isize dsize scratch;
                  set_mkl_num_threads threads] ∧
  (∀ os, let w2 := (run_ops SpinLabel os w1).1 in
         memory w2 = Some (isize, dsize, scratch) ∧
         (release_memory ∉ emitted w1 w2) ∧
         (∀ i d s, init_memory i d s ∉ emitted w1 w2) ∧
         (__del__ w2).2 = Ok () ∧
         memory (__del__ w2).1 = None ∧
         last (emitted w2 (__del__ w2).1) = Some release_memory).
Proof.
  intros Hi Hd Hmem Hthr.
  rewrite (construction_run _ _ _ _ _ _ _ Hi Hd Hmem Hthr). cbn [fst snd].
  split; [done|]. split; [done|]. split; [by erewrite emitted_app|].
  intros os. cbv zeta.
  match goal with |- context [run_ops _ _ ?w1] =>
    destruct (quiet_emitted _ _ (quiet_run_ops os w1)) as (Hm & _ & Hn & Ha) end.
  split; [by rewrite Hm|]. split; [by eapply not_global_in|].
  split; [intros i d s; by eapply not_global_in|].
  by apply teardown_run.
Qed.

(** C10 (amended).  Construction calls [Random.rand_seed] first, always with
    the constant 0: whatever the process was before, the calls made and the
    outcome are the same, and no later method calls the generator or changes
    its state.  The state the generator is left in is what the library makes
    of the seed 0 and of the state of the machine; it is the same for two
    constructions when, for the seed 0, the library does not read the
    machine.  A construction returns normally only with [su2] true. *)
Theorem construction_seeds_generator scratch m threads v (w1 w2 : World) :
  let r1 := __init__ true scratch m threads v w1 in
  let r2 := __init__ true scratch m threads v w2 in
  head (emitted w1 r1.1) = Some (Random_rand_seed 0) ∧
  r1.2 = r2.2 ∧ emitted w1 r1.1 = emitted w2 r2.1 ∧
  rand_state r1.1 = rand_seeded 0 (ambient w1) ∧
  rand_state r2.1 = rand_seeded 0 (ambient w2) ∧
  ((∀ a b, rand_seeded 0 a = rand_seeded 0 b) → rand_state r2.1 = rand_state r1.1) ∧
  (∀ os, rand_state (run_ops SpinLabel os r1.1).1 = rand_state r1.1 ∧
         ∀ s, Random_rand_seed s ∉ emitted r1.1 (run_ops SpinLabel os r1.1).1) ∧
  (∀ su2 (w : World), (__init__ su2 scratch m threads v w).2 = Ok () → su2 = true).
Proof.
  assert (∀ w : World,
    rand_state (__init__ true scratch m threads v w).1 = rand_seeded 0 (ambient w) ∧
    ∃ l r, emitted w (__init__ true scratch m threads v w).1 = Random_rand_seed 0 :: l ∧
           (__init__ true scratch m threads v w).2 = r ∧
           (l, r) =
           match py_int (m * f_0_1), py_int (m * f_0_9) with
           | Ok i, Ok d =>
               match lib_rejects (init_memory i d scratch) with
               | Some e => ([init_memory i d scratch], Raise e)
               | None =>
                   ([init_memory i d scratch; set_mkl_num_threads threads],
                    match lib_rejects (set_mkl_num_threads threads) with
                    | Some e => Raise e
                    | None => Ok ()
                    end)
               end
           | Ok _, Raise e => ([], Raise e)
           | Raise e, _ => ([], Raise e)
           end) as Hrun.
  { intros [s mm rs d c amb inf mpf]. unfold __init__. exec.
    destruct (py_int (m * f_0_1)) as [i|ex]; exec;
      [|(split; [done|]); eexists _, _; (split; [log_eq | done])].
    destruct (py_int (m * f_0_9)) as [dd|ex]; exec;
      [|(split; [done|]); eexists _, _; (split; [log_eq | done])].
    destruct (lib_rejects (init_memory i dd scratch)); exec;
      [(split; [done|]); eexists _, _; (split; [log_eq | done])|].
    destruct (lib_rejects (set_mkl_num_threads threads)); exec;
      ((split; [done|]); eexists _, _; (split; [log_eq | done])). }
  cbv zeta.
  destruct (Hrun w1) as (Hs1 & l1 & r1 & He1 & Hr1 & Hlr1).
  destruct (Hrun w2) as (Hs2 & l2 & r2 & He2 & Hr2 & Hlr2).
  assert ((l1, r1) = (l2, r2)) as [= <- <-] by congruence.
  split; [by rewrite He1|]. split; [congruence|]. split; [congruence|].
  split; [done|]. split; [done|]. split; [intros Hsame; rewrite Hs1, Hs2; apply Hsame|]. split.
  - intros os.
    match goal with |- context [run_ops _ _ ?w] =>
      destruct (quiet_emitted _ _ (quiet_run_ops os w)) as (_ & Hr & Hn & _) end.
    split; [done|]. intros s. by eapply not_global_in.
  - intros [] w; [done|]. discriminate.
Qed.

Lemma failed_inits_count os (w : World) :
  is_none (fcidump (self w)) = false →
  filter (λ p : op * bool, is_init_op p.1 && p.2) (run_ops SpinLabel os w).2 = [].
Proof.
  revert w. induction os as [|o os IH]; intros w Hfd; simpl; [done|].
  pose proof (quiet_run_op SpinLabel o w) as (_ & _ & _ & Hkeep & _).
  assert (is_init_op o = true → (run_op SpinLabel o w).2 = Raise AssertionError) as Hfail.
  { destruct o; simpl; try discriminate; intros _.
    - by rewrite init_hamiltonian_fcidump_again.
    - by rewrite init_hamiltonian_again. }
  destruct (run_op SpinLabel o w) as [w' r]. simpl in *.
  specialize (IH w' (Hkeep Hfd)). destruct (run_ops SpinLabel os w') as [w'' t].
  simpl in *. rewrite filter_cons. simpl.
  destruct (is_init_op o); simpl; [|done]. by rewrite Hfail.
Qed.

(** C9.  On one instance a Hamiltonian initialisation succeeds at most once:
    when the instance already holds a store, either initialiser raises at its
    first assertion and leaves the whole process as it was; every
    initialisation leaves a store on the instance; and in any sequence of
    method calls at most one initialisation returns normally. *)
Theorem init_hamiltonian_at_most_once os (w : World) :
  (∀ pg n twos isym os' e h1e g2e tol filename,
     is_none (fcidump (self w)) = false →
     init_hamiltonian SpinLabel pg n twos isym os' e h1e g2e tol w
     = (w, Raise AssertionError) ∧
     init_hamiltonian_fcidump pg filename w = (w, Raise AssertionError)) ∧
  (∀ o, is_init_op o = true →
        is_none (fcidump (self (run_op SpinLabel o w).1)) = false) ∧
  (length (filter (λ p : op * bool, is_init_op p.1 && p.2)
             (run_ops SpinLabel os w).2) ≤ 1)%nat.
Proof.
  split; [|split].
  - intros. split; [by apply init_hamiltonian_again
                   | by apply init_hamiltonian_fcidump_again].
  - intros [] Hi; try discriminate; simpl.
    + apply init_hamiltonian_fcidump_sets_fcidump.
    + apply init_hamiltonian_sets_fcidump.
  - revert w. induction os as [|o os IH]; intros w; simpl; [lia|].
    pose proof (failed_inits_count os (run_op SpinLabel o w).1) as Hnone.
    assert (is_init_op o = true →
            is_none (fcidump (self (run_op SpinLabel o w).1)) = false) as Hset.
    { destruct o; try discriminate; intros _; simpl.
      - apply init_hamiltonian_fcidump_sets_fcidump.
      - apply init_hamiltonian_sets_fcidump. }
    specialize (IH (run_op SpinLabel o w).1).
    destruct (run_op SpinLabel o w) as [w' r]. simpl in *.
    destruct (run_ops SpinLabel os w') as [w'' t]. simpl in *.
    rewrite filter_cons. simpl.
    destruct (is_init_op o); simpl; [|done].
    rewrite (Hnone (Hset eq_refl)). destruct (is_ok r); simpl; lia.
Qed.

End Lifecycle.

(** ** Evolution and extraction *)

Section Evolution.
Context {lib : Block2}.
Variable SpinLabel : spin_kind.

Lemma py_last_spec (l : list Z) : l ≠ [] → ∃ bd, py_last l = Ok bd ∧ last l = Some bd.
Proof.
  intros Hne. unfold py_last, np_get, np_index.
  assert (0 < length l)%nat as Hlen by (destruct l; [done | simpl; lia]).
  destruct (Z.leb_spec 0 (-1)); [lia|]. simpl.
  destruct (Z.leb_spec (- Z.of_nat (length l)) (-1)); [|lia]. simpl.
  rewrite last_lookup.
  replace (Z.to_nat (-1 + Z.of_nat (length l))) with (pred (length l)) by lia.
  destruct (lookup_lt_is_Some_2 l (pred (length l))) as [bd Hbd]; [lia|].
  exists bd. by rewrite Hbd.
Qed.

(** The tag under which a call looks for its state. *)
Definition start_tag (cont : bool) : string := if cont then "FINAL" else "INIT".

(** The calls of a completed evolution, in order. *)
Definition evolution_calls (n_steps : Z) (beta_step mu : float) (bond_dims : list Z)
    (method : TETypes) (n_sub_sweeps : Z) (cont : bool) (v n : Z)
    (h' : HamiltonianQC) (forward : bool) : list call :=
  [Hamiltonian_set_mu mu; AncillaMPSInfo_new n h';
   MPSInfo_load_mutable (start_tag cont); MPS_of_info (start_tag cont);
   MPS_load_data (start_tag cont); MPS_load_mutable (start_tag cont)]
  ++ (if cont then []
      else [MPSInfo_save_mutable "FINAL"; MPS_save_mutable "FINAL"])
  ++ [MPS_deallocate; MPSInfo_deallocate_mutable; MPOQC_new h' Conventional;
      AncillaMPO_new false; SimplifiedMPO_new true;
      MovingEnvironment_new "FINAL" "TE";
      init_environments (3 <=? v);
      VectorUInt16_new bond_dims;
      ImaginaryTE_new bond_dims method n_sub_sweeps;
      ImaginaryTE_set_iprint v;
      ImaginaryTE_solve n_steps beta_step forward;
      MPS_save_data "FINAL"; MPO_deallocate; MPSInfo_deallocate].

(** A completed evolution: the state is there under the starting tag, the
    list of bond dimensions is not empty and the library accepts it and the
    two counts. *)
Lemma imaginary_time_evolution_run n_steps beta_step mu bond_dims method n_sub_sweeps
    (cont : bool) (w : World) h n st bd :
  hamil (self w) = Some h → n_physical_sites (self w) = Some n →
  py_last bond_dims = Ok bd →
  start_tag cont ∈ info_files w → disk w !! start_tag cont = Some st →
  start_tag cont ∈ mps_files w →
  lib_rejects (VectorUInt16_new bond_dims) = None →
  lib_rejects (ImaginaryTE_new bond_dims method n_sub_sweeps) = None →
  lib_rejects (ImaginaryTE_solve n_steps beta_step (mps_center st =? 0)) = None →
  imaginary_time_evolution n_steps beta_step mu bond_dims method n_sub_sweeps cont w =
  (MkWorld (with_bond_dim bd (with_hamil (Some (set_mu mu h)) (self w)))
     (memory w) (rand_state w)
     (<["FINAL"%string :=
          te_solve (set_mu mu h) bond_dims method n_sub_sweeps n_steps beta_step
            (mps_center st =? 0) st]> (disk w))
     (calls w ++ evolution_calls n_steps beta_step mu bond_dims method n_sub_sweeps
                   cont (verbose (self w)) n (set_mu mu h) (mps_center st =? 0))
     (ambient w)
     (if cont then info_files w else {["FINAL"%string]} ∪ info_files w)
     (if cont then mps_files w else {["FINAL"%string]} ∪ mps_files w), Ok ()).
Proof.
  intros Hh Hn Hlast Hinf Hst Hmpf Hvec Hnew Hsolve.
  destruct w as [[fd hm v os np ns bdim at_] m rs d c amb inf mpf].
  cbn [self hamil n_physical_sites info_files disk mps_files] in Hh, Hn, Hinf, Hst, Hmpf.
  subst hm np.
  unfold imaginary_time_evolution, evolution_calls, start_tag in *.
  set (tF := "FINAL"%string) in *. set (tI := "INIT"%string) in *.
  clearbody tF tI.
  destruct cont; exec;
    rewrite (bool_decide_true _ Hinf); exec; rewrite Hst; exec;
    rewrite (bool_decide_true _ Hmpf); exec; rewrite Hvec; exec;
    rewrite Hnew; exec; rewrite Hsolve; exec; rewrite Hlast; exec;
    cbn [app]; by rewrite <- !app_assoc.
Qed.

(** C5 (amended).  [imaginary_time_evolution] with [cont=True] loads the
    state stored under "FINAL" and saves nothing before the solver runs;
    with [cont=False] it loads the state stored under "INIT" and switches the
    tag to "FINAL", saving the mutable parts under it, before the solver
    runs and not once it has completed.  In both cases, when the list of
    bond dimensions is not empty and the library accepts it and the two
    counts, the call returns normally and the evolved state is what is stored
    as data under "FINAL". *)
Theorem evolution_tags n_steps beta_step mu bond_dims method n_sub_sweeps (cont : bool)
    (w : World) h n st :
  hamil (self w) = Some h → n_physical_sites (self w) = Some n →
  bond_dims ≠ [] →
  start_tag cont ∈ info_files w → disk w !! start_tag cont = Some st →
  start_tag cont ∈ mps_files w →
  lib_rejects (VectorUInt16_new bond_dims) = None →
  lib_rejects (ImaginaryTE_new bond_dims method n_sub_sweeps) = None →
  lib_rejects (ImaginaryTE_solve n_steps beta_step (mps_center st =? 0)) = None →
  let r := imaginary_time_evolution n_steps beta_step mu bond_dims method
             n_sub_sweeps cont w in
  let h' := set_mu mu h in
  let forward := mps_center st =? 0 in
  let tag := (if cont then "FINAL" else "INIT")%string in
  r.2 = Ok () ∧
  emitted w r.1 =
    [Hamiltonian_set_mu mu; AncillaMPSInfo_new n h'; MPSInfo_load_mutable tag;
     MPS_of_info tag; MPS_load_data tag; MPS_load_mutable tag]
    ++ (if cont then []
        else [MPSInfo_save_mutable "FINAL"; MPS_save_mutable "FINAL"])
    ++ [MPS_deallocate; MPSInfo_deallocate_mutable; MPOQC_new h' Conventional;
        AncillaMPO_new false; SimplifiedMPO_new true;
        MovingEnvironment_new "FINAL" "TE";
        init_environments (3 <=? verbose (self w));
        VectorUInt16_new bond_dims;
        ImaginaryTE_new bond_dims method n_sub_sweeps;
        ImaginaryTE_set_iprint (verbose (self w));
        ImaginaryTE_solve n_steps beta_step forward;
        MPS_save_data "FINAL"; MPO_deallocate; MPSInfo_deallocate] ∧
  disk r.1 = <["FINAL"%string :=
                 te_solve h' bond_dims method n_sub_sweeps n_steps beta_step
                   forward st]> (disk w) ∧
  info_files r.1 = (if cont then info_files w else {["FINAL"%string]} ∪ info_files w) ∧
  mps_files r.1 = (if cont then mps_files w else {["FINAL"%string]} ∪ mps_files w).
Proof.
  intros Hh Hn Hbd Hinf Hst Hmpf Hvec Hnew Hsolve.
  destruct (py_last_spec bond_dims Hbd) as (bd & Hlast & _).
  rewrite (imaginary_time_evolution_run n_steps beta_step mu bond_dims method
             n_sub_sweeps cont w h n st bd) by done.
  cbv zeta. cbn [fst snd disk info_files mps_files].
  split; [done|]. split; [|done].
  erewrite emitted_app by reflexivity. reflexivity.
Qed.

(** C8.  [get_one_pdm] first sets the chemical potential of the Hamiltonian
    to 0.0; the 1-RDM operator is built from the Hamiltonian with that value
    and contracted with the state stored under "FINAL", and the matrices
    returned are computed from these alone.  So, the stored state being the
    same, the whole outcome is the same whatever chemical potential an
    earlier evolution left on the Hamiltonian. *)
Theorem one_pdm_resets_mu ridx (w : World) h n st bd :
  hamil (self w) = Some h → n_physical_sites (self w) = Some n →
  disk w !! "FINAL"%string = Some st → bond_dim (self w) = Some bd →
  let r := get_one_pdm SpinLabel ridx w in
  let h0 := set_mu 0 h in
  let forward := mps_center st =? 0 in
  (∃ rest,
     emitted w r.1 =
       [Hamiltonian_set_mu 0; AncillaMPSInfo_new n h0; MPS_of_info "FINAL";
        MPS_load_data "FINAL"; PDM1MPOQC_new h0; AncillaMPO_new true;
        SimplifiedMPO_new false; MovingEnvironment_new "FINAL" "1PDM";
        init_environments (3 <=? verbose (self w)); Expect_new bd bd;
        Expect_set_iprint (verbose (self w)); Expect_solve true forward]
       ++ rest) ∧
  hamil (self r.1) = Some h0 ∧
  r.2 = one_pdm_result SpinLabel (expect_1pdm SpinLabel h0 st bd forward n) n ridx ∧
  (∀ mu, get_one_pdm SpinLabel ridx (with_mu mu w) = r).
Proof.
  intros Hh Hn Hst Hbd.
  destruct w as [[fd hm v os np ns bdim at_] m rs d c amb inf mpf].
  simpl in Hh, Hn, Hst, Hbd. subst hm np bdim.
  assert (∀ mu, get_one_pdm SpinLabel ridx
                  (with_mu mu (MkWorld (Instance fd (Some h) v os (Some n) ns (Some bd) at_)
                                 m rs d c amb inf mpf))
                = get_one_pdm SpinLabel ridx
                    (MkWorld (Instance fd (Some h) v os (Some n) ns (Some bd) at_)
                       m rs d c amb inf mpf))
    as Hmu.
  { intros mu. unfold get_one_pdm, with_mu. rewrite !run_bind. reflexivity. }
  cbv zeta.
  match goal with
  | |- ?A ∧ ?B ∧ ?C ∧ _ =>
      cut (A ∧ B ∧ C); [intros (HA & HB & HC); auto|]
  end.
  clear Hmu. unfold get_one_pdm, one_pdm_result.
  set (tF := "FINAL"%string) in *. clearbody tF.
  exec. rewrite Hst. exec.
  destruct SpinLabel; exec.
  - destruct (reorder_opt _ ridx); exec;
      (split; [eexists; apply emitted_app; cbn [calls app];
               rewrite <- !app_assoc; reflexivity | auto]).
  - destruct (reshape_sz _ n); exec; cbn [result_bind];
      [destruct (reorder_opt _ ridx); exec|];
      (split; [eexists; apply emitted_app; cbn [calls app];
               rewrite <- !app_assoc; reflexivity | auto]).
Qed.

End Evolution.
(** ** The reorder step *)

Section Reorder.

Lemma collect_Forall2 {B C} (f : B → result C) xs ys :
  collect f xs = Ok ys ↔ Forall2 (λ x y, f x = Ok y) xs ys.
Proof.
  revert ys. induction xs as [|x xs IH]; intros ys; simpl.
  - split; [intros [= <-]; constructor | intros H; by inversion H].
  - destruct (f x) as [y|e] eqn:Hf; simpl.
    + destruct (collect f xs) as [ys'|e] eqn:Hc; simpl.
      * split.
        -- intros [= <-]. constructor; [done | by apply IH].
        -- intros H. inversion H as [|? y' ? ys'' Hy Hrest]; subst.
           apply IH in Hrest. congruence.
      * split; [done|]. intros H. inversion H as [|? y' ? ys'' Hy Hrest]; subst.
        apply IH in Hrest. congruence.
    + split; [done|]. intros H. inversion H; congruence.
Qed.

(** Picking entries of [l] at in-range, non-negative indices. *)
Lemma pick_exists {B} (l : list B) (ridx : list Z) :
  (∀ r, r ∈ ridx → 0 ≤ r < Z.of_nat (length l)) →
  ∃ ys : list B, collect (np_get l) ridx = Ok ys ∧ length ys = length ridx ∧
        ∀ i r, ridx !! i = Some r → ys !! i = l !! Z.to_nat r.
Proof.
  induction ridx as [|r rs IH]; intros Hvalid; simpl.
  - exists []. repeat split; auto. intros i r Hi. by destruct i.
  - destruct (np_get_nonneg l r) as (x & Hx & ->); [apply Hvalid; left|]. simpl.
    destruct IH as (ys & -> & Hlen & Hlk); [intros; apply Hvalid; by right|]. simpl.
    exists (x :: ys). repeat split; [simpl; congruence|].
    intros [|i] r' Hi; simpl in *; [congruence | by apply Hlk].
Qed.

Lemma take_cols_exists {B} (x : list (list B)) (ridx : list Z) (n : nat) :
  (∀ row, row ∈ x → length row = n) →
  (∀ r, r ∈ ridx → 0 ≤ r < Z.of_nat n) →
  ∃ zs : list (list B), take_cols x ridx = Ok zs ∧ length zs = length x ∧
        ∀ i row, x !! i = Some row →
          ∃ row', zs !! i = Some row' ∧ length row' = length ridx ∧
                  ∀ j c, ridx !! j = Some c → row' !! j = row !! Z.to_nat c.
Proof.
  unfold take_cols. induction x as [|row x IH]; intros Hrows Hvalid; simpl.
  - exists []. repeat split; auto. intros i row Hi. by destruct i.
  - destruct (pick_exists row ridx) as (row' & -> & Hlen & Hlk).
    { rewrite (Hrows row) by left. done. }
    simpl. destruct IH as (zs & -> & Hzlen & Hzlk); [intros; apply Hrows; by right|done|].
    simpl. exists (row' :: zs). repeat split; [simpl; congruence|].
    intros [|i] row0 Hi; simpl in *; [|by apply Hzlk].
    injection Hi as <-. eauto.
Qed.

Lemma shape1_rows {B} (x : list (list B)) (n : nat) :
  length x = n → (∀ row, row ∈ x → length row = n) → shape1 x = n.
Proof.
  destruct x as [|row x]; simpl; [done|]. intros _ Hrows. apply Hrows. left.
Qed.

(** Assigning an array of the same shape overwrites every entry with the
    entry of the source: the result is the source. *)
Lemma assign_same_shape {B} (dm src : list (list B)) (n : nat) :
  length dm = n → (∀ row, row ∈ dm → length row = n) →
  length src = n → (∀ row, row ∈ src → length row = n) →
  assign_broadcast dm src = Ok src.
Proof.
  intros Hd Hdr Hs Hsr. unfold assign_broadcast.
  assert (shape1 src = shape1 dm) as Hsh
    by (rewrite (shape1_rows dm n), (shape1_rows src n); done).
  assert (length src = length dm) as Hll by congruence.
  cbv zeta. rewrite (bool_decide_true (length src = length dm)) by done.
  rewrite (bool_decide_true (shape1 src = shape1 dm)) by done.
  cbn [orb andb].
  apply collect_Forall2. apply Forall2_same_length_lookup_2.
  { by rewrite length_seq. }
  intros i i' row Hi Hrow. apply lookup_seq in Hi as [Hi' Hi].
  simpl in Hi'. subst i'. cbv beta.
  apply collect_Forall2. apply Forall2_same_length_lookup_2.
  { rewrite length_seq, (shape1_rows dm n) by done. symmetry. apply Hsr.
    eapply list_elem_of_lookup_2, Hrow. }
  intros j j' y Hj Hy. apply lookup_seq in Hj as [Hj' Hj].
  simpl in Hj'. subst j'. cbv beta.
  rewrite ?bool_decide_true by done.
  unfold matrix in *. rewrite Hrow. cbn [mbind option_bind]. by rewrite Hy.
Qed.

Lemma reorder_spec {B} (dm : list (list B)) (ridx : list Z) (n : nat) :
  length dm = n → (∀ row, row ∈ dm → length row = n) →
  length ridx = n → (∀ r, r ∈ ridx → 0 ≤ r < Z.of_nat n) →
  ∃ P : list (list B), reorder dm ridx = Ok P ∧ length P = n ∧
       (∀ row, row ∈ P → length row = n) ∧
       ∀ i r, ridx !! i = Some r →
         ∃ prow drow, P !! i = Some prow ∧ dm !! Z.to_nat r = Some drow ∧
                      ∀ j c, ridx !! j = Some c → prow !! j = drow !! Z.to_nat c.
Proof.
  intros Hd Hdr Hr Hvalid. unfold reorder, take_rows, matrix in *.
  destruct (pick_exists dm ridx) as (rows & -> & Hlen & Hlk); [by rewrite Hd|].
  simpl.
  assert (∀ row, row ∈ rows → length row = n) as Hrr.
  { intros row Hrow. apply list_elem_of_lookup in Hrow as [i Hi].
    destruct (lookup_lt_is_Some_2 ridx i) as [r Hri].
    { rewrite <- Hlen. by eapply lookup_lt_Some. }
    rewrite (Hlk i r Hri) in Hi. apply Hdr. eapply list_elem_of_lookup_2, Hi. }
  destruct (take_cols_exists rows ridx n Hrr Hvalid) as (zs & -> & Hzlen & Hzlk).
  simpl.
  assert (∀ row, row ∈ zs → length row = n) as Hzr.
  { intros row Hrow. apply list_elem_of_lookup in Hrow as [i Hi].
    destruct (lookup_lt_is_Some_2 rows i) as [row0 Hr0].
    { rewrite <- Hzlen. by eapply lookup_lt_Some. }
    destruct (Hzlk i row0 Hr0) as (row' & Hrow' & Hl & _). congruence. }
  rewrite (assign_same_shape dm zs n) by (done || congruence).
  exists zs. repeat split; [congruence | done |].
  intros i r Hi.
  destruct (lookup_lt_is_Some_2 rows i) as [row0 Hr0].
  { rewrite Hlen. by eapply lookup_lt_Some. }
  destruct (Hzlk i row0 Hr0) as (row' & Hrow' & _ & Hcols).
  exists row', row0. repeat split; [done | by rewrite <- (Hlk i r Hi) | done].
Qed.

Lemma index_of_spec (x : Z) (l : list Z) :
  x ∈ l → 0 ≤ index_of x l < Z.of_nat (length l) ∧
          l !! Z.to_nat (index_of x l) = Some x.
Proof.
  induction l as [|y l IH]; intros Hx; [by apply elem_of_nil in Hx|]. simpl.
  destruct (decide (y = x)) as [->|Hne].
  - rewrite bool_decide_true by done. simpl. split; [lia | done].
  - rewrite bool_decide_false by done.
    apply elem_of_cons in Hx as [->|Hx]; [done|].
    destruct (IH Hx) as [Hr Hl]. split; [lia|].
    replace (Z.to_nat (1 + index_of x l)) with (S (Z.to_nat (index_of x l))) by lia.
    done.
Qed.

Lemma argsort_perm_lookup (ridx : list Z) (i : nat) :
  (i < length ridx)%nat →
  argsort_perm ridx !! i = Some (index_of (Z.of_nat i) ridx).
Proof.
  intros Hi. unfold argsort_perm, py_range.
  rewrite !list_lookup_fmap, Nat2Z.id, lookup_seq_lt by done. done.
Qed.

Lemma length_argsort_perm (ridx : list Z) : length (argsort_perm ridx) = length ridx.
Proof. unfold argsort_perm, py_range. by rewrite !length_map, length_seq, Nat2Z.id. Qed.

Lemma length_py_range n : length (py_range n) = Z.to_nat n.
Proof. unfold py_range. by rewrite length_map, length_seq. Qed.

(** C6.  For a square array [dm] of side [n] and a permutation [ridx] of
    [0..n-1], the reorder step with [ridx] followed by the reorder step with
    the inverse permutation gives back exactly [dm]. *)
Theorem reorder_round_trip {B} (n : Z) (dm : matrix B) (ridx : list Z) :
  square n dm → ridx ≡ₚ py_range n →
  ∃ dm1, reorder dm ridx = Ok dm1 ∧ reorder dm1 (argsort_perm ridx) = Ok dm.
Proof.
  intros [Hlen Hrows] Hperm. rewrite Forall_forall in Hrows.
  unfold matrix in *.
  assert (length ridx = length dm) as Hrl.
  { rewrite Hperm, length_py_range. lia. }
  assert (∀ r, r ∈ ridx ↔ 0 ≤ r < Z.of_nat (length dm)) as Hin.
  { intros r. rewrite Hperm, elem_of_py_range. lia. }
  assert (∀ row, row ∈ dm → length row = length dm) as Hdr.
  { intros row Hrow. specialize (Hrows row Hrow). lia. }
  destruct (reorder_spec dm ridx (length dm) eq_refl Hdr Hrl) as (P & HP & HPl & HPr & HPe).
  { intros r. apply Hin. }
  exists P. split; [done|].
  assert (∀ i, (i < length dm)%nat →
            0 ≤ index_of (Z.of_nat i) ridx < Z.of_nat (length dm) ∧
            ridx !! Z.to_nat (index_of (Z.of_nat i) ridx) = Some (Z.of_nat i)) as Hidx.
  { intros i Hi. rewrite <- Hrl at 1. apply index_of_spec, Hin. lia. }
  destruct (reorder_spec P (argsort_perm ridx) (length dm) HPl HPr) as (Q & -> & HQl & HQr & HQe).
  { by rewrite length_argsort_perm. }
  { intros r Hr. apply list_elem_of_lookup in Hr as [i Hi].
    assert (i < length ridx)%nat as Hil.
    { rewrite <- length_argsort_perm. by eapply lookup_lt_Some. }
    rewrite argsort_perm_lookup in Hi by done. injection Hi as <-.
    apply Hidx. lia. }
  f_equal. apply list_eq_same_length with (length dm); [done | done |].
  intros i qrow drow Hi Hq Hd.
  pose proof (argsort_perm_lookup ridx i ltac:(lia)) as Hinv.
  destruct (HQe _ _ Hinv) as (qrow' & prow & Hq' & Hp & Hqp).
  assert (qrow' = qrow) as -> by congruence.
  destruct (Hidx i Hi) as [_ Hri].
  destruct (HPe _ _ Hri) as (prow' & drow' & Hp' & Hd' & Hpd).
  rewrite Nat2Z.id in Hd'.
  assert (prow' = prow) as -> by congruence.
  assert (drow' = drow) as -> by congruence.
  apply list_eq_same_length with (length dm);
    [apply Hdr; by eapply list_elem_of_lookup_2
    |apply HQr; by eapply list_elem_of_lookup_2|].
  intros j x y Hj Hx Hy.
  pose proof (argsort_perm_lookup ridx j ltac:(lia)) as Hinvj.
  rewrite (Hqp _ _ Hinvj) in Hx.
  destruct (Hidx j Hj) as [_ Hrj].
  rewrite (Hpd _ _ Hrj), Nat2Z.id in Hx. congruence.
Qed.

End Reorder.


(** ** Closed examples on the stand-in library *)

Lemma square_demo_h1e : square 2 demo_h1e.
Proof. split; [reflexivity | repeat constructor]. Qed.

Lemma tag_there (tag : string) (files : gset string) :
  bool_decide (tag ∈ files) = true → tag ∈ files.
Proof. apply bool_decide_eq_true_1. Qed.

Lemma init_hamiltonian_symmetry_gate_witness :
  (init_hamiltonian SU2 "c1" 2 0 1 [1; 1] 0%float (H1e_array demo_h1e_asym)
     (G2e_array demo_g2e) f_1em13 demo_constructed).2 = Raise AssertionError ∧
  (init_hamiltonian SU2 "c1" 2 0 1 [1; 1] 0%float (H1e_array demo_h1e)
     (G2e_array demo_g2e) f_1em13 demo_constructed).2 = Ok ().
Proof.
  split.
  - refine (proj1 (proj1 (init_hamiltonian_symmetry_gate SU2 "c1" 2 0 1 [1; 1]
      0%float demo_h1e_asym (G2e_array demo_g2e) demo_g2e f_1em13 demo_constructed _)
      _)).
    + split; [reflexivity | repeat constructor].
    + vm_compute. reflexivity.
  - refine (proj2 (init_hamiltonian_symmetry_gate SU2 "c1" 2 0 1 [1; 1]
      0%float demo_h1e (G2e_array demo_g2e) demo_g2e f_1em13 demo_constructed _)
      _ _ _ _ _ _).
    + split; [reflexivity | repeat constructor].
    + vm_compute. reflexivity.
    + vm_compute. reflexivity.
    + vm_compute. reflexivity.
    + intros mh _. split; reflexivity.
    + reflexivity.
    + reflexivity.
Defined.

(** The claim's second half fails on a symmetric matrix when the point group
    is unsupported, on a symmetric matrix with a spin the library refuses,
    and on a matrix holding a NaN, for which no pair reaches the tolerance
    and yet the assertion fails. *)
Lemma symmetric_input_can_fail :
  asymmetric_pair 2 demo_h1e f_1em13 = false ∧
  (init_hamiltonian SU2 "c2v" 2 0 1 [1; 1] 0%float (H1e_array demo_h1e)
     (G2e_array demo_g2e) f_1em13 demo_constructed).2 = Raise AssertionError ∧
  (init_hamiltonian SU2 "c1" 2 (-1) 1 [1; 1] 0%float (H1e_array demo_h1e)
     (G2e_array demo_g2e) f_1em13 demo_constructed).2 = Raise TypeError ∧
  asymmetric_pair 1 demo_h1e_nan f_1em13 = false ∧
  (init_hamiltonian SU2 "c1" 1 0 1 [1] 0%float (H1e_array demo_h1e_nan)
     (G2e_array demo_g2e) f_1em13 demo_constructed).2 = Raise AssertionError.
Proof. vm_compute. repeat split. Qed.

Lemma init_hamiltonian_packs_and_zeroes_witness :
  FCIDUMP_initialize_su2 2 4 0 1 0%float [1%float; 0.5%float; 2%float]
    [0.25%float; 0%float; 1%float]
  ∈ emitted demo_constructed
      (init_hamiltonian SU2 "c1" 2 0 1 [1; 1] 0%float (H1e_array demo_h1e)
         (G2e_array demo_g2e) f_1em13 demo_constructed).1.
Proof.
  refine (proj1 (init_hamiltonian_packs_and_zeroes SU2 "c1" 2 0 1 [1; 1] 0%float
    demo_h1e demo_g2e f_1em13 demo_constructed 2 4 0 1 0%float
    [1%float; 0.5%float; 2%float] [0.25%float; 0%float; 1%float] _ _ _)).
  - split; [reflexivity | repeat constructor].
  - vm_compute. reflexivity.
  - vm_compute. reflexivity.
Defined.

(** With the unsupported point group "c2v" the call raises, and by then the
    Hamiltonian has been constructed and stored. *)
Lemma unsupported_pg_rejected_late :
  (init_hamiltonian SU2 "c2v" 2 0 1 [1; 1] 0%float (H1e_array demo_h1e)
     (G2e_array demo_g2e) f_1em13 demo_constructed).2 = Raise AssertionError ∧
  is_none (hamil (self (init_hamiltonian SU2 "c2v" 2 0 1 [1; 1] 0%float
     (H1e_array demo_h1e) (G2e_array demo_g2e) f_1em13 demo_constructed).1)) = false ∧
  last (calls (init_hamiltonian SU2 "c2v" 2 0 1 [1; 1] 0%float
     (H1e_array demo_h1e) (G2e_array demo_g2e) f_1em13 demo_constructed).1)
  = Some (Hamiltonian_set_seq_mode Simple) ∧
  (init_hamiltonian_fcidump "c2v" "FCIDUMP" demo_constructed).2 = Raise AssertionError ∧
  is_none (hamil (self (init_hamiltonian_fcidump "c2v" "FCIDUMP" demo_constructed).1))
  = false.
Proof. vm_compute. repeat split. Qed.

Lemma init_hamiltonian_target_witness :
  ∃ hm, hamil (self demo_initialised) = Some hm ∧
        h_target hm = Label 4 0 0 ∧ h_vaccum hm = vacuum_label.
Proof.
  refine (init_hamiltonian_target SU2 "c1" 2 0 1 [1; 1] 0%float (H1e_array demo_h1e)
            (G2e_array demo_g2e) f_1em13 demo_constructed _).
  vm_compute. reflexivity.
Defined.

(** Two sites, irrep 1: the target holds 4 electrons, twice the number of
    sites, and the irrep as [swap_d2h] renumbers it. *)
Lemma target_from_n_sites :
  h_target <$> hamil (self demo_initialised) = Some (Label 4 0 0) ∧
  h_n_sites <$> hamil (self demo_initialised) = Some 2.
Proof. vm_compute. repeat split. Qed.

Lemma evolution_tags_witness :
  (imaginary_time_evolution 10 0.0625%float 0.5%float [250; 500] RK4 4 false
     demo_prepared).2 = Ok () ∧
  disk demo_evolved !! "FINAL"%string = Some (2, 10) ∧
  (imaginary_time_evolution 3 0.0625%float 0.5%float [500] RK4 4 true
     demo_evolved).2 = Ok ().
Proof.
  assert (hamil (self demo_prepared) = Some demo_hamil) as Hh by (vm_compute; reflexivity).
  assert (n_physical_sites (self demo_prepared) = Some 2) as Hn by (vm_compute; reflexivity).
  assert (start_tag false ∈ info_files demo_prepared) as Hi
    by (apply tag_there; vm_compute; reflexivity).
  assert (disk demo_prepared !! start_tag false = Some (2, 0)) as Hd
    by (vm_compute; reflexivity).
  assert (start_tag false ∈ mps_files demo_prepared) as Hm
    by (apply tag_there; vm_compute; reflexivity).
  assert (hamil (self demo_evolved) = Some (set_mu 0.5 demo_hamil)) as Hh'
    by (vm_compute; reflexivity).
  assert (n_physical_sites (self demo_evolved) = Some 2) as Hn'
    by (vm_compute; reflexivity).
  assert (start_tag true ∈ info_files demo_evolved) as Hi'
    by (apply tag_there; vm_compute; reflexivity).
  assert (disk demo_evolved !! start_tag true = Some (2, 10)) as Hd'
    by (vm_compute; reflexivity).
  assert (start_tag true ∈ mps_files demo_evolved) as Hm'
    by (apply tag_there; vm_compute; reflexivity).
  pose proof (evolution_tags 10 0.0625%float 0.5%float [250; 500] RK4 4 false
                demo_prepared _ 2 (2, 0) Hh Hn ltac:(discriminate) Hi Hd Hm
                eq_refl eq_refl eq_refl)
    as (H1 & _ & H3 & _).
  pose proof (evolution_tags 3 0.0625%float 0.5%float [500] RK4 4 true
                demo_evolved _ 2 (2, 10) Hh' Hn' ltac:(discriminate) Hi' Hd' Hm'
                eq_refl eq_refl eq_refl)
    as (H4 & _).
  split; [exact H1|]. split; [exact Hd'|exact H4].
Defined.

(** With [cont=False] the state is under "FINAL" before the evolution has
    taken place: in a run that completes, the two [save_mutable] calls under
    "FINAL" come before the solver is built and run; in a run whose solver
    the library refuses (a step count that is no 32-bit integer), the call
    raises and the mutable parts are under "FINAL" all the same, though no
    evolution was carried out. *)
Lemma retagged_before_evolution :
  emitted demo_prepared demo_evolved =
    [Hamiltonian_set_mu 0.5; AncillaMPSInfo_new 2 (set_mu 0.5 demo_hamil);
     MPSInfo_load_mutable "INIT"; MPS_of_info "INIT"; MPS_load_data "INIT";
     MPS_load_mutable "INIT"; MPSInfo_save_mutable "FINAL"; MPS_save_mutable "FINAL";
     MPS_deallocate; MPSInfo_deallocate_mutable;
     MPOQC_new (set_mu 0.5 demo_hamil) Conventional;
     AncillaMPO_new false; SimplifiedMPO_new true; MovingEnvironment_new "FINAL" "TE";
     init_environments false; VectorUInt16_new [250; 500];
     ImaginaryTE_new [250; 500] RK4 4; ImaginaryTE_set_iprint 0;
     ImaginaryTE_solve 10 0.0625 false; MPS_save_data "FINAL"; MPO_deallocate;
     MPSInfo_deallocate] ∧
  (imaginary_time_evolution (2 ^ 31) 0.0625%float 0.5%float [250; 500] RK4 4 false
     demo_prepared).2 = Raise TypeError ∧
  bool_decide ("FINAL"%string ∈ mps_files
     (imaginary_time_evolution (2 ^ 31) 0.0625%float 0.5%float [250; 500] RK4 4 false
        demo_prepared).1) = true ∧
  bool_decide ("FINAL"%string ∈ mps_files demo_prepared) = false ∧
  disk (imaginary_time_evolution (2 ^ 31) 0.0625%float 0.5%float [250; 500] RK4 4 false
          demo_prepared).1 !! "FINAL"%string = None.
Proof. vm_compute. repeat split. Qed.

Lemma reorder_round_trip_witness :
  ∃ dm1, reorder (demo_1pdm 3) [2; 0; 1] = Ok dm1 ∧
         reorder dm1 (argsort_perm [2; 0; 1]) = Ok (demo_1pdm 3).
Proof.
  apply (reorder_round_trip 3 (demo_1pdm 3) [2; 0; 1]).
  - split; [reflexivity | repeat constructor].
  - vm_compute. apply (Permutation_cons_app [0; 1] [] 2). reflexivity.
Defined.

Lemma memory_pool_lifecycle_witness :
  memory demo_constructed = Some (100000000, 900000000, "/tmp/ftdmrg"%string) ∧
  memory (__del__ (run_ops SU2 [Op_generate_initial_mps 500] demo_constructed).1).1
  = None.
Proof.
  pose proof (memory_pool_lifecycle SU2 "/tmp/ftdmrg" f_1e9 4 0 fresh_world
                100000000 900000000 ltac:(vm_compute; reflexivity)
                ltac:(vm_compute; reflexivity) eq_refl eq_refl) as (_ & H2 & _ & H4).
  split; [exact H2|].
  exact (proj1 (proj2 (proj2 (proj2 (proj2 (H4 [Op_generate_initial_mps 500])))))).
Defined.

(** Two constructions with the same arguments, a minute apart, on a library
    that takes the seed 0 to mean a seed read from the clock: the same calls,
    the same outcome, and two different generator states. *)
Lemma same_seed_different_states :
  emitted fresh_world (__init__ true "/tmp/ftdmrg" f_1e9 4 0 fresh_world).1
  = emitted fresh_world_later
      (__init__ true "/tmp/ftdmrg" f_1e9 4 0 fresh_world_later).1 ∧
  head (emitted fresh_world (__init__ true "/tmp/ftdmrg" f_1e9 4 0 fresh_world).1)
  = Some (Random_rand_seed 0) ∧
  rand_state (__init__ true "/tmp/ftdmrg" f_1e9 4 0 fresh_world).1 = 1700000000 ∧
  rand_state (__init__ true "/tmp/ftdmrg" f_1e9 4 0 fresh_world_later).1 = 1700000060.
Proof. vm_compute. repeat split. Qed.

Lemma one_pdm_resets_mu_witness :
  hamil (self demo_evolved) ≫= h_mu = Some 0.5%float ∧
  hamil (self (get_one_pdm SU2 (Some [1; 0]) demo_evolved).1) ≫= h_mu = Some 0%float ∧
  get_one_pdm SU2 (Some [1; 0]) (with_mu 3%float demo_evolved)
  = get_one_pdm SU2 (Some [1; 0]) demo_evolved.
Proof.
  assert (hamil (self demo_evolved) = Some (set_mu 0.5 demo_hamil)) as Hh
    by (vm_compute; reflexivity).
  assert (n_physical_sites (self demo_evolved) = Some 2) as Hn
    by (vm_compute; reflexivity).
  assert (disk demo_evolved !! "FINAL"%string = Some (2, 10)) as Hd
    by (vm_compute; reflexivity).
  assert (bond_dim (self demo_evolved) = Some 500) as Hb
    by (vm_compute; reflexivity).
  pose proof (one_pdm_resets_mu SU2 (Some [1; 0]) demo_evolved _ 2 (2, 10) 500
                Hh Hn Hd Hb) as (_ & H2 & _ & H4).
  split; [by rewrite Hh|]. split; [|exact (H4 3%float)].
  by rewrite H2.
Defined.
(** * Further properties of the code *)

(** ** More on the reorder step *)

Section ReorderMore.
Context {B : Type}.
Implicit Types (dm : list (list B)) (ridx : list Z).

(** The entry at row [i], column [j], if there is one. *)
Definition cell (dm : list (list B)) (i j : nat) : option B := dm !! i ≫= (.!! j).

Lemma square_lengths n dm :
  square n dm ↔ Z.of_nat (length dm) = n ∧ ∀ row, row ∈ dm → length row = length dm.
Proof.
  unfold square. rewrite Forall_forall. split.
  - intros [Hl Hr]. split; [done|]. intros row Hrow. specialize (Hr row Hrow). lia.
  - intros [Hl Hr]. split; [done|]. intros row Hrow. specialize (Hr row Hrow). lia.
Qed.

Lemma cell_ext dm1 dm2 (n : nat) :
  length dm1 = n → (∀ row, row ∈ dm1 → length row = n) →
  length dm2 = n → (∀ row, row ∈ dm2 → length row = n) →
  (∀ i j, (i < n)%nat → (j < n)%nat → cell dm1 i j = cell dm2 i j) → dm1 = dm2.
Proof.
  intros Hl1 Hr1 Hl2 Hr2 Hcell.
  apply list_eq_same_length with n; [done | done |].
  intros i r1 r2 Hi H1 H2.
  apply list_eq_same_length with n;
    [apply Hr2; by eapply list_elem_of_lookup_2
    |apply Hr1; by eapply list_elem_of_lookup_2|].
  intros j x y Hj Hx Hy. specialize (Hcell i j Hi Hj). unfold cell in Hcell.
  rewrite H1, H2 in Hcell. simpl in Hcell. congruence.
Qed.

(** The reorder step in terms of cells. *)
Lemma reorder_cells dm ridx (n : nat) :
  length dm = n → (∀ row, row ∈ dm → length row = n) →
  length ridx = n → (∀ r, r ∈ ridx → 0 ≤ r < Z.of_nat n) →
  ∃ P : list (list B), reorder dm ridx = Ok P ∧ length P = n ∧
       (∀ row, row ∈ P → length row = n) ∧
       ∀ i j ri rj, ridx !! i = Some ri → ridx !! j = Some rj →
         cell P i j = cell dm (Z.to_nat ri) (Z.to_nat rj).
Proof.
  intros Hd Hdr Hr Hvalid.
  destruct (reorder_spec dm ridx n Hd Hdr Hr Hvalid) as (P & HP & Hl & Hrows & He).
  exists P. repeat split; [done.. |].
  intros i j ri rj Hi Hj. destruct (He i ri Hi) as (prow & drow & Hp & Hdm & Hcols).
  unfold cell. rewrite Hp, Hdm. simpl. by apply Hcols.
Qed.

Lemma mat_get_cell dm (n : nat) i j :
  length dm = n → (∀ row, row ∈ dm → length row = n) →
  0 ≤ i < Z.of_nat n → 0 ≤ j < Z.of_nat n →
  ∃ x, cell dm (Z.to_nat i) (Z.to_nat j) = Some x ∧ mat_get dm i j = Ok x.
Proof.
  intros Hl Hr Hi Hj. unfold mat_get, cell.
  destruct (np_get_nonneg dm i) as (row & Hrow & ->); [lia|]. simpl.
  assert (length row = n) as Hlr by (apply Hr; by eapply list_elem_of_lookup_2).
  destruct (np_get_nonneg row j) as (x & Hx & ->); [lia|].
  exists x. by rewrite Hrow; simpl.
Qed.

(** X1.  The reorder step is the similarity permutation of the source: for
    an [n]x[n] array and [n] indices within [0, n) it succeeds, the result
    is again [n]x[n], and its entry at [i, j] is the entry of the original
    at [ridx[i], ridx[j]]. *)
Theorem reorder_entries (n : Z) dm ridx :
  square n dm → Z.of_nat (length ridx) = n → (∀ r, r ∈ ridx → 0 ≤ r < n) →
  ∃ dm1, reorder dm ridx = Ok dm1 ∧ square n dm1 ∧
    ∀ i j ri rj, ridx !! i = Some ri → ridx !! j = Some rj →
      mat_get dm1 (Z.of_nat i) (Z.of_nat j) = mat_get dm ri rj.
Proof.
  intros [Hl Hrows]%square_lengths Hlen Hvalid.
  destruct (reorder_cells dm ridx (length dm) eq_refl Hrows) as (P & HP & HPl & HPr & He).
  { lia. } { intros r Hr. specialize (Hvalid r Hr). lia. }
  exists P. split; [done|]. split.
  { apply square_lengths. split; [lia|]. intros row Hrow. rewrite HPl. by apply HPr. }
  intros i j ri rj Hi Hj.
  pose proof (lookup_lt_Some _ _ _ Hi) as Hil.
  pose proof (lookup_lt_Some _ _ _ Hj) as Hjl.
  pose proof (Hvalid ri ltac:(by eapply list_elem_of_lookup_2)) as Hri.
  pose proof (Hvalid rj ltac:(by eapply list_elem_of_lookup_2)) as Hrj.
  destruct (mat_get_cell P (length dm) (Z.of_nat i) (Z.of_nat j) HPl HPr)
    as (x & Hx & ->); [lia | lia |].
  destruct (mat_get_cell dm (length dm) ri rj eq_refl Hrows) as (y & Hy & ->); [lia | lia |].
  rewrite !Nat2Z.id in Hx. rewrite (He i j ri rj Hi Hj) in Hx. congruence.
Qed.

Lemma lookup_py_range n (i : nat) :
  (i < Z.to_nat n)%nat → py_range n !! i = Some (Z.of_nat i).
Proof.
  intros Hi. unfold py_range. by rewrite list_lookup_fmap, lookup_seq_lt.
Qed.

(** X2.  Reordering by the identity permutation [0, 1, ..., n-1] changes
    nothing. *)
Theorem reorder_identity (n : Z) dm :
  square n dm → reorder dm (py_range n) = Ok dm.
Proof.
  intros [Hl Hrows]%square_lengths.
  destruct (reorder_cells dm (py_range n) (length dm) eq_refl Hrows)
    as (P & -> & HPl & HPr & He).
  { rewrite length_py_range. lia. }
  { intros r Hr%elem_of_py_range. lia. }
  f_equal. apply cell_ext with (length dm); [done.. |].
  intros i j Hi Hj.
  rewrite (He i j (Z.of_nat i) (Z.of_nat j)) by (apply lookup_py_range; lia).
  by rewrite !Nat2Z.id.
Qed.

(** X3.  Two reorder steps compose: reordering by [p] and then by [q] is one
    reordering by [p[q]], the index array NumPy's fancy indexing gives. *)
Theorem reorder_compose (n : Z) dm (p q : list Z) :
  square n dm →
  Z.of_nat (length p) = n → (∀ r, r ∈ p → 0 ≤ r < n) →
  Z.of_nat (length q) = n → (∀ r, r ∈ q → 0 ≤ r < n) →
  ∃ dm1 pq, reorder dm p = Ok dm1 ∧ collect (np_get p) q = Ok pq ∧
            ∃ dm2, reorder dm1 q = Ok dm2 ∧ reorder dm pq = Ok dm2.
Proof.
  intros [Hl Hrows]%square_lengths Hpl Hp Hql Hq.
  set (m := length dm) in *.
  assert (∀ r, r ∈ p → 0 ≤ r < Z.of_nat m) as Hp' by (intros r Hr; specialize (Hp r Hr); lia).
  assert (∀ r, r ∈ q → 0 ≤ r < Z.of_nat m) as Hq' by (intros r Hr; specialize (Hq r Hr); lia).
  destruct (reorder_cells dm p m eq_refl Hrows ltac:(lia) Hp') as (P & HP & HPl & HPr & HPe).
  destruct (pick_exists p q) as (pq & Hpq & Hpql & Hpqe).
  { intros r Hr. specialize (Hq r Hr). lia. }
  assert (∀ r, r ∈ pq → 0 ≤ r < Z.of_nat m) as Hpqv.
  { intros r [i Hi]%list_elem_of_lookup.
    destruct (lookup_lt_is_Some_2 q i) as [qi Hqi].
    { rewrite <- Hpql. by eapply lookup_lt_Some. }
    rewrite (Hpqe i qi Hqi) in Hi. apply Hp'. by eapply list_elem_of_lookup_2. }
  destruct (reorder_cells P q m HPl HPr ltac:(lia) Hq') as (Q & HQ & HQl & HQr & HQe).
  destruct (reorder_cells dm pq m eq_refl Hrows ltac:(lia) Hpqv)
    as (Q' & HQ' & HQ'l & HQ'r & HQ'e).
  exists P, pq. split; [done|]. split; [done|]. exists Q. split; [done|].
  rewrite HQ'. f_equal. apply cell_ext with m; [done.. |].
  intros i j Hi Hj.
  destruct (lookup_lt_is_Some_2 q i) as [qi Hqi]; [lia|].
  destruct (lookup_lt_is_Some_2 q j) as [qj Hqj]; [lia|].
  destruct (lookup_lt_is_Some_2 p (Z.to_nat qi)) as [pi Hpi].
  { specialize (Hq' qi ltac:(by eapply list_elem_of_lookup_2)). lia. }
  destruct (lookup_lt_is_Some_2 p (Z.to_nat qj)) as [pj Hpj].
  { specialize (Hq' qj ltac:(by eapply list_elem_of_lookup_2)). lia. }
  rewrite (HQe i j qi qj Hqi Hqj), (HPe _ _ pi pj Hpi Hpj).
  rewrite (HQ'e i j pi pj); [done | |].
  - by rewrite (Hpqe i qi Hqi).
  - by rewrite (Hpqe j qj Hqj).
Qed.

Lemma collect_raise {C D} (f : C → result D) xs e :
  (∀ x e', f x = Raise e' → e' = e) → (∃ x, x ∈ xs ∧ is_ok (f x) = false) →
  collect f xs = Raise e.
Proof.
  intros Hone (x & Hx & Hbad). induction xs as [|y ys IH]; [by apply elem_of_nil in Hx|].
  simpl. destruct (f y) as [v|e'] eqn:Hy; simpl.
  - apply elem_of_cons in Hx as [->|Hx]; [by rewrite Hy in Hbad|].
    by rewrite (IH Hx).
  - by rewrite (Hone y e' Hy).
Qed.

Lemma np_get_raise {C} (a : list C) i e : np_get a i = Raise e → e = IndexError.
Proof.
  unfold np_get, np_index.
  destruct (_ && _); simpl; [destruct (a !! _); congruence|].
  destruct (_ && _); simpl; [destruct (a !! _); congruence | congruence].
Qed.

Lemma np_get_out_of_range {C} (a : list C) i :
  ¬ (- Z.of_nat (length a) ≤ i < Z.of_nat (length a)) → is_ok (np_get a i) = false.
Proof.
  intros Hi. unfold np_get, np_index.
  destruct (Z.leb_spec 0 i), (Z.ltb_spec i (Z.of_nat (length a))),
    (Z.leb_spec (- Z.of_nat (length a)) i), (Z.ltb_spec i 0); simpl; try done; lia.
Qed.

(** X4.  An index outside [-n, n) makes the reorder step raise
    [IndexError], whatever else the index array holds. *)
Theorem reorder_index_error (n : Z) dm ridx :
  square n dm → (∃ r, r ∈ ridx ∧ ¬ (- n ≤ r < n)) →
  reorder dm ridx = Raise IndexError.
Proof.
  intros [Hl _] (r & Hr & Hbad). unfold reorder, take_rows.
  rewrite (collect_raise (np_get dm) ridx IndexError); [done | |].
  - intros x e. apply np_get_raise.
  - exists r. split; [done|]. apply np_get_out_of_range. lia.
Qed.

End ReorderMore.
Section ReorderShapes.
Context {B : Type}.
Implicit Types (dm : list (list B)) (ridx : list Z).

Lemma collect_const {C D} (xs : list C) (f : C → result D) (c : D) :
  (∀ x, x ∈ xs → f x = Ok c) → collect f xs = Ok (replicate (length xs) c).
Proof.
  intros Hf. induction xs as [|x xs IH]; simpl; [done|].
  rewrite Hf by left. simpl. rewrite IH; [done|]. intros y Hy. apply Hf. by right.
Qed.

(** X5.  An index array whose length is neither [n] nor 1 makes the
    assignment [dm[:, :] = ...] of the reorder step raise [ValueError]: the
    picked block cannot be broadcast to the shape of [dm]. *)
Theorem reorder_shape_mismatch (n : Z) dm ridx :
  square n dm → (∀ r, r ∈ ridx → 0 ≤ r < n) →
  Z.of_nat (length ridx) ≠ n → length ridx ≠ 1%nat →
  reorder dm ridx = Raise ValueError.
Proof.
  intros [Hl Hrows] Hvalid Hn H1. rewrite Forall_forall in Hrows.
  unfold reorder, take_rows.
  destruct (pick_exists dm ridx) as (rows & -> & Hlen & Hlk).
  { intros r Hr. specialize (Hvalid r Hr). lia. }
  simpl.
  destruct (take_cols_exists rows ridx (Z.to_nat n)) as (zs & -> & Hzlen & _).
  { intros row [i Hi]%list_elem_of_lookup.
    destruct (lookup_lt_is_Some_2 ridx i) as [r Hri].
    { rewrite <- Hlen. by eapply lookup_lt_Some. }
    rewrite (Hlk i r Hri) in Hi.
    specialize (Hrows row ltac:(by eapply list_elem_of_lookup_2)). lia. }
  { intros r Hr. specialize (Hvalid r Hr). lia. }
  simpl. unfold assign_broadcast.
  rewrite (bool_decide_false (length zs = length dm)) by lia.
  rewrite (bool_decide_false (length zs = 1%nat)) by lia.
  reflexivity.
Qed.

(** X6.  A single index is broadcast: the reorder step with [ridx = [r]]
    overwrites every entry of the array with the diagonal entry
    [dm[r, r]]. *)
Theorem reorder_single_index_broadcasts (n r : Z) dm (x : B) :
  square n dm → 0 ≤ r < n → mat_get dm r r = Ok x →
  reorder dm [r] = Ok (replicate (Z.to_nat n) (replicate (Z.to_nat n) x)).
Proof.
  intros [Hl Hrows] Hr Hget. rewrite Forall_forall in Hrows.
  unfold reorder, take_rows, take_cols. unfold mat_get in Hget. simpl.
  destruct (np_get dm r) as [row|] eqn:Hrow; simpl in *; [|done].
  rewrite Hget. simpl. unfold assign_broadcast.
  assert (shape1 dm = Z.to_nat n) as Hsh.
  { destruct dm as [|row0 dm']; simpl in *; [lia|].
    specialize (Hrows row0 ltac:(left)). lia. }
  rewrite Hsh. cbn [length shape1].
  rewrite (bool_decide_true (1%nat = 1%nat)) by done. rewrite !orb_true_r.
  cbn [andb].
  replace (length dm) with (Z.to_nat n) by lia.
  rewrite (collect_const (seq 0 (Z.to_nat n)) _ (replicate (Z.to_nat n) x)).
  { by rewrite length_seq. }
  intros i Hi%elem_of_seq.
  rewrite (collect_const (seq 0 (Z.to_nat n)) _ x).
  { by rewrite length_seq. }
  intros j Hj%elem_of_seq.
  assert ((if bool_decide (1%nat = Z.to_nat n) then i else 0%nat) = 0%nat) as ->.
  { case_bool_decide; lia. }
  assert ((if bool_decide (1%nat = Z.to_nat n) then j else 0%nat) = 0%nat) as ->.
  { case_bool_decide; lia. }
  reflexivity.
Qed.

End ReorderShapes.

(** ** The inverse permutation *)

Lemma index_of_lookup_NoDup (l : list Z) (i : nat) (x : Z) :
  NoDup l → l !! i = Some x → index_of x l = Z.of_nat i.
Proof.
  revert i. induction l as [|y l IH]; intros i Hnd Hi; [by destruct i|].
  apply NoDup_cons in Hnd as [Hy Hnd]. simpl. destruct i as [|i]; simpl in Hi.
  - injection Hi as ->. by rewrite bool_decide_true.
  - rewrite bool_decide_false.
    + rewrite (IH i Hnd Hi). lia.
    + intros ->. apply Hy. by eapply list_elem_of_lookup_2.
Qed.

Lemma NoDup_py_range n : NoDup (py_range n).
Proof.
  unfold py_range. apply NoDup_fmap; [apply Nat2Z.inj'|apply NoDup_seq].
Qed.

(** X7.  For a permutation [ridx] of [0..n-1] the index array that inverts
    it is again a permutation of [0..n-1], and inverting twice gives [ridx]
    back. *)
Theorem argsort_perm_involutive (n : Z) (ridx : list Z) :
  ridx ≡ₚ py_range n →
  argsort_perm ridx ≡ₚ py_range n ∧ argsort_perm (argsort_perm ridx) = ridx.
Proof.
  intros Hperm.
  assert (NoDup ridx) as Hnd by (rewrite Hperm; apply NoDup_py_range).
  assert (length ridx = Z.to_nat n) as Hlen by (by rewrite Hperm, length_py_range).
  assert (∀ r, r ∈ ridx ↔ 0 ≤ r < Z.of_nat (length ridx)) as Hin.
  { intros r. rewrite Hlen, Hperm, elem_of_py_range. lia. }
  set (inv := argsort_perm ridx).
  assert (length inv = length ridx) as Hil by apply length_argsort_perm.
  assert (∀ i r, ridx !! i = Some r → inv !! Z.to_nat r = Some (Z.of_nat i)) as Hinv.
  { intros i r Hi. unfold inv.
    pose proof (proj1 (Hin r) ltac:(by eapply list_elem_of_lookup_2)) as Hr.
    rewrite argsort_perm_lookup by lia. rewrite Z2Nat.id by lia.
    by rewrite (index_of_lookup_NoDup ridx i r). }
  assert (NoDup inv) as Hndi.
  { unfold inv, argsort_perm. apply NoDup_fmap_2_strong; [|apply NoDup_py_range].
    intros a b Ha%elem_of_py_range Hb%elem_of_py_range Hab.
    destruct (index_of_spec a ridx) as [_ Hla]; [by apply Hin|].
    destruct (index_of_spec b ridx) as [_ Hlb]; [by apply Hin|].
    rewrite Hab in Hla. congruence. }
  assert (inv ≡ₚ py_range n) as Hpi.
  { apply submseteq_length_Permutation.
    - apply NoDup_submseteq; [done|].
      intros x [i Hi]%list_elem_of_lookup. apply elem_of_py_range.
      assert (i < length ridx)%nat as Hlt by (rewrite <- Hil; by eapply lookup_lt_Some).
      unfold inv in Hi. rewrite argsort_perm_lookup in Hi by done. injection Hi as <-.
      destruct (index_of_spec (Z.of_nat i) ridx) as [Hr _]; [apply Hin; lia | lia].
    - rewrite length_py_range. lia. }
  split; [done|].
  apply list_eq_same_length with (length ridx);
    [done | by rewrite length_argsort_perm |].
  intros i x r Hi Hx Hr.
  rewrite argsort_perm_lookup in Hx by lia. injection Hx as <-.
  rewrite (index_of_lookup_NoDup inv (Z.to_nat r) (Z.of_nat i) Hndi (Hinv i r Hr)).
  pose proof (proj1 (Hin r) ltac:(by eapply list_elem_of_lookup_2)). lia.
Qed.

(** ** More on the methods of the driver *)

Lemma tag_saved (t : string) (files : gset string) : t ∈ {[t]} ∪ files.
Proof. apply elem_of_union_l. by apply elem_of_singleton. Qed.

Lemma tag_other (t tag : string) (files : gset string) :
  tag ≠ t → tag ∈ {[t]} ∪ files ↔ tag ∈ files.
Proof. intros Ht. rewrite elem_of_union, elem_of_singleton. tauto. Qed.

(** The calls a step added, read off the two logs. *)
Ltac emitted_list :=
  first
    [ rewrite emitted_same
    | erewrite emitted_app by (cbn [calls]; rewrite <- ?app_assoc; reflexivity) ].

(** A call that is none of those added. *)
Ltac not_emitted :=
  emitted_list; rewrite ?elem_of_app, ?elem_of_cons, ?elem_of_nil;
  intuition discriminate.

Section Methods.
Context {lib : Block2}.
Variable SpinLabel : spin_kind.

Lemma generate_initial_mps_run bd (w : World) h n ns :
  hamil (self w) = Some h → n_physical_sites (self w) = Some n →
  n_sites (self w) = Some ns →
  generate_initial_mps bd w =
  (MkWorld (self w) (memory w) (rand_state w)
     (<["INIT"%string := thermal_mps h n ns (ns - 2) 2]> (disk w))
     (calls w ++
        [AncillaMPSInfo_new n h; MPSInfo_set_thermal_limit;
         MPSInfo_save_mutable "INIT"; MPSInfo_deallocate_mutable;
         MPS_new ns (ns - 2) 2; MPSInfo_load_mutable "INIT"; MPS_initialize "INIT";
         MPS_fill_thermal_limit; MPS_canonicalize; MPS_save_mutable "INIT";
         MPS_deallocate; MPSInfo_deallocate_mutable; MPS_save_data "INIT";
         MPSInfo_deallocate])
     (ambient w) ({["INIT"%string]} ∪ info_files w)
     ({["INIT"%string]} ∪ mps_files w), Ok ()).
Proof.
  intros Hh Hn Hns.
  destruct w as [[fd hm v os np nss bdim at_] m rs d c amb inf mpf].
  simpl in Hh, Hn, Hns. subst hm np nss. unfold generate_initial_mps.
  set (tI := "INIT"%string). clearbody tI. exec.
  rewrite (bool_decide_true (tI ∈ {[tI]} ∪ inf)) by apply tag_saved. exec.
  by rewrite <- !app_assoc.
Qed.

(** X8.  Without a Hamiltonian [generate_initial_mps] raises
    [AssertionError] at its first statement: no library call is made and
    the process is left exactly as it was. *)
Theorem generate_initial_mps_requires_hamil bd (w : World) :
  hamil (self w) = None → generate_initial_mps bd w = (w, Raise AssertionError).
Proof.
  intros Hh. destruct w as [[fd hm v os np nss bdim at_] m rs d c amb inf mpf].
  simpl in Hh. subst hm. reflexivity.
Qed.

(** X9.  On an initialised instance [generate_initial_mps] returns normally
    whatever bond dimension it is given: it creates the state with
    [MPS(n_sites, n_sites - 2, 2)], stores it under "INIT" and leaves every
    other tag, the instance and the memory pool as they were. *)
Theorem generate_initial_mps_stores_init bd (w : World) h n ns :
  hamil (self w) = Some h → n_physical_sites (self w) = Some n →
  n_sites (self w) = Some ns →
  let r := generate_initial_mps bd w in
  r.2 = Ok () ∧
  disk r.1 !! "INIT"%string = Some (thermal_mps h n ns (ns - 2) 2) ∧
  (∀ tag, tag ≠ "INIT"%string → disk r.1 !! tag = disk w !! tag) ∧
  self r.1 = self w ∧ memory r.1 = memory w ∧
  MPS_new ns (ns - 2) 2 ∈ emitted w r.1 ∧
  last (emitted w r.1) = Some MPSInfo_deallocate ∧
  "INIT"%string ∈ info_files r.1 ∧ "INIT"%string ∈ mps_files r.1 ∧
  (∀ tag, tag ≠ "INIT"%string →
     (tag ∈ info_files r.1 ↔ tag ∈ info_files w) ∧
     (tag ∈ mps_files r.1 ↔ tag ∈ mps_files w)).
Proof.
  intros Hh Hn Hns. rewrite (generate_initial_mps_run bd w h n ns) by done.
  cbn [fst snd disk self memory info_files mps_files].
  split; [done|]. split; [apply lookup_insert_eq|].
  split; [intros tag Ht; by apply lookup_insert_ne|].
  split; [done|]. split; [done|].
  erewrite emitted_app by reflexivity.
  split; [rewrite !elem_of_cons; auto 10|]. split; [reflexivity|].
  split; [apply tag_saved|]. split; [apply tag_saved|].
  intros tag Ht. split; by apply tag_other.
Qed.

(** X10.  Without a Hamiltonian [imaginary_time_evolution] raises
    [AttributeError] at [self.hamil.mu = mu]: no library call is made and
    the process is left exactly as it was. *)
Theorem imaginary_time_evolution_requires_hamil n_steps beta_step mu bond_dims method
    n_sub_sweeps cont (w : World) :
  hamil (self w) = None →
  imaginary_time_evolution n_steps beta_step mu bond_dims method n_sub_sweeps cont w
  = (w, Raise AttributeError).
Proof.
  intros Hh. destruct w as [[fd hm v os np nss bdim at_] m rs d c amb inf mpf].
  simpl in Hh. subst hm. reflexivity.
Qed.

(** X11.  With an empty list of bond dimensions [imaginary_time_evolution]
    never returns normally, since [bond_dims[-1]] cannot be evaluated, and
    it stops before [save_data]: that call is not made, and the bond
    dimension kept on the instance is what it was.  The scratch directory
    is not: with [cont=False], when the state under "INIT" is there to be
    loaded, its mutable parts are under "FINAL" afterwards. *)
Theorem imaginary_time_evolution_empty_bond_dims n_steps beta_step mu method
    n_sub_sweeps cont (w : World) :
  let r := imaginary_time_evolution n_steps beta_step mu [] method n_sub_sweeps cont w in
  is_ok r.2 = false ∧ (∀ tag, MPS_save_data tag ∉ emitted w r.1) ∧
  bond_dim (self r.1) = bond_dim (self w) ∧
  (∀ h n st, cont = false →
     hamil (self w) = Some h → n_physical_sites (self w) = Some n →
     "INIT"%string ∈ info_files w → disk w !! "INIT"%string = Some st →
     "INIT"%string ∈ mps_files w →
     "FINAL"%string ∈ info_files r.1 ∧ "FINAL"%string ∈ mps_files r.1).
Proof.
  destruct w as [[fd hm v os np ns bdim at_] m rs d c amb inf mpf].
  cbv zeta. unfold imaginary_time_evolution.
  change (py_last []) with (@Raise Z IndexError).
  set (tF := "FINAL"%string) in *. set (tI := "INIT"%string) in *.
  split; [|split; [|split]].
  - run_cases; done.
  - intros tag. run_cases; not_emitted.
  - run_cases; done.
  - intros h n st -> Hh Hn Hinf Hst Hmpf.
    cbn [self hamil n_physical_sites info_files disk mps_files] in Hh, Hn, Hinf, Hst, Hmpf.
    subst hm np. exec.
    rewrite (bool_decide_true _ Hinf). exec. rewrite Hst. exec.
    rewrite (bool_decide_true _ Hmpf). exec.
    run_cases; split; apply tag_saved.
Qed.

(** X12.  Staged evolution: a first call with [cont=False] followed by a
    call with [cont=True], each with a non-empty list of bond dimensions
    that the library accepts together with the counts, evolves the state the
    first call stored under "FINAL"; what is stored in the end is the second
    solve applied to the first, and the instance keeps the chemical
    potential and the last bond dimension of the second call. *)
Theorem staged_evolution n1 n2 beta_step mu1 mu2 bds1 bds2 method nss1 nss2
    (w : World) h n st :
  hamil (self w) = Some h → n_physical_sites (self w) = Some n →
  bds1 ≠ [] → bds2 ≠ [] →
  "INIT"%string ∈ info_files w → disk w !! "INIT"%string = Some st →
  "INIT"%string ∈ mps_files w →
  let st1 := te_solve (set_mu mu1 h) bds1 method nss1 n1 beta_step
               (mps_center st =? 0) st in
  let st2 := te_solve (set_mu mu2 h) bds2 method nss2 n2 beta_step
               (mps_center st1 =? 0) st1 in
  lib_rejects (VectorUInt16_new bds1) = None →
  lib_rejects (ImaginaryTE_new bds1 method nss1) = None →
  lib_rejects (ImaginaryTE_solve n1 beta_step (mps_center st =? 0)) = None →
  lib_rejects (VectorUInt16_new bds2) = None →
  lib_rejects (ImaginaryTE_new bds2 method nss2) = None →
  lib_rejects (ImaginaryTE_solve n2 beta_step (mps_center st1 =? 0)) = None →
  let r1 := imaginary_time_evolution n1 beta_step mu1 bds1 method nss1 false w in
  let r2 := imaginary_time_evolution n2 beta_step mu2 bds2 method nss2 true r1.1 in
  r1.2 = Ok () ∧ r2.2 = Ok () ∧
  disk r2.1 !! "FINAL"%string = Some st2 ∧
  disk r2.1 !! "INIT"%string = Some st ∧
  hamil (self r2.1) = Some (set_mu mu2 h) ∧
  bond_dim (self r2.1) = last bds2.
Proof.
  intros Hh Hn Hb1 Hb2 Hinf Hst Hmpf. cbv zeta.
  intros Hv1 Hn1 Hs1 Hv2 Hn2 Hs2.
  destruct (py_last_spec bds1 Hb1) as (bd1 & Hl1 & _).
  destruct (py_last_spec bds2 Hb2) as (bd2 & Hl2 & Hlast2).
  rewrite (imaginary_time_evolution_run n1 beta_step mu1 bds1 method nss1 false
             w h n st bd1) by done.
  cbn [fst snd].
  rewrite (imaginary_time_evolution_run n2 beta_step mu2 bds2 method nss2 true
             _ (set_mu mu1 h) n
             (te_solve (set_mu mu1 h) bds1 method nss1 n1 beta_step
                (mps_center st =? 0) st) bd2).
  - cbn [fst snd disk self]. split; [done|]. split; [done|].
    split; [apply lookup_insert_eq|].
    split; [by rewrite !lookup_insert_ne|].
    split; [done|]. by rewrite Hlast2.
  - done.
  - by destruct w as [[]].
  - done.
  - cbn [info_files start_tag]. apply tag_saved.
  - cbn [disk start_tag]. apply lookup_insert_eq.
  - cbn [mps_files start_tag]. apply tag_saved.
  - done.
  - done.
  - done.
Qed.

(** X30.  Bond dimensions that the library refuses (one that does not fit
    its integer type, say) stop [imaginary_time_evolution] at
    [VectorUInt16(bond_dims)].  With [cont=False] the mutable parts are
    under "FINAL" by then, while no data has been saved and the bond
    dimension on the instance is what it was; so a following call with
    [cont=True], when no earlier evolution left data under "FINAL", finds the
    mutable parts and fails at [load_data]. *)
Theorem refused_bond_dims n_steps beta_step mu bond_dims method n_sub_sweeps
    (w : World) h n st e :
  hamil (self w) = Some h → n_physical_sites (self w) = Some n →
  "INIT"%string ∈ info_files w → disk w !! "INIT"%string = Some st →
  "INIT"%string ∈ mps_files w → disk w !! "FINAL"%string = None →
  lib_rejects (VectorUInt16_new bond_dims) = Some e →
  let r := imaginary_time_evolution n_steps beta_step mu bond_dims method
             n_sub_sweeps false w in
  r.2 = Raise e ∧ last (emitted w r.1) = Some (VectorUInt16_new bond_dims) ∧
  "FINAL"%string ∈ info_files r.1 ∧ "FINAL"%string ∈ mps_files r.1 ∧
  disk r.1 = disk w ∧ bond_dim (self r.1) = bond_dim (self w) ∧
  ∀ n_steps' beta_step' mu' bond_dims' method' n_sub_sweeps',
    let r' := imaginary_time_evolution n_steps' beta_step' mu' bond_dims' method'
                n_sub_sweeps' true r.1 in
    r'.2 = Raise RuntimeError ∧
    last (emitted r.1 r'.1) = Some (MPS_load_data "FINAL").
Proof.
  intros Hh Hn Hinf Hst Hmpf Hfin Hrej. cbv zeta.
  destruct w as [[fd hm v os np ns bdim at_] m rs d c amb inf mpf].
  cbn [self hamil n_physical_sites info_files disk mps_files] in Hh, Hn, Hinf, Hst, Hmpf, Hfin.
  subst hm np.
  set (tF := "FINAL"%string) in *. set (tI := "INIT"%string) in *.
  match goal with
  | |- context [imaginary_time_evolution ?a ?b ?c ?d ?e ?f false ?W] =>
      eassert (imaginary_time_evolution a b c d e f false W = _) as Hrun;
        [unfold imaginary_time_evolution; fold tF tI; exec;
         rewrite (bool_decide_true _ Hinf); exec; rewrite Hst; exec;
         rewrite (bool_decide_true _ Hmpf); exec; rewrite Hrej; exec;
         reflexivity
        |rewrite Hrun; clear Hrun]
  end.
  cbn [fst snd self bond_dim disk info_files mps_files].
  split; [done|].
  split; [erewrite emitted_app by (cbn [calls]; rewrite <- ?app_assoc; reflexivity);
          reflexivity|].
  split; [apply tag_saved|]. split; [apply tag_saved|]. split; [done|]. split; [done|].
  intros n_steps' beta_step' mu' bond_dims' method' n_sub_sweeps'.
  unfold imaginary_time_evolution. fold tF tI. exec.
  rewrite (bool_decide_true (tF ∈ {[tF]} ∪ inf)) by apply tag_saved. exec.
  rewrite Hfin. exec. split; [done|].
  erewrite emitted_app by (cbn [calls]; rewrite <- ?app_assoc; reflexivity).
  reflexivity.
Qed.

Lemma get_one_pdm_run ridx (w : World) h n st bd :
  hamil (self w) = Some h → n_physical_sites (self w) = Some n →
  disk w !! "FINAL"%string = Some st → bond_dim (self w) = Some bd →
  let r := get_one_pdm SpinLabel ridx w in
  let h0 := set_mu 0 h in
  let forward := mps_center st =? 0 in
  (∃ rest,
     emitted w r.1 =
       [Hamiltonian_set_mu 0; AncillaMPSInfo_new n h0; MPS_of_info "FINAL";
        MPS_load_data "FINAL"; PDM1MPOQC_new h0; AncillaMPO_new true;
        SimplifiedMPO_new false; MovingEnvironment_new "FINAL" "1PDM";
        init_environments (3 <=? verbose (self w)); Expect_new bd bd;
        Expect_set_iprint (verbose (self w)); Expect_solve true forward]
       ++ rest) ∧
  r.2 = one_pdm_result SpinLabel (expect_1pdm SpinLabel h0 st bd forward n) n ridx.
Proof.
  intros Hh Hn Hst Hbd.
  destruct w as [[fd hm v os np ns bdim at_] m rs d c amb inf mpf].
  simpl in Hh, Hn, Hst, Hbd. subst hm np bdim.
  cbv zeta. unfold get_one_pdm, one_pdm_result.
  set (tF := "FINAL"%string) in *. clearbody tF.
  exec. rewrite Hst. exec.
  destruct SpinLabel; exec.
  - destruct (reorder_opt _ ridx); exec;
      (split; [eexists; apply emitted_app; cbn [calls app];
               rewrite <- !app_assoc; reflexivity | auto]).
  - destruct (reshape_sz _ n); exec; cbn [result_bind];
      [destruct (reorder_opt _ ridx); exec|];
      (split; [eexists; apply emitted_app; cbn [calls app];
               rewrite <- !app_assoc; reflexivity | auto]).
Qed.

(** X13.  The whole workflow of the script on an instance not initialised
    before: in-memory initialisation with a symmetric matrix and a supported
    point group, the initial state, one evolution and the extraction.  When
    the library accepts the values the caller supplies (the integrals with
    their sizes, the orbital symmetries, the target label, the Hamiltonian,
    the bond dimensions and the two counts), the first three return
    normally, and the matrices returned are
    those of the thermal state evolved once, contracted with the Hamiltonian
    at chemical potential 0 and with the last bond dimension of the
    evolution. *)
Theorem workflow_one_pdm pg n twos isym os e hm g tol bd0 n_steps beta_step mu bond_dims
    method n_sub_sweeps ridx (w : World) mh :
  square n hm → symmetric_within n hm tol = true → supported_pg pg = true →
  fcidump (self w) = None → bond_dims ≠ [] → pack_h1e n hm tol = Ok mh →
  let h := built_hamil n twos isym os (su2_store n twos isym e mh g tol) in
  let st0 := thermal_mps h n (n * 2) (n * 2 - 2) 2 in
  let st := te_solve (set_mu mu h) bond_dims method n_sub_sweeps n_steps beta_step
              (mps_center st0 =? 0) st0 in
  lib_rejects (FCIDUMP_initialize_su2 n (n * 2) twos isym e
                 (zero_below tol mh) (zero_below tol g)) = None →
  lib_rejects (VectorUInt8_new os) = None →
  lib_rejects (SpinLabel_new (n * 2) twos isym) = None →
  lib_rejects (HamiltonianQC_new vacuum_label (Label (n * 2) twos (swap_d2h isym)) n
                 (map swap_d2h os) (su2_store n twos isym e mh g tol)) = None →
  lib_rejects (VectorUInt16_new bond_dims) = None →
  lib_rejects (ImaginaryTE_new bond_dims method n_sub_sweeps) = None →
  lib_rejects (ImaginaryTE_solve n_steps beta_step (mps_center st0 =? 0)) = None →
  let r1 := init_hamiltonian SpinLabel pg n twos isym os e (H1e_array hm) (G2e_array g)
              tol w in
  let r2 := generate_initial_mps bd0 r1.1 in
  let r3 := imaginary_time_evolution n_steps beta_step mu bond_dims method n_sub_sweeps
              false r2.1 in
  let r4 := get_one_pdm SpinLabel ridx r3.1 in
  r1.2 = Ok () ∧ r2.2 = Ok () ∧ r3.2 = Ok () ∧
  ∃ bd,
    last bond_dims = Some bd ∧
    Expect_new bd bd ∈ emitted r3.1 r4.1 ∧
    r4.2 = one_pdm_result SpinLabel
             (expect_1pdm SpinLabel (set_mu 0 h) st bd (mps_center st =? 0) n) n ridx.
Proof.
  intros Hsq Hsym Hpg Hfd Hbds Hpack. cbv zeta.
  intros Hinit Hvec Hlab Hham Hv16 Hnew Hsolve.
  destruct (py_last_spec bond_dims Hbds) as (bd & Hlast & Hl).
  rewrite (init_hamiltonian_array_run _ _ _ _ _ _ _ _ _ _ _ mh) by done.
  rewrite Hpg. cbv zeta. cbn [fst snd].
  set (h := built_hamil n twos isym os (su2_store n twos isym e mh g tol)) in *.
  rewrite (generate_initial_mps_run bd0 _ h n (n * 2)) by done.
  cbn [fst snd self memory rand_state disk calls ambient info_files mps_files].
  set (st0 := thermal_mps h n (n * 2) (n * 2 - 2) 2) in *.
  rewrite (imaginary_time_evolution_run n_steps beta_step mu bond_dims method
             n_sub_sweeps false _ h n st0 bd);
    [|done|done|done|cbn [info_files start_tag]; apply tag_saved
     |cbn [disk start_tag]; apply lookup_insert_eq
     |cbn [mps_files start_tag]; apply tag_saved|done|done|done].
  cbn [fst snd].
  set (st := te_solve (set_mu mu h) bond_dims method n_sub_sweeps n_steps beta_step
               (mps_center st0 =? 0) st0).
  split; [done|]. split; [done|]. split; [done|].
  exists bd. split; [done|].
  match goal with
  | |- context [get_one_pdm SpinLabel ridx ?w3] =>
      destruct (get_one_pdm_run ridx w3 (set_mu mu h) n st bd)
        as ((rest & Hlog) & Hres);
        [done | done | cbn [disk]; apply lookup_insert_eq | done |]
  end.
  split; [|exact Hres].
  rewrite Hlog, elem_of_app, !elem_of_cons. auto 20.
Qed.

(** X14.  [get_one_pdm] needs an evolution on the same instance: as long as
    [self.bond_dim] has not been assigned it never returns normally. *)
Theorem get_one_pdm_requires_evolution ridx (w : World) :
  bond_dim (self w) = None → is_ok (get_one_pdm SpinLabel ridx w).2 = false.
Proof.
  intros Hbd. destruct w as [[fd hm v os np ns bdim at_] m rs d c amb inf mpf].
  simpl in Hbd. subst bdim. unfold get_one_pdm.
  set (tF := "FINAL"%string) in *. clearbody tF.
  destruct hm as [h|]; [|done]. destruct np as [n|]; [|done].
  exec. destruct (d !! tF); exec; done.
Qed.

(** X15.  [get_one_pdm] writes nothing to the scratch directory and leaves
    the sizes, the store object and the bond dimension of the instance
    alone; the one attribute it changes is the chemical potential on the
    Hamiltonian, which is 0 afterwards whenever a Hamiltonian exists, also
    when the call fails later. *)
Theorem get_one_pdm_effects ridx (w : World) :
  let r := get_one_pdm SpinLabel ridx w in
  disk r.1 = disk w ∧ memory r.1 = memory w ∧
  hamil (self r.1) = set_mu 0 <$> hamil (self w) ∧
  fcidump (self r.1) = fcidump (self w) ∧
  n_physical_sites (self r.1) = n_physical_sites (self w) ∧
  n_sites (self r.1) = n_sites (self w) ∧
  bond_dim (self r.1) = bond_dim (self w) ∧
  verbose (self r.1) = verbose (self w) ∧
  info_files r.1 = info_files w ∧ mps_files r.1 = mps_files w.
Proof.
  destruct w as [[fd hm v os np ns bdim at_] m rs d c amb inf mpf]. cbv zeta.
  unfold get_one_pdm. set (tF := "FINAL"%string) in *. clearbody tF.
  destruct hm as [h|]; [|by repeat split].
  destruct np as [n|]; [|by repeat split].
  exec. destruct (d !! tF) as [st|]; exec; [|by repeat split].
  destruct bdim as [bd|]; exec; [|by repeat split].
  destruct SpinLabel; exec.
  - destruct (reorder_opt _ ridx); exec; by repeat split.
  - destruct (reshape_sz _ n); exec; cbn [result_bind];
      [destruct (reorder_opt _ ridx); exec|]; by repeat split.
Qed.

End Methods.

(** X16.  In the spin-adapted build the two matrices [get_one_pdm] returns
    are one and the same, each spin channel being half the spatial 1-RDM:
    whenever the call returns, both are the 1-RDM that the library hands
    back for the stored state and the Hamiltonian at chemical potential 0,
    reordered when an index array is given, with every entry divided
    by 2. *)
Theorem get_one_pdm_su2_channels `{Block2} ridx (w : World) l :
  (get_one_pdm SU2 ridx w).2 = Ok l →
  ∃ h n st bd dm,
    hamil (self w) = Some h ∧ n_physical_sites (self w) = Some n ∧
    disk w !! "FINAL"%string = Some st ∧ bond_dim (self w) = Some bd ∧
    reorder_opt (expect_1pdm SU2 (set_mu 0 h) st bd (mps_center st =? 0) n) ridx
    = Ok dm ∧
    l = [map (map (λ x, x / 2)%float) dm; map (map (λ x, x / 2)%float) dm].
Proof.
  destruct w as [[fd hm v os np ns bdim at_] m rs d c amb inf mpf].
  unfold get_one_pdm. cbn [self hamil n_physical_sites disk bond_dim].
  set (tF := "FINAL"%string) in *. clearbody tF.
  destruct hm as [h|]; [|done]. destruct np as [n|]; [|done].
  exec. destruct (d !! tF) as [st|]; exec; [|done].
  destruct bdim as [bd|]; exec; [|done].
  destruct (reorder_opt _ ridx) as [dm|] eqn:Hdm; exec; [|done].
  intros [= <-]. by exists h, n, st, bd, dm.
Qed.
(** The sizes kept on an instance agree: [n_sites] is twice
    [n_physical_sites] (both unset before an initialisation), and a
    Hamiltonian is only there together with the store, the sizes and the
    orbital symmetries. *)
Definition consistent `{Block2} (s : FTDMRG) : Prop :=
  n_sites s = (λ n, n * 2) <$> n_physical_sites s ∧
  (is_none (hamil s) = false →
   is_none (fcidump s) = false ∧ is_none (n_physical_sites s) = false ∧
   is_none (orb_sym s) = false).

Section Invariants.
Context {lib : Block2}.
Variable SpinLabel : spin_kind.

(** The relation a method satisfies when the only tag of the scratch
    directory it may write is [t], be it the data or the mutable parts of the
    state or of its description; with [t = None] it writes nothing. *)
Definition writes_only (t : option string) (w w' : World) : Prop :=
  verbose (self w') = verbose (self w) ∧
  match t with
  | None =>
      disk w' = disk w ∧ info_files w' = info_files w ∧ mps_files w' = mps_files w
  | Some t =>
      ∀ tag, tag ≠ t →
        disk w' !! tag = disk w !! tag ∧
        (tag ∈ info_files w' ↔ tag ∈ info_files w) ∧
        (tag ∈ mps_files w' ↔ tag ∈ mps_files w)
  end.

#[local] Ltac other_tags :=
  (split; [done|]); intros tag Ht; cbn [disk info_files mps_files];
  rewrite ?lookup_insert_ne by done;
  (split; [done|]); split; first [done | by apply tag_other].

Lemma writes_only_init_hamiltonian pg n twos isym os e h g tol w :
  writes_only None w (init_hamiltonian SpinLabel pg n twos isym os e h g tol w).1.
Proof.
  destruct w as [[fd hm v os' np ns bdim at_] m rs d c amb inf mpf].
  unfold init_hamiltonian, writes_only. run_cases; by repeat split.
Qed.

Lemma writes_only_init_hamiltonian_fcidump pg filename w :
  writes_only None w (init_hamiltonian_fcidump pg filename w).1.
Proof.
  destruct w as [[fd hm v os' np ns bdim at_] m rs d c amb inf mpf].
  unfold init_hamiltonian_fcidump, writes_only. run_cases; by repeat split.
Qed.

Lemma writes_only_generate_initial_mps bd w :
  writes_only (Some "INIT"%string) w (generate_initial_mps bd w).1.
Proof.
  destruct w as [[fd hm v os' np ns bdim at_] m rs d c amb inf mpf].
  unfold generate_initial_mps, writes_only.
  set (tI := "INIT"%string). clearbody tI.
  run_cases; other_tags.
Qed.

Lemma writes_only_imaginary_time_evolution n b mu bds me nss cont w :
  writes_only (Some "FINAL"%string) w
    (imaginary_time_evolution n b mu bds me nss cont w).1.
Proof.
  destruct w as [[fd hm v os' np ns bdim at_] m rs d c amb inf mpf].
  unfold imaginary_time_evolution, writes_only.
  set (tF := "FINAL"%string). set (tI := "INIT"%string). clearbody tF tI.
  destruct cont; run_cases; other_tags.
Qed.

Lemma writes_only_get_one_pdm ridx w :
  writes_only None w (get_one_pdm SpinLabel ridx w).1.
Proof.
  destruct w as [[fd hm v os' np ns bdim at_] m rs d c amb inf mpf].
  unfold get_one_pdm, writes_only.
  set (tF := "FINAL"%string). clearbody tF.
  destruct hm as [h|]; [|by repeat split]. destruct np as [np'|]; [|by repeat split].
  exec. destruct (d !! tF) as [st|]; exec; [|by repeat split].
  destruct bdim as [bd|]; exec; [|by repeat split].
  destruct SpinLabel; exec.
  - destruct (reorder_opt _ ridx); exec; by repeat split.
  - destruct (reshape_sz _ np'); exec; cbn [result_bind];
      [destruct (reorder_opt _ ridx); exec|]; by repeat split.
Qed.

(** The tag a method may write. *)
Definition written_tag (o : op) : option string :=
  match o with
  | Op_generate_initial_mps _ => Some "INIT"%string
  | Op_imaginary_time_evolution _ _ _ _ _ _ _ => Some "FINAL"%string
  | _ => None
  end.

Lemma writes_only_run_op o w : writes_only (written_tag o) w (run_op SpinLabel o w).1.
Proof.
  destruct o; cbn [run_op written_tag].
  - apply writes_only_init_hamiltonian_fcidump.
  - apply writes_only_init_hamiltonian.
  - apply writes_only_generate_initial_mps.
  - apply writes_only_imaginary_time_evolution.
  - rewrite run_bind.
    pose proof (writes_only_get_one_pdm ridx w) as Hw.
    by destruct (get_one_pdm SpinLabel ridx w) as [w' [a|ex]].
Qed.

(** X17.  Of the scratch directory, the initialisers and [get_one_pdm]
    write nothing, [generate_initial_mps] writes only under the tag "INIT"
    and [imaginary_time_evolution] only under the tag "FINAL", whether they
    return or raise, and that for the data of a state as for the mutable
    parts; so a sequence of method calls leaves every other tag as it was.
    None of them changes [self.verbose]. *)
Theorem methods_write_only_their_tag os (w : World) :
  (∀ o, writes_only (written_tag o) w (run_op SpinLabel o w).1) ∧
  (∀ tag, tag ≠ "INIT"%string → tag ≠ "FINAL"%string →
     disk (run_ops SpinLabel os w).1 !! tag = disk w !! tag ∧
     (tag ∈ info_files (run_ops SpinLabel os w).1 ↔ tag ∈ info_files w) ∧
     (tag ∈ mps_files (run_ops SpinLabel os w).1 ↔ tag ∈ mps_files w)) ∧
  verbose (self (run_ops SpinLabel os w).1) = verbose (self w).
Proof.
  split; [intros o; apply writes_only_run_op|].
  revert w. induction os as [|o os IH]; intros w; [by split|].
  cbn [run_ops].
  pose proof (writes_only_run_op o w) as [Hv Hd].
  destruct (run_op SpinLabel o w) as [w' r]. specialize (IH w').
  destruct (run_ops SpinLabel os w') as [w'' t]. cbn [fst] in *.
  destruct IH as [IHd IHv]. split; [|congruence].
  intros tag HI HF. destruct (IHd tag HI HF) as (-> & -> & ->).
  destruct o; cbn [written_tag] in Hd;
    first [by destruct Hd as (-> & -> & ->) | by apply Hd].
Qed.

Lemma consistent_init_hamiltonian pg n twos isym os e h g tol w :
  consistent (self w) →
  consistent (self (init_hamiltonian SpinLabel pg n twos isym os e h g tol w).1).
Proof.
  destruct w as [[fd hm v os' np ns bdim at_] m rs d c amb inf mpf].
  unfold init_hamiltonian, consistent. cbn [self]. intros [Hs Hh].
  simpl in Hs, Hh.
  run_cases; simpl; (split; [done|]); intros Hn;
    first [done | destruct (Hh Hn) as (? & ? & ?); by repeat split].
Qed.

Lemma consistent_init_hamiltonian_fcidump pg filename w :
  consistent (self w) →
  consistent (self (init_hamiltonian_fcidump pg filename w).1).
Proof.
  destruct w as [[fd hm v os' np ns bdim at_] m rs d c amb inf mpf].
  unfold init_hamiltonian_fcidump, consistent. cbn [self]. intros [Hs Hh].
  simpl in Hs, Hh.
  run_cases; simpl; (split; [done|]); intros Hn;
    first [done | destruct (Hh Hn) as (? & ? & ?); by repeat split].
Qed.

Lemma consistent_generate_initial_mps bd w :
  consistent (self w) → consistent (self (generate_initial_mps bd w).1).
Proof.
  destruct w as [[fd hm v os' np ns bdim at_] m rs d c amb inf mpf].
  unfold generate_initial_mps, consistent. cbn [self].
  set (tI := "INIT"%string). clearbody tI. intros [Hs Hh].
  run_cases; by split.
Qed.

Lemma consistent_imaginary_time_evolution n b mu bds me nss cont w :
  consistent (self w) →
  consistent (self (imaginary_time_evolution n b mu bds me nss cont w).1).
Proof.
  destruct w as [[fd hm v os' np ns bdim at_] m rs d c amb inf mpf].
  unfold imaginary_time_evolution, consistent. cbn [self].
  set (tF := "FINAL"%string). set (tI := "INIT"%string). clearbody tF tI.
  intros [Hs Hh].
  destruct cont; run_cases; by split.
Qed.

Lemma consistent_get_one_pdm ridx w :
  consistent (self w) → consistent (self (get_one_pdm SpinLabel ridx w).1).
Proof.
  destruct w as [[fd hm v os' np ns bdim at_] m rs d c amb inf mpf].
  unfold get_one_pdm, consistent. cbn [self].
  set (tF := "FINAL"%string). clearbody tF. intros [Hs Hh].
  destruct hm as [h|]; [|by split]. destruct np as [np'|]; [|by split].
  exec. destruct (d !! tF) as [st|]; exec; [|by split].
  destruct bdim as [bd|]; exec; [|by split].
  destruct SpinLabel; exec.
  - destruct (reorder_opt _ ridx); exec; by split.
  - destruct (reshape_sz _ np'); exec; cbn [result_bind];
      [destruct (reorder_opt _ ridx); exec|]; by split.
Qed.

Lemma consistent_run_ops os w :
  consistent (self w) → consistent (self (run_ops SpinLabel os w).1).
Proof.
  revert w. induction os as [|o os IH]; intros w Hw; [done|].
  cbn [run_ops].
  assert (consistent (self (run_op SpinLabel o w).1)) as Ho.
  { destruct o; cbn [run_op].
    - by apply consistent_init_hamiltonian_fcidump.
    - by apply consistent_init_hamiltonian.
    - by apply consistent_generate_initial_mps.
    - by apply consistent_imaginary_time_evolution.
    - rewrite run_bind.
      pose proof (consistent_get_one_pdm ridx w Hw) as Hg.
      by destruct (get_one_pdm SpinLabel ridx w) as [w' [a|ex]]. }
  destruct (run_op SpinLabel o w) as [w' r]. specialize (IH w' Ho).
  by destruct (run_ops SpinLabel os w') as [w'' t].
Qed.

(** X18.  After a construction that returned, whatever methods are called
    and whatever their outcomes, the sizes on the instance stay consistent:
    [n_sites] is twice [n_physical_sites], and a Hamiltonian comes with
    both.  Hence [generate_initial_mps] then raises [AssertionError] when
    there is no Hamiltonian and returns normally otherwise: it cannot fail
    on a missing attribute. *)
Theorem sizes_stay_consistent scratch m threads v os (w0 : World) :
  (__init__ true scratch m threads v w0).2 = Ok () →
  let w := (run_ops SpinLabel os (__init__ true scratch m threads v w0).1).1 in
  consistent (self w) ∧
  ∀ bd, (generate_initial_mps bd w).2
        = (if is_none (hamil (self w)) then Raise AssertionError else Ok ()).
Proof.
  intros Hinit. cbv zeta.
  assert (consistent (self (__init__ true scratch m threads v w0).1)) as Hc.
  { revert Hinit. destruct w0 as [s mm rs d c amb inf mpf].
    unfold __init__. exec.
    destruct (py_int (m * f_0_1)); exec; [|discriminate].
    destruct (py_int (m * f_0_9)); exec; [|discriminate].
    destruct (lib_rejects (init_memory _ _ _)); exec; [discriminate|].
    destruct (lib_rejects (set_mkl_num_threads _)); exec; [discriminate|].
    intros _. by split. }
  apply (consistent_run_ops os) in Hc.
  split; [done|]. intros bd.
  destruct (run_ops SpinLabel os _) as [[[fd hm v' os' np ns bdim at_] mm rs d c amb inf mpf] t].
  destruct Hc as [Hs Hh]. cbn [fst self hamil n_sites n_physical_sites] in *.
  destruct hm as [h|]; [|done].
  destruct (Hh eq_refl) as (_ & Hnp & _).
  destruct np as [n|]; [|done]. destruct ns as [ns'|]; [|done].
  by rewrite (generate_initial_mps_run bd _ h n ns').
Qed.

End Invariants.

(** ** Construction and teardown, once more *)

Section Construction.
Context {lib : Block2}.
Variable SpinLabel : spin_kind.

Lemma py_int_raise x e : py_int x = Raise e → e = ValueError ∨ e = OverflowError.
Proof. unfold py_int. destruct (Prim2SF x); intros [=]; auto. Qed.

(** X19.  A memory budget that [int()] cannot convert (a NaN gives
    [ValueError], an infinity [OverflowError]) makes the construction raise
    after the generator has been seeded and before the pool is allocated:
    the only library call made is [Random.rand_seed(0)], the generator is in
    the state that call left, and no attribute of the instance has been
    assigned. *)
Theorem construction_bad_memory scratch m threads v (w : World) e :
  py_int (m * f_0_1) = Raise e →
  let r := __init__ true scratch m threads v w in
  r.2 = Raise e ∧ (e = ValueError ∨ e = OverflowError) ∧
  emitted w r.1 = [Random_rand_seed 0] ∧
  memory r.1 = memory w ∧ self r.1 = self w ∧
  rand_state r.1 = rand_seeded 0 (ambient w).
Proof.
  intros He. cbv zeta. destruct w as [s mm rs d c amb inf mpf].
  unfold __init__. exec. rewrite He. exec.
  split; [done|]. split; [by eapply py_int_raise|].
  split; [by apply emitted_app|]. done.
Qed.

(** X20.  Teardown reads [self.hamil] and [self.fcidump] first.  On an
    instance that has them it returns normally and touches neither the
    instance nor the scratch directory; it deallocates the Hamiltonian if
    there is one, then the store object if there is one, then releases the
    pool, and after any initialisation attempt, failed or not, there is a
    store object to deallocate.  On an object without the attributes, which
    is what a construction that raised leaves, it raises [AttributeError]
    and releases nothing. *)
Theorem teardown_trace (w : World) :
  let r := __del__ w in
  (attrs_set (self w) = true →
     r.2 = Ok () ∧ self r.1 = self w ∧ disk r.1 = disk w ∧
     emitted w r.1 =
       (if is_none (hamil (self w)) then [] else [Hamiltonian_deallocate])
       ++ (if is_none (fcidump (self w)) then [] else [FCIDUMP_deallocate])
       ++ [release_memory]) ∧
  (attrs_set (self w) = false → r = (w, Raise AttributeError)) ∧
  (∀ o, attrs_set (self w) = true → is_init_op o = true →
     FCIDUMP_deallocate ∈ emitted (run_op SpinLabel o w).1
                            (__del__ (run_op SpinLabel o w).1).1) ∧
  (∀ su2 scratch m threads v,
     attrs_set (self w) = false →
     let c := __init__ su2 scratch m threads v w in
     is_ok c.2 = false → __del__ c.1 = (c.1, Raise AttributeError)).
Proof.
  assert (∀ w : World, attrs_set (self w) = true →
    emitted w (__del__ w).1 =
      (if is_none (hamil (self w)) then [] else [Hamiltonian_deallocate])
      ++ (if is_none (fcidump (self w)) then [] else [FCIDUMP_deallocate])
      ++ [release_memory]) as Hlog.
  { intros [[fd hm v os np ns bdim at_] mm rs d c amb inf mpf] Hat.
    simpl in Hat. subst at_. unfold __del__.
    destruct hm, fd; exec; apply emitted_app; cbn [calls app];
      by rewrite <- ?app_assoc. }
  assert (∀ w : World, attrs_set (self w) = false →
    __del__ w = (w, Raise AttributeError)) as Hnone.
  { intros [[fd hm v os np ns bdim at_] mm rs d c amb inf mpf] Hat.
    simpl in Hat. by subst at_. }
  cbv zeta. split; [|split; [|split]].
  - intros Hat. split; [|split; [|split]]; [| | |by apply Hlog];
      destruct w as [[fd hm v os np ns bdim at_] mm rs d c amb inf mpf];
      simpl in Hat; subst at_; by destruct hm, fd.
  - apply Hnone.
  - intros o Hat Ho.
    pose proof (quiet_run_op SpinLabel o w) as (_ & _ & _ & _ & Hq).
    rewrite Hlog by congruence.
    assert (is_none (fcidump (self (run_op SpinLabel o w).1)) = false) as ->.
    { destruct o; try discriminate; cbn [run_op].
      - apply init_hamiltonian_fcidump_sets_fcidump.
      - apply init_hamiltonian_sets_fcidump. }
    rewrite !elem_of_app, !elem_of_cons. auto.
  - intros su2 scratch m threads v Hat. cbv zeta. intros Hfail.
    apply Hnone. revert Hfail.
    destruct w as [[fd hm v' os np ns bdim at_] mm rs d c amb inf mpf].
    simpl in Hat. subst at_. unfold __init__. run_cases; done.
Qed.

(** X29.  A construction that the library refuses.  When [init_memory]
    refuses the sizes, the construction raises with no pool allocated and no
    attribute assigned.  When [init_memory] accepts them and
    [set_mkl_num_threads] refuses the thread count, the construction raises
    with the pool allocated and no attribute assigned: [__del__] on that
    object raises [AttributeError] before it reaches [release_memory], and
    the pool stays allocated. *)
Theorem construction_refused scratch m threads v (w : World) isize dsize e :
  py_int (m * f_0_1) = Ok isize → py_int (m * f_0_9) = Ok dsize →
  attrs_set (self w) = false →
  let r := __init__ true scratch m threads v w in
  (lib_rejects (init_memory isize dsize scratch) = Some e →
     r.2 = Raise e ∧ memory r.1 = memory w ∧ self r.1 = self w ∧
     emitted w r.1 = [Random_rand_seed 0; init_memory isize dsize scratch]) ∧
  (lib_rejects (init_memory isize dsize scratch) = None →
   lib_rejects (set_mkl_num_threads threads) = Some e →
     r.2 = Raise e ∧ memory r.1 = Some (isize, dsize, scratch) ∧ self r.1 = self w ∧
     __del__ r.1 = (r.1, Raise AttributeError) ∧
     memory (__del__ r.1).1 = Some (isize, dsize, scratch)).
Proof.
  intros Hi Hd Hat. cbv zeta.
  destruct w as [[fd hm v' os np ns bdim at_] mm rs d c amb inf mpf].
  simpl in Hat. subst at_. unfold __init__. exec. rewrite Hi. exec. rewrite Hd. exec.
  split.
  - intros Hmem. rewrite Hmem. exec. split; [done|]. split; [done|]. split; [done|].
    apply emitted_app. cbn [calls]. by rewrite <- !app_assoc.
  - intros Hmem Hthr. rewrite Hmem. exec. rewrite Hthr. exec. done.
Qed.

End Construction.

(** ** The initialisers, once more *)

Section Initialisers.
Context {lib : Block2}.
Variable SpinLabel : spin_kind.

(** X21.  The two initialisers build the same Hamiltonian from the same
    data: when the file holds the sizes, spin, irrep and orbital symmetries
    that are passed in memory, and the library takes them in memory as it
    took them from the file, the outcomes agree and the Hamiltonians and
    the sizes on the instance differ in nothing but the store they refer
    to. *)
Theorem initialisers_agree pg filename hd e h g tol (w : World) :
  fcidump_read filename = Some hd → square (fh_n_sites hd) h →
  symmetric_within (fh_n_sites hd) h tol = true → fcidump (self w) = None →
  (∀ mh, pack_h1e (fh_n_sites hd) h tol = Ok mh →
     lib_rejects (FCIDUMP_initialize_su2 (fh_n_sites hd) (fh_n_sites hd * 2)
                    (fh_twos hd) (fh_isym hd) e (zero_below tol mh)
                    (zero_below tol g)) = None ∧
     lib_rejects (HamiltonianQC_new vacuum_label
                    (Label (fh_n_sites hd * 2) (fh_twos hd) (swap_d2h (fh_isym hd)))
                    (fh_n_sites hd) (map swap_d2h (fh_orb_sym hd))
                    (su2_store (fh_n_sites hd) (fh_twos hd) (fh_isym hd) e mh g tol))
     = None) →
  lib_rejects (VectorUInt8_new (fh_orb_sym hd)) = None →
  lib_rejects (SpinLabel_new (fh_n_sites hd * 2) (fh_twos hd) (fh_isym hd)) = None →
  let r1 := init_hamiltonian_fcidump pg filename w in
  let r2 := init_hamiltonian SpinLabel pg (fh_n_sites hd) (fh_twos hd) (fh_isym hd)
              (fh_orb_sym hd) e (H1e_array h) (G2e_array g) tol w in
  r1.2 = r2.2 ∧
  ∃ h1 h2, hamil (self r1.1) = Some h1 ∧ hamil (self r2.1) = Some h2 ∧
    h_fcidump h1 = Fd_file filename ∧
    h2 = Hamiltonian (h_vaccum h1) (h_target h1) (h_n_sites h1) (h_orb_sym h1)
           (h_fcidump h2) (h_mu h1) (h_seq_mode h1) ∧
    n_physical_sites (self r1.1) = n_physical_sites (self r2.1) ∧
    n_sites (self r1.1) = n_sites (self r2.1) ∧
    orb_sym (self r1.1) = orb_sym (self r2.1).
Proof.
  intros Hread Hsq Hsym Hfd Hinit Hvec Hlab. cbv zeta.
  pose proof (pack_h1e_spec h tol _ Hsq) as Hpack.
  rewrite (init_hamiltonian_fcidump_run pg filename hd) by done.
  destruct (pack_h1e (fh_n_sites hd) h tol) as [mh|ex] eqn:Hp;
    [|destruct Hpack as [_ Hs]; congruence].
  destruct (Hinit mh eq_refl) as [Hi Hh].
  rewrite (init_hamiltonian_array_run SpinLabel _ _ _ _ _ _ _ _ _ _ mh) by auto.
  cbn [fst snd self hamil n_physical_sites n_sites orb_sym].
  split; [done|]. eexists _, _. repeat split.
Qed.

(** X22.  With two one-electron matrices and three two-electron arrays the
    non-spin-adapted build packs each matrix as the one-array form does and
    hands the store both packed arrays and the three flattened arrays, all
    with their entries below [tol] zeroed; when the library accepts them,
    the orbital symmetries, the target label and the Hamiltonian, the call
    returns normally and the target is again
    [(n_sites * 2, twos, swap_d2h(isym))]. *)
Theorem init_hamiltonian_sz_tuple pg n twos isym os e ha hb gaa gbb gab tol (w : World) :
  SpinLabel = SZ →
  square n ha → square n hb →
  symmetric_within n ha tol = true → symmetric_within n hb tol = true →
  supported_pg pg = true → fcidump (self w) = None →
  (∀ ma mb, pack_h1e n ha tol = Ok ma → pack_h1e n hb tol = Ok mb →
     let fd := Fd_sz n (n * 2) twos isym e [zero_below tol ma; zero_below tol mb]
                 [zero_below tol gaa; zero_below tol gbb; zero_below tol gab] in
     lib_rejects (FCIDUMP_initialize_sz n (n * 2) twos isym e
                    [zero_below tol ma; zero_below tol mb]
                    [zero_below tol gaa; zero_below tol gbb; zero_below tol gab])
     = None ∧
     lib_rejects (HamiltonianQC_new vacuum_label (Label (n * 2) twos (swap_d2h isym))
                    n (map swap_d2h os) fd) = None) →
  lib_rejects (VectorUInt8_new os) = None →
  lib_rejects (SpinLabel_new (n * 2) twos isym) = None →
  let r := init_hamiltonian SpinLabel pg n twos isym os e (H1e_tuple [ha; hb])
             (G2e_tuple [gaa; gbb; gab]) tol w in
  r.2 = Ok () ∧
  ∃ ma mb, pack_h1e n ha tol = Ok ma ∧ pack_h1e n hb tol = Ok mb ∧
    let fd := Fd_sz n (n * 2) twos isym e [zero_below tol ma; zero_below tol mb]
                [zero_below tol gaa; zero_below tol gbb; zero_below tol gab] in
    fcidump (self r.1) = Some fd ∧
    hamil (self r.1) = Some (built_hamil n twos isym os fd) ∧
    emitted w r.1 =
      [FCIDUMP_new;
       FCIDUMP_initialize_sz n (n * 2) twos isym e
         [zero_below tol ma; zero_below tol mb]
         [zero_below tol gaa; zero_below tol gbb; zero_below tol gab];
       VectorUInt8_new os; SpinLabel_new (n * 2) twos isym;
       HamiltonianQC_new vacuum_label (Label (n * 2) twos (swap_d2h isym)) n
         (map swap_d2h os) fd;
       Hamiltonian_set_seq_mode Simple].
Proof.
  intros -> Hsa Hsb Hya Hyb Hpg Hfd Hinit Hvec Hlab. cbv zeta.
  pose proof (pack_h1e_spec ha tol n Hsa) as Hpa.
  pose proof (pack_h1e_spec hb tol n Hsb) as Hpb.
  destruct (pack_h1e n ha tol) as [ma|ex] eqn:Ha; [|destruct Hpa; congruence].
  destruct (pack_h1e n hb tol) as [mb|ex] eqn:Hb; [|destruct Hpb; congruence].
  destruct w as [[fd hm v os' np ns bdim at_] m rs d c amb inf mpf]. simpl in Hfd. subst fd.
  unfold init_hamiltonian. exec.
  rewrite (bool_decide_true (SZ = SZ)) by done.
  rewrite (bool_decide_true (length [ha; hb] = 2%nat)) by done.
  rewrite (bool_decide_true (length [gaa; gbb; gab] = 3%nat)) by done.
  exec. cbn [for_each]. rewrite Ha, Hb. cbn [result_bind app]. exec.
  cbn [map]. destruct (Hinit ma mb eq_refl eq_refl) as [Hi Hh]. cbv zeta in Hi, Hh.
  rewrite Hi. exec. rewrite Hvec. exec. rewrite Hlab. exec. rewrite Hh. exec.
  rewrite Hpg. split; [done|]. exists ma, mb. split; [done|]. split; [done|].
  cbn [map]. split; [done|]. split; [done|].
  apply emitted_app. cbn [calls app]. by rewrite <- !app_assoc.
Qed.

(** X23.  The tuple form checks its shapes first: with a number of
    one-electron matrices other than 2, or a two-electron argument that is
    not a tuple of 3 arrays, the call raises [AssertionError], and all it
    has done by then is to construct the empty store object. *)
Theorem tuple_form_checks_lengths pg n twos isym os e hs g2e tol (w : World) :
  fcidump (self w) = None →
  length hs ≠ 2%nat ∨ (∀ gs, g2e = G2e_tuple gs → length gs ≠ 3%nat) →
  let r := init_hamiltonian SpinLabel pg n twos isym os e (H1e_tuple hs) g2e tol w in
  r.2 = Raise AssertionError ∧ emitted w r.1 = [FCIDUMP_new] ∧
  fcidump (self r.1) = Some Fd_empty ∧ hamil (self r.1) = hamil (self w).
Proof.
  intros Hfd Hbad. cbv zeta.
  destruct w as [[fd hm v os' np ns bdim at_] m rs d c amb inf mpf]. simpl in Hfd. subst fd.
  unfold init_hamiltonian. exec.
  destruct (bool_decide (SpinLabel = SZ)); exec;
    [|split; [done|]; split; [by apply emitted_app | done]].
  destruct (bool_decide (length hs = 2%nat)) eqn:Hl; exec;
    [|split; [done|]; split; [by apply emitted_app | done]].
  apply bool_decide_eq_true in Hl.
  destruct g2e as [g|gs]; exec;
    [split; [done|]; split; [by apply emitted_app | done]|].
  destruct Hbad as [Hbad|Hbad]; [done|].
  rewrite (bool_decide_false (length gs = 3%nat)) by (by apply Hbad).
  exec. split; [done|]. split; [by apply emitted_app | done].
Qed.

(** X24.  An array of one-electron integrals together with a tuple of
    two-electron arrays: the symmetric matrix is packed, and then
    [g2e.flatten()] fails on the tuple with [AttributeError]; the store
    object is left empty and no Hamiltonian is built. *)
Theorem array_with_tuple_g2e pg n twos isym os e h gs tol (w : World) :
  square n h → symmetric_within n h tol = true → fcidump (self w) = None →
  let r := init_hamiltonian SpinLabel pg n twos isym os e (H1e_array h)
             (G2e_tuple gs) tol w in
  r.2 = Raise AttributeError ∧ emitted w r.1 = [FCIDUMP_new] ∧
  fcidump (self r.1) = Some Fd_empty ∧ hamil (self r.1) = hamil (self w).
Proof.
  intros Hsq Hsym Hfd. cbv zeta.
  pose proof (pack_h1e_spec h tol n Hsq) as Hpack.
  destruct (pack_h1e n h tol) as [mh|ex] eqn:Hp; [|destruct Hpack; congruence].
  destruct w as [[fd hm v os' np ns bdim at_] m rs d c amb inf mpf]. simpl in Hfd. subst fd.
  unfold init_hamiltonian. exec. rewrite Hp. exec.
  split; [done|]. split; [by apply emitted_app | done].
Qed.

End Initialisers.

(** X25.  In the spin-adapted build, the one the source selects, every call
    of [init_hamiltonian] in the tuple form raises [AssertionError]: on an
    instance not initialised before all it does is to construct the empty store object, and
    that is enough for every later initialisation to be refused. *)
Theorem tuple_form_needs_sz `{Block2} pg n twos isym os e hs g2e tol (w : World) :
  let r := init_hamiltonian SU2 pg n twos isym os e (H1e_tuple hs) g2e tol w in
  r.2 = Raise AssertionError ∧
  hamil (self r.1) = hamil (self w) ∧
  (fcidump (self w) = None →
   emitted w r.1 = [FCIDUMP_new] ∧ fcidump (self r.1) = Some Fd_empty) ∧
  (∀ pg' n' twos' isym' os' e' h1e' g2e' tol',
     init_hamiltonian SU2 pg' n' twos' isym' os' e' h1e' g2e' tol' r.1
     = (r.1, Raise AssertionError)).
Proof.
  cbv zeta.
  assert (is_none (fcidump (self (init_hamiltonian SU2 pg n twos isym os e
            (H1e_tuple hs) g2e tol w).1)) = false) as Hset
    by apply init_hamiltonian_sets_fcidump.
  split; [|split; [|split]].
  - destruct w as [[fd hm v os' np ns bdim at_] m rs d c amb inf mpf].
    unfold init_hamiltonian. exec. by destruct fd.
  - destruct w as [[fd hm v os' np ns bdim at_] m rs d c amb inf mpf].
    unfold init_hamiltonian. exec. by destruct fd.
  - intros Hfd. destruct w as [[fd hm v os' np ns bdim at_] m rs d c amb inf mpf].
    simpl in Hfd. subst fd. unfold init_hamiltonian. exec.
    split; [by apply emitted_app | done].
  - intros. by apply init_hamiltonian_again.
Qed.

(** ** Zeroing below the tolerance *)

(** X26.  The mask assignment [a[np.abs(a) < tol] = 0.0] keeps the length,
    leaves no entry below [tol] other than 0.0, and is idempotent. *)
Theorem zero_below_idempotent (tol : float) (a : list float) :
  length (zero_below tol a) = length a ∧
  (∀ y, y ∈ zero_below tol a → y = 0%float ∨ abs_lt y tol = false) ∧
  zero_below tol (zero_below tol a) = zero_below tol a.
Proof.
  unfold zero_below. split; [by rewrite length_map|]. split.
  - intros y (x & -> & _)%list_elem_of_fmap.
    destruct (abs_lt x tol) eqn:Hx; auto.
  - rewrite <- list_fmap_compose. apply list_fmap_ext. intros _ x _. simpl.
    destruct (abs_lt x tol) eqn:Hx; [|by rewrite Hx].
    by destruct (abs_lt 0 tol).
Qed.

(** * The build-backend switch (backendswitcher.py) *)

From Stdlib Require Import Ascii.

(** [str.lower()] and [str.replace("_", "-")] on a value made of ASCII
    characters, one character at a time; on other characters [str.lower]
    follows Unicode, which is not modelled. *)
Definition lower_char (c : ascii) : ascii :=
  let n := nat_of_ascii c in
  if (65 <=? n)%nat && (n <=? 90)%nat then ascii_of_nat (n + 32) else c.

Definition replace_char (a b c : ascii) : ascii := if Ascii.eqb c a then b else c.

Fixpoint map_string (f : ascii → ascii) (s : string) : string :=
  match s with
  | EmptyString => EmptyString
  | String c s' => String (f c) (map_string f s')
  end.

Definition py_lower : string → string := map_string lower_char.
Definition py_replace (a b : ascii) : string → string := map_string (replace_char a b).

(** [choose_build_backend] (lines 5-14) without its cache: the value of
    [BLOCK2_BUILD_BACKEND] in the environment decides. *)
Definition choose_build_backend_uncached (environ : gmap string string) : string :=
  let name := default ""%string (environ !! "BLOCK2_BUILD_BACKEND"%string) in
  let name := py_replace "_" "-" (py_lower name) in
  if bool_decide (name = "skbuild"%string)
     || bool_decide (name = "scikit-build-core"%string)
  then "scikit_build_core.build"%string
  else "setuptools.build_meta"%string.

(** [@cache] on a function without arguments: the first call computes and
    stores the result, every later call returns what is stored. *)
Definition choose_build_backend (cache : option string) (environ : gmap string string)
    : option string * string :=
  match cache with
  | Some r => (cache, r)
  | None => let r := choose_build_backend_uncached environ in (Some r, r)
  end.

(** The backends chosen by a sequence of calls, each made in its own
    environment. *)
Fixpoint choose_all (cache : option string) (environs : list (gmap string string))
    : list string :=
  match environs with
  | [] => []
  | environ :: rest =>
      let '(cache', r) := choose_build_backend cache environ in
      r :: choose_all cache' rest
  end.

(** A lower-case letter or a hyphen: the characters of the two accepted
    names. *)
Definition name_char (d : ascii) : bool :=
  let n := nat_of_ascii d in ((97 <=? n)%nat && (n <=? 122)%nat) || (n =? 45)%nat.

(** [c] spells [d]: it is [d], or the capital of the letter [d], or an
    underscore where [d] is a hyphen. *)
Definition spells_char (c d : ascii) : bool :=
  Ascii.eqb c d
  || ((97 <=? nat_of_ascii d)%nat && (nat_of_ascii c + 32 =? nat_of_ascii d)%nat)
  || (Ascii.eqb c "_" && Ascii.eqb d "-").

Fixpoint spells (s t : string) : bool :=
  match s, t with
  | EmptyString, EmptyString => true
  | String c s', String d t' => spells_char c d && spells s' t'
  | _, _ => false
  end.

Fixpoint all_chars (p : ascii → bool) (s : string) : bool :=
  match s with
  | EmptyString => true
  | String c s' => p c && all_chars p s'
  end.

Lemma normalise_char c d :
  name_char d = true →
  replace_char "_" "-" (lower_char c) = d ↔ spells_char c d = true.
Proof.
  destruct d as [[] [] [] [] [] [] [] []]; try discriminate; intros _;
    destruct c as [[] [] [] [] [] [] [] []]; vm_compute;
    split; intros H; first [reflexivity | discriminate H].
Qed.

Lemma normalise_spells s t :
  all_chars name_char t = true →
  py_replace "_" "-" (py_lower s) = t ↔ spells s t = true.
Proof.
  unfold py_replace, py_lower.
  revert t. induction s as [|c s IH]; intros [|d t] Hall; simpl in *;
    try (split; congruence).
  apply andb_true_iff in Hall as [Hd Ht].
  rewrite andb_true_iff, <- (IH t Ht), <- normalise_char by done.
  split; [intros [= <- <-]; done | intros [-> ->]; done].
Qed.

(** The value is made of ASCII characters. *)
Definition ascii_only : string → bool := all_chars (λ c, (nat_of_ascii c <? 128)%nat).

(** X27.  Which ASCII values of [BLOCK2_BUILD_BACKEND] select
    scikit-build-core: exactly the spellings of "skbuild" and
    "scikit-build-core" with letters in either case and any hyphen written
    as an underscore.  Every other value, and an unset variable, selects
    setuptools. *)
Theorem backend_spellings (environ : gmap string string) :
  let name := default ""%string (environ !! "BLOCK2_BUILD_BACKEND"%string) in
  ascii_only name = true →
  (choose_build_backend_uncached environ = "scikit_build_core.build"%string ↔
   spells name "skbuild" = true ∨ spells name "scikit-build-core" = true) ∧
  (choose_build_backend_uncached environ = "setuptools.build_meta"%string ↔
   spells name "skbuild" = false ∧ spells name "scikit-build-core" = false) ∧
  (environ !! "BLOCK2_BUILD_BACKEND"%string = None →
   choose_build_backend_uncached environ = "setuptools.build_meta"%string).
Proof.
  cbv zeta. intros _. unfold choose_build_backend_uncached.
  set (name := default ""%string (environ !! "BLOCK2_BUILD_BACKEND"%string)).
  assert (bool_decide (py_replace "_" "-" (py_lower name) = "skbuild"%string)
          = spells name "skbuild") as ->.
  { apply eq_true_iff_eq. rewrite bool_decide_eq_true. by apply normalise_spells. }
  assert (bool_decide (py_replace "_" "-" (py_lower name) = "scikit-build-core"%string)
          = spells name "scikit-build-core") as ->.
  { apply eq_true_iff_eq. rewrite bool_decide_eq_true. by apply normalise_spells. }
  split; [|split].
  - destruct (spells name "skbuild"), (spells name "scikit-build-core"); simpl;
      split; intros Hc; first [done | by auto | by destruct Hc].
  - destruct (spells name "skbuild"), (spells name "scikit-build-core"); simpl;
      split; intros Hc; first [done | by destruct Hc].
  - intros Hnone. subst name. rewrite Hnone. reflexivity.
Qed.

(** X28.  The choice is cached: in a sequence of calls every call returns
    the backend the first call chose, whatever the environment has become
    in between. *)
Theorem backend_choice_is_cached (environ : gmap string string)
    (later : list (gmap string string)) :
  choose_all None (environ :: later)
  = replicate (S (length later)) (choose_build_backend_uncached environ).
Proof.
  cbn [choose_all choose_build_backend replicate]. f_equal.
  generalize (choose_build_backend_uncached environ). intros r.
  induction later as [|e later IH]; [done|].
  cbn [choose_all choose_build_backend length replicate]. by rewrite IH.
Qed.

(** ** Closed examples of the further properties *)

Lemma in_list_range (l : list Z) (lo hi : Z) :
  forallb (λ r, (lo <=? r) && (r <? hi)) l = true → ∀ r, r ∈ l → lo ≤ r < hi.
Proof.
  rewrite forallb_forall. intros Hall r Hr%list_elem_of_In.
  specialize (Hall r Hr). apply andb_true_iff in Hall as [?%Z.leb_le ?%Z.ltb_lt]. lia.
Qed.

Lemma square_demo_1pdm_3 : square 3 (demo_1pdm 3).
Proof. split; [reflexivity | repeat constructor]. Qed.

Lemma square_demo_1pdm_2 : square 2 (demo_1pdm 2).
Proof. split; [reflexivity | repeat constructor]. Qed.

Lemma perm_201 : [2; 0; 1] ≡ₚ py_range 3.
Proof. vm_compute. apply (Permutation_cons_app [0; 1] [] 2). reflexivity. Qed.

Lemma reorder_entries_witness :
  ∃ dm1, reorder (demo_1pdm 3) [2; 0; 1] = Ok dm1 ∧ square 3 dm1 ∧
    ∀ i j ri rj, [2; 0; 1] !! i = Some ri → [2; 0; 1] !! j = Some rj →
      mat_get dm1 (Z.of_nat i) (Z.of_nat j) = mat_get (demo_1pdm 3) ri rj.
Proof.
  apply (reorder_entries 3 (demo_1pdm 3) [2; 0; 1]).
  - exact square_demo_1pdm_3.
  - reflexivity.
  - apply in_list_range. reflexivity.
Defined.

Lemma reorder_identity_witness : reorder (demo_1pdm 3) [0; 1; 2] = Ok (demo_1pdm 3).
Proof. exact (reorder_identity 3 (demo_1pdm 3) square_demo_1pdm_3). Defined.

Lemma reorder_compose_witness :
  ∃ dm1 pq, reorder (demo_1pdm 3) [2; 0; 1] = Ok dm1 ∧
            collect (np_get [2; 0; 1]) [1; 2; 0] = Ok pq ∧
            ∃ dm2, reorder dm1 [1; 2; 0] = Ok dm2 ∧ reorder (demo_1pdm 3) pq = Ok dm2.
Proof.
  apply (reorder_compose 3 (demo_1pdm 3) [2; 0; 1] [1; 2; 0]).
  - exact square_demo_1pdm_3.
  - reflexivity.
  - apply in_list_range. reflexivity.
  - reflexivity.
  - apply in_list_range. reflexivity.
Defined.

Lemma reorder_index_error_witness : reorder (demo_1pdm 3) [0; 3; 1] = Raise IndexError.
Proof.
  apply (reorder_index_error 3 (demo_1pdm 3) [0; 3; 1] square_demo_1pdm_3).
  exists 3. split; [|lia]. apply elem_of_cons. right. apply elem_of_cons. by left.
Defined.

Lemma reorder_shape_mismatch_witness : reorder (demo_1pdm 3) [0; 1] = Raise ValueError.
Proof.
  apply (reorder_shape_mismatch 3 (demo_1pdm 3) [0; 1] square_demo_1pdm_3).
  - apply in_list_range. reflexivity.
  - simpl. lia.
  - simpl. lia.
Defined.

Lemma reorder_single_index_broadcasts_witness :
  reorder (demo_1pdm 2) [1] = Ok [[4%float; 4%float]; [4%float; 4%float]].
Proof.
  apply (reorder_single_index_broadcasts 2 1 (demo_1pdm 2) 4%float square_demo_1pdm_2).
  - lia.
  - vm_compute. reflexivity.
Defined.

Lemma argsort_perm_involutive_witness :
  argsort_perm [2; 0; 1] ≡ₚ py_range 3 ∧ argsort_perm (argsort_perm [2; 0; 1]) = [2; 0; 1].
Proof. exact (argsort_perm_involutive 3 [2; 0; 1] perm_201). Defined.

Lemma generate_initial_mps_requires_hamil_witness :
  generate_initial_mps 500 demo_constructed = (demo_constructed, Raise AssertionError).
Proof.
  apply (generate_initial_mps_requires_hamil 500 demo_constructed).
  vm_compute. reflexivity.
Defined.

Lemma generate_initial_mps_stores_init_witness :
  (generate_initial_mps 500 demo_initialised).2 = Ok () ∧
  disk (generate_initial_mps 500 demo_initialised).1 !! "INIT"%string
  = Some (thermal_mps demo_hamil 2 4 (4 - 2) 2).
Proof.
  assert (hamil (self demo_initialised) = Some demo_hamil) as Hh
    by (vm_compute; reflexivity).
  assert (n_physical_sites (self demo_initialised) = Some 2) as Hn
    by (vm_compute; reflexivity).
  assert (n_sites (self demo_initialised) = Some 4) as Hns
    by (vm_compute; reflexivity).
  pose proof (generate_initial_mps_stores_init 500 demo_initialised demo_hamil 2 4
                Hh Hn Hns) as (H1 & H2 & _).
  split; [exact H1 | exact H2].
Defined.

Lemma imaginary_time_evolution_requires_hamil_witness :
  imaginary_time_evolution 10 0.0625%float 0.5%float [500] RK4 4 false demo_constructed
  = (demo_constructed, Raise AttributeError).
Proof.
  apply (imaginary_time_evolution_requires_hamil 10 0.0625%float 0.5%float [500] RK4 4
           false demo_constructed).
  vm_compute. reflexivity.
Defined.

Lemma staged_evolution_witness :
  disk (imaginary_time_evolution 3 0.0625%float 0.25%float [500] RK4 2 true
          demo_evolved).1 !! "FINAL"%string = Some (2, 13).
Proof.
  assert (hamil (self demo_prepared) = Some demo_hamil) as Hh
    by (vm_compute; reflexivity).
  assert (n_physical_sites (self demo_prepared) = Some 2) as Hn
    by (vm_compute; reflexivity).
  assert ("INIT"%string ∈ info_files demo_prepared) as Hi
    by (apply tag_there; vm_compute; reflexivity).
  assert (disk demo_prepared !! "INIT"%string = Some (2, 0)) as Hd
    by (vm_compute; reflexivity).
  assert ("INIT"%string ∈ mps_files demo_prepared) as Hm
    by (apply tag_there; vm_compute; reflexivity).
  pose proof (staged_evolution 10 3 0.0625%float 0.5%float 0.25%float [250; 500] [500]
                RK4 4 2 demo_prepared demo_hamil 2 (2, 0) Hh Hn
                ltac:(discriminate) ltac:(discriminate) Hi Hd Hm
                eq_refl eq_refl eq_refl eq_refl eq_refl eq_refl) as (_ & _ & H3 & _).
  exact H3.
Defined.

Lemma refused_bond_dims_witness :
  (imaginary_time_evolution 10 0.0625%float 0.5%float [70000] RK4 4 false
     demo_prepared).2 = Raise TypeError ∧
  "FINAL"%string ∈ mps_files
    (imaginary_time_evolution 10 0.0625%float 0.5%float [70000] RK4 4 false
       demo_prepared).1.
Proof.
  assert (hamil (self demo_prepared) = Some demo_hamil) as Hh
    by (vm_compute; reflexivity).
  assert (n_physical_sites (self demo_prepared) = Some 2) as Hn
    by (vm_compute; reflexivity).
  assert ("INIT"%string ∈ info_files demo_prepared) as Hi
    by (apply tag_there; vm_compute; reflexivity).
  assert (disk demo_prepared !! "INIT"%string = Some (2, 0)) as Hd
    by (vm_compute; reflexivity).
  assert ("INIT"%string ∈ mps_files demo_prepared) as Hm
    by (apply tag_there; vm_compute; reflexivity).
  assert (disk demo_prepared !! "FINAL"%string = None) as Hf
    by (vm_compute; reflexivity).
  pose proof (refused_bond_dims 10 0.0625%float 0.5%float [70000] RK4 4
                demo_prepared demo_hamil 2 (2, 0) TypeError Hh Hn Hi Hd Hm Hf eq_refl)
    as (H1 & _ & _ & H4 & _).
  split; [exact H1 | exact H4].
Defined.

Lemma workflow_one_pdm_witness :
  (get_one_pdm SU2 (Some [1; 0]) demo_evolved).2
  = Ok [[[2%float; 1.5%float]; [1%float; 0.5%float]];
        [[2%float; 1.5%float]; [1%float; 0.5%float]]].
Proof.
  assert (fcidump (self demo_constructed) = None) as Hfd by (vm_compute; reflexivity).
  pose proof (workflow_one_pdm SU2 "c1" 2 0 1 [1; 1] 0%float demo_h1e demo_g2e f_1em13
                500 10 0.0625%float 0.5%float [250; 500] RK4 4 (Some [1; 0])
                demo_constructed [1%float; 0.5%float; 2%float]
                square_demo_h1e ltac:(vm_compute; reflexivity)
                ltac:(reflexivity) Hfd ltac:(discriminate)
                ltac:(vm_compute; reflexivity)
                eq_refl eq_refl eq_refl eq_refl eq_refl eq_refl eq_refl)
    as (_ & _ & _ & bd & Hbd & _ & Hres).
  injection Hbd as <-.
  etransitivity; [exact Hres|]. vm_compute. reflexivity.
Defined.

Lemma get_one_pdm_requires_evolution_witness :
  is_ok (get_one_pdm SU2 None demo_prepared).2 = false.
Proof.
  apply (get_one_pdm_requires_evolution SU2 None demo_prepared).
  vm_compute. reflexivity.
Defined.

Lemma get_one_pdm_su2_channels_witness :
  ∃ h n st bd dm,
    hamil (self demo_evolved) = Some h ∧ n_physical_sites (self demo_evolved) = Some n ∧
    disk demo_evolved !! "FINAL"%string = Some st ∧
    bond_dim (self demo_evolved) = Some bd ∧
    reorder_opt (expect_1pdm SU2 (set_mu 0 h) st bd (mps_center st =? 0) n) None
    = Ok dm ∧
    [[[0.5%float; 1%float]; [1.5%float; 2%float]];
     [[0.5%float; 1%float]; [1.5%float; 2%float]]]
    = [map (map (λ x, x / 2)%float) dm; map (map (λ x, x / 2)%float) dm].
Proof.
  apply (get_one_pdm_su2_channels None demo_evolved).
  vm_compute. reflexivity.
Defined.

Lemma sizes_stay_consistent_witness :
  consistent
    (self (run_ops SU2
             [Op_init_hamiltonian "c1" 2 0 1 [1; 1] 0%float (H1e_array demo_h1e)
                (G2e_array demo_g2e) f_1em13;
              Op_generate_initial_mps 500;
              Op_imaginary_time_evolution 10 0.0625%float 0.5%float [250; 500] RK4 4
                false]
             (__init__ true "/tmp/ftdmrg" f_1e9 4 0 fresh_world).1).1).
Proof.
  refine (proj1 (sizes_stay_consistent SU2 "/tmp/ftdmrg" f_1e9 4 0 _ fresh_world _)).
  vm_compute. reflexivity.
Defined.

Lemma construction_bad_memory_witness :
  (__init__ true "/tmp/ftdmrg" nan 4 0 fresh_world).2 = Raise ValueError ∧
  (__init__ true "/tmp/ftdmrg" infinity 4 0 fresh_world).2 = Raise OverflowError ∧
  memory (__init__ true "/tmp/ftdmrg" nan 4 0 fresh_world).1 = None.
Proof.
  pose proof (construction_bad_memory "/tmp/ftdmrg" nan 4 0 fresh_world ValueError
                ltac:(vm_compute; reflexivity)) as (H1 & _ & _ & H4 & _).
  pose proof (construction_bad_memory "/tmp/ftdmrg" infinity 4 0 fresh_world
                OverflowError ltac:(vm_compute; reflexivity)) as (H2 & _).
  split; [exact H1|]. split; [exact H2|]. exact H4.
Defined.

Lemma construction_refused_witness :
  (__init__ true "/tmp/ftdmrg" f_1e9 (2 ^ 31) 0 fresh_world).2 = Raise TypeError ∧
  memory (__init__ true "/tmp/ftdmrg" f_1e9 (2 ^ 31) 0 fresh_world).1
  = Some (100000000, 900000000, "/tmp/ftdmrg"%string) ∧
  __del__ (__init__ true "/tmp/ftdmrg" f_1e9 (2 ^ 31) 0 fresh_world).1
  = ((__init__ true "/tmp/ftdmrg" f_1e9 (2 ^ 31) 0 fresh_world).1, Raise AttributeError).
Proof.
  pose proof (construction_refused "/tmp/ftdmrg" f_1e9 (2 ^ 31) 0 fresh_world
                100000000 900000000 TypeError ltac:(vm_compute; reflexivity)
                ltac:(vm_compute; reflexivity) eq_refl) as [_ H].
  destruct (H eq_refl eq_refl) as (H1 & H2 & _ & H4 & _).
  split; [exact H1|]. split; [exact H2 | exact H4].
Defined.

Lemma initialisers_agree_witness :
  (init_hamiltonian_fcidump "c1" "FCIDUMP" demo_constructed).2
  = (init_hamiltonian SU2 "c1" 2 0 1 [1; 1] 0%float (H1e_array demo_h1e)
       (G2e_array demo_g2e) f_1em13 demo_constructed).2.
Proof.
  refine (proj1 (initialisers_agree SU2 "c1" "FCIDUMP" (FcidumpHeader 2 0 1 [1; 1])
                   0%float demo_h1e demo_g2e f_1em13 demo_constructed _ _ _ _ _ _ _)).
  - reflexivity.
  - exact square_demo_h1e.
  - vm_compute. reflexivity.
  - vm_compute. reflexivity.
  - intros mh _. split; reflexivity.
  - reflexivity.
  - reflexivity.
Defined.

Lemma init_hamiltonian_sz_tuple_witness :
  (init_hamiltonian SZ "d2h" 2 0 1 [1; 1] 0%float (H1e_tuple [demo_h1e; demo_h1e])
     (G2e_tuple [demo_g2e; demo_g2e; demo_g2e]) f_1em13 demo_constructed).2 = Ok ().
Proof.
  refine (proj1 (init_hamiltonian_sz_tuple SZ "d2h" 2 0 1 [1; 1] 0%float demo_h1e
                  demo_h1e demo_g2e demo_g2e demo_g2e f_1em13 demo_constructed
                  eq_refl square_demo_h1e square_demo_h1e _ _ _ _ _ _ _)).
  - vm_compute. reflexivity.
  - vm_compute. reflexivity.
  - reflexivity.
  - vm_compute. reflexivity.
  - intros ma mb _ _. split; reflexivity.
  - reflexivity.
  - reflexivity.
Defined.

Lemma tuple_form_checks_lengths_witness :
  (init_hamiltonian SZ "d2h" 2 0 1 [1; 1] 0%float (H1e_tuple [demo_h1e])
     (G2e_tuple [demo_g2e; demo_g2e; demo_g2e]) f_1em13 demo_constructed).2
  = Raise AssertionError.
Proof.
  refine (proj1 (tuple_form_checks_lengths SZ "d2h" 2 0 1 [1; 1] 0%float [demo_h1e]
                   (G2e_tuple [demo_g2e; demo_g2e; demo_g2e]) f_1em13 demo_constructed
                   _ _)).
  - vm_compute. reflexivity.
  - left. simpl. lia.
Defined.

Lemma array_with_tuple_g2e_witness :
  (init_hamiltonian SU2 "c1" 2 0 1 [1; 1] 0%float (H1e_array demo_h1e)
     (G2e_tuple [demo_g2e]) f_1em13 demo_constructed).2 = Raise AttributeError.
Proof.
  refine (proj1 (array_with_tuple_g2e SU2 "c1" 2 0 1 [1; 1] 0%float demo_h1e [demo_g2e]
                  f_1em13 demo_constructed square_demo_h1e _ _)).
  - vm_compute. reflexivity.
  - vm_compute. reflexivity.
Defined.

Lemma backend_spellings_witness :
  choose_build_backend_uncached
    {["BLOCK2_BUILD_BACKEND"%string := "Scikit_Build-CORE"%string]}
  = "scikit_build_core.build"%string.
Proof.
  refine (proj2 (proj1 (backend_spellings
                  {["BLOCK2_BUILD_BACKEND"%string := "Scikit_Build-CORE"%string]} _))
            _).
  - vm_compute. reflexivity.
  - right. vm_compute. reflexivity.
Defined.

